(** * The fact pipeline and the deterministic synthesis engine

    A shallow embedding of the TypeScript sources of the repository:
    the canonicalizer ([lib/card/deterministic.ts] and
    [scripts/src/card/deterministic.ts]), the three reconciliation passes
    ([scripts/src/llm/extractor.ts], [reasoner.ts], [verifier.ts]), the
    deterministic baseline ([pipeline/deterministic.ts], with the README
    analysis of [analysis/repository.ts]) and the apply engine
    ([scripts/src/actions/apply.ts], [write_card.ts], [write_anchors.ts],
    [card/seed.ts]).

    JavaScript numbers are IEEE-754 binary64 values ([spec_float] with
    [prec = 53] and [emax = 1024]); strings are [string]; JSON documents are
    the inductive type [value]; a JavaScript [Map] is an association list in
    insertion order. *)

From Stdlib Require Import ZArith List String Ascii Bool Lia.
From Stdlib Require Import SpecFloat.
From Stdlib Require Import Permutation.
Import ListNotations.

Local Open Scope string_scope.
Local Open Scope Z_scope.

(* ===================================================================== *)
(** * JavaScript numbers *)
(* ===================================================================== *)

Module JsNumber.

Definition number : Type := spec_float.

Definition prec : Z := 53.
Definition emax : Z := 1024.

Definition NaN : number := S754_nan.
Definition Infinity : number := S754_infinity false.
Definition NEGATIVE_INFINITY : number := S754_infinity true.
Definition zero : number := S754_zero false.

(** The Number nearest to the integer [z] (ties to even). *)
Definition of_Z (z : Z) : number := binary_normalize prec emax z 0 false.

(** The Number nearest to [m * 10^e]: the value of a decimal literal and
    of [Number.parseFloat] on a decimal string. *)
Definition of_decimal (m : Z) (e : Z) : number :=
  match m with
  | Z0 => zero
  | Zpos p =>
      if 0 <=? e then binary_normalize prec emax (m * 10 ^ e) 0 false
      else SFdiv prec emax (S754_finite false p 0)
                 (S754_finite false (Z.to_pos (10 ^ (- e))) 0)
  | Zneg p =>
      if 0 <=? e then binary_normalize prec emax (m * 10 ^ e) 0 false
      else SFdiv prec emax (S754_finite true p 0)
                 (S754_finite false (Z.to_pos (10 ^ (- e))) 0)
  end.

(** [a < b], [a <= b], [a === b], [a >= b], [a > b] on Numbers; every
    comparison with [NaN] is false. *)
Definition ltb (a b : number) : bool := SFltb a b.
Definition leb (a b : number) : bool := SFleb a b.
Definition eqb (a b : number) : bool := SFeqb a b.
Definition geb (a b : number) : bool := SFleb b a.
Definition gtb (a b : number) : bool := SFltb b a.

Definition add (a b : number) : number := SFadd prec emax a b.
Definition sub (a b : number) : number := SFsub prec emax a b.
Definition mul (a b : number) : number := SFmul prec emax a b.

(** [Number.isFinite]. *)
Definition isFinite (x : number) : bool :=
  match x with
  | S754_zero _ | S754_finite _ _ _ => true
  | S754_infinity _ | S754_nan => false
  end.

(** [Number.isNaN]. *)
Definition isNaN (x : number) : bool :=
  match x with S754_nan => true | _ => false end.

(** [Math.max] and [Math.min] on two arguments. *)
Definition max (a b : number) : number :=
  if isNaN a || isNaN b then NaN else if ltb a b then b else a.
Definition min (a b : number) : number :=
  if isNaN a || isNaN b then NaN else if ltb b a then b else a.

(** ** [Number.prototype.toPrecision(3)] followed by [Number.parseFloat] *)

(** [x = num / den] as an exact fraction, for a finite non-zero [x]. *)
Definition fraction_of (m : positive) (e : Z) : Z * Z :=
  if 0 <=? e then (Zpos m * 2 ^ e, 1) else (Zpos m, 2 ^ (- e)).

(** [10^k <= num / den]. *)
Definition pow10_le (k : Z) (num den : Z) : bool :=
  if 0 <=? k then (10 ^ k * den <=? num) else (den <=? num * 10 ^ (- k)).

(** The decimal exponent [e] with [10^e <= num/den < 10^(e+1)], searched
    around the estimate given by the binary magnitude. *)
Definition decimal_exponent (m : positive) (e : Z) : Z :=
  let '(num, den) := fraction_of m e in
  let mag2 := Zpos (digits2_pos m) + e in
  let est := ((mag2 - 1) * 30103) / 100000 in
  if pow10_le (est + 1) num den then est + 1
  else if pow10_le est num den then est
  else est - 1.

(** ECMA-262, Number.prototype.toPrecision with p = 3: integers [n] and [e]
    with [100 <= n < 1000] such that [n * 10^(e-2) - x] is as close to zero
    as possible, the larger [n] on a tie. *)
Definition toPrecision3_digits (m : positive) (e : Z) : Z * Z :=
  let '(num, den) := fraction_of m e in
  let e10 := decimal_exponent m e in
  let k := e10 - 2 in
  (* n = floor (x / 10^k + 1/2) *)
  let n :=
    if 0 <=? k then (2 * num + den * 10 ^ k) / (2 * den * 10 ^ k)
    else (2 * num * 10 ^ (- k) + den) / (2 * den) in
  if n =? 1000 then (100, e10 + 1) else (n, e10).

(** [Number.parseFloat(x.toPrecision(3))] for a finite non-zero [x]. *)
Definition roundSignificant3 (x : number) : number :=
  match x with
  | S754_finite s m e =>
      let '(n, e10) := toPrecision3_digits m e in
      of_decimal (if s then - n else n) (e10 - 2)
  | _ => x
  end.

End JsNumber.

Import JsNumber.

Definition MAX_VALUE : number := S754_finite false 9007199254740991 971.
Definition MIN_VALUE : number := S754_finite false 1 (-1074).


(* ===================================================================== *)
(** * JavaScript strings *)
(* ===================================================================== *)

Module JsString.

Definition startsWith (s p : string) : bool := String.prefix p s.

Definition endsWith (s suffix : string) : bool :=
  let n := String.length s in
  let k := String.length suffix in
  (k <=? n)%nat && String.eqb (String.substring (n - k) k s) suffix.

(** [s.length === 0] is the only falsy string. *)
Definition truthy (s : string) : bool := negb (String.eqb s "").

Definition isDigit (c : ascii) : bool :=
  let n := nat_of_ascii c in ((48 <=? n) && (n <=? 57))%nat.

Definition isHexDigit (c : ascii) : bool :=
  let n := nat_of_ascii c in
  (((48 <=? n) && (n <=? 57)) || ((65 <=? n) && (n <=? 70))
   || ((97 <=? n) && (n <=? 102)))%nat.

(** [\w] of a regular expression without the [u] flag: [A-Za-z0-9_]. *)
Definition isWordChar (c : ascii) : bool :=
  let n := nat_of_ascii c in
  (((48 <=? n) && (n <=? 57)) || ((65 <=? n) && (n <=? 90))
   || ((97 <=? n) && (n <=? 122)) || (n =? 95))%nat.

(** Canonicalization of the [i] flag on the characters of a pattern made
    of ASCII letters: an upper-case ASCII letter is folded to lower case;
    a character outside ASCII never matches an ASCII letter. *)
Definition toLowerAscii (c : ascii) : ascii :=
  let n := nat_of_ascii c in
  if ((65 <=? n) && (n <=? 90))%nat then ascii_of_nat (n + 32) else c.

Fixpoint forallb_string (f : ascii -> bool) (s : string) : bool :=
  match s with
  | EmptyString => true
  | String c r => f c && forallb_string f r
  end.

Fixpoint map_string (f : ascii -> ascii) (s : string) : string :=
  match s with
  | EmptyString => EmptyString
  | String c r => String (f c) (map_string f r)
  end.

(** [s.includes(needle)]. *)
Fixpoint includes (s needle : string) : bool :=
  String.prefix needle s ||
  match s with
  | EmptyString => false
  | String _ r => includes r needle
  end.

(** Decimal rendering of a natural number ([String(n)] on a small
    non-negative integer). *)
Fixpoint digits_fuel (fuel : nat) (n : nat) (acc : string) : string :=
  match fuel with
  | O => acc
  | S f =>
      let acc' := String (ascii_of_nat (48 + Nat.modulo n 10)) acc in
      if (n <? 10)%nat then acc' else digits_fuel f (Nat.div n 10) acc'
  end.

Definition nat_to_string (n : nat) : string := digits_fuel (S n) n "".

End JsString.

Import JsString.

(* ===================================================================== *)
(** * JSON documents *)
(* ===================================================================== *)

#[local] Set Warnings "-register-all".

(** A JSON value as [JSON.parse] and [js-yaml] build it. An object is the
    list of its own enumerable properties in property order. *)
Inductive value : Type :=
| VNull
| VBool (b : bool)
| VNum (n : number)
| VStr (s : string)
| VArr (items : list value)
| VObj (props : list (string * value)).

(** An optional property: [None] is [undefined]. *)
Definition optional (A : Type) : Type := option A.

(** [a ?? b] on a possibly-undefined JSON value: [null] and [undefined] are
    nullish. *)
Definition nullish_value (a b : optional value) : optional value :=
  match a with
  | None | Some VNull => b
  | Some _ => a
  end.

(** [a ?? b] on an optional property whose type excludes [null]. *)
Definition orElse {A : Type} (a : optional A) (b : A) : A :=
  match a with Some x => x | None => b end.

(* ===================================================================== *)
(** * The data model: [lib/card/types.ts] *)
(* ===================================================================== *)

Inductive Gate : Type := OK | Warn | Require.

Inductive SourceKind : Type := extracted | inferred | manual.

Definition Gate_eqb (a b : Gate) : bool :=
  match a, b with
  | OK, OK | Warn, Warn | Require, Require => true
  | _, _ => false
  end.

Definition SourceKind_eqb (a b : SourceKind) : bool :=
  match a, b with
  | extracted, extracted | inferred, inferred | manual, manual => true
  | _, _ => false
  end.

(** [Anchor]; [kind] is carried as the string found in the payload. *)
Record Anchor : Type := mkAnchor {
  a_path : string;
  a_startLine : number;
  a_endLine : number;
  a_commit : string;
  a_fingerprint : optional string;
  a_kind : optional string
}.

Record Fact : Type := mkFact {
  jsonPath : string;
  jsonPointer : optional string;
  currentValue : optional value;
  proposedValue : optional value;
  sourceKind : SourceKind;
  repoSources : list Anchor;
  confidence : number;
  gate : Gate;
  verifierNotes : optional string
}.

(** [Partial<Anchor>] as it arrives in a response of the reasoning service. *)
Record RawAnchor : Type := mkRawAnchor {
  ra_path : optional string;
  ra_startLine : optional number;
  ra_endLine : optional number;
  ra_commit : optional string;
  ra_kind : optional string
}.

(** [RawFactPayload] of the extractor, also [Partial<Fact>] of the
    reasoner. *)
Record RawFactPayload : Type := mkRaw {
  r_jsonPath : optional string;
  r_jsonPointer : optional string;
  r_proposedValue : optional value;
  r_currentValue : optional value;
  r_repoSources : optional (list RawAnchor);
  r_confidence : optional number;
  r_gate : optional Gate;
  r_verifierNotes : optional string;
  r_sourceKind : optional SourceKind
}.

(* ===================================================================== *)
(** * [Array.prototype.sort] and [Map] *)
(* ===================================================================== *)

Section Sorting.
Context {A : Type}.

(** [comparefn(a, b) < 0] after [ToNumber]; [NaN] counts as [+0]. *)
Variable before : A -> A -> bool.

(** Stable insertion: [x], which precedes every element of [l] in the
    input, goes after the elements that are strictly before it. *)
Fixpoint insert_stable (x : A) (l : list A) : list A :=
  match l with
  | [] => [x]
  | y :: t => if before y x then y :: insert_stable x t else x :: y :: t
  end.

Fixpoint sort_stable (l : list A) : list A :=
  match l with
  | [] => []
  | x :: t => insert_stable x (sort_stable t)
  end.
End Sorting.

(** [array.sort(comparefn)] for a comparator returning a Number. *)
Definition js_sort {A : Type} (comparefn : A -> A -> number) (l : list A) : list A :=
  sort_stable (fun a b => ltb (comparefn a b) zero) l.

(** The Number that stands for the sign returned by [localeCompare]. *)
Definition number_of_comparison (c : comparison) : number :=
  match c with Lt => of_Z (-1) | Eq => zero | Gt => of_Z 1 end.

Module JsMap.
Section WithValue.
Context {V : Type}.

Definition t : Type := list (string * V).

Fixpoint get (m : t) (k : string) : option V :=
  match m with
  | [] => None
  | (k', v) :: r => if String.eqb k' k then Some v else get r k
  end.

(** [map.set(k, v)]: an existing key keeps its position. *)
Fixpoint set (m : t) (k : string) (v : V) : t :=
  match m with
  | [] => [(k, v)]
  | (k', v') :: r =>
      if String.eqb k' k then (k', v) :: r else (k', v') :: set r k v
  end.

Definition values (m : t) : list V := List.map snd m.
Definition keys (m : t) : list string := List.map fst m.
End WithValue.
End JsMap.

(* ===================================================================== *)
(** * Confidence and gates: [extractor.ts], lines 470-491 *)
(* ===================================================================== *)

Definition c_0_2 : number := of_decimal 2 (-1).
Definition c_0_5 : number := of_decimal 5 (-1).
Definition c_0_65 : number := of_decimal 65 (-2).
Definition c_0_75 : number := of_decimal 75 (-2).
Definition c_0_8 : number := of_decimal 8 (-1).
Definition c_1 : number := of_Z 1.

(** [normalizeConfidence(value, fallback)]. *)
Definition normalizeConfidence (v : optional number) (fallback : number) : number :=
  match v with
  | Some x =>
      if isFinite x then
        if ltb x zero then zero
        else if gtb x c_1 then c_1
        else x
      else fallback
  | None => fallback
  end.

(** [computeGate(confidence)]. *)
Definition computeGate (c : number) : Gate :=
  if geb c c_0_8 then OK
  else if geb c c_0_65 then Warn
  else Require.

(* ===================================================================== *)
(** * Anchor normalization: [extractor.ts], lines 440-468 *)
(* ===================================================================== *)

(** [/^[0-9a-fA-F]{7,40}$/.test(s)]. *)
Definition SHA_REGEX_test (s : string) : bool :=
  forallb_string isHexDigit s
  && (7 <=? String.length s)%nat && (String.length s <=? 40)%nat.

Definition VALID_KINDS : list string :=
  ["code"; "openapi"; "metrics"; "docs"; "config"; "test"].

Definition includes_string (l : list string) (s : string) : bool :=
  existsb (String.eqb s) l.

(** The kind chosen for an anchor whose own kind is not a valid one. *)
Definition kindFromPath (p : optional string) : string :=
  match p with
  | Some q =>
      if endsWith q ".md" then "docs"
      else if endsWith q ".json" || endsWith q ".yaml" then "config"
      else "code"
  | None => "code"
  end.

Definition normalizeAnchor (headSha : string) (anchor : RawAnchor) : Anchor :=
  let commit0 := orElse (ra_commit anchor) headSha in
  let commit := if SHA_REGEX_test commit0 then commit0 else headSha in
  let kind :=
    match ra_kind anchor with
    | Some k => if includes_string VALID_KINDS k then k
                else kindFromPath (ra_path anchor)
    | None => kindFromPath (ra_path anchor)
    end in
  {| a_path := orElse (ra_path anchor) "";
     a_startLine := orElse (ra_startLine anchor) c_1;
     a_endLine :=
       match ra_endLine anchor with
       | Some e => e
       | None => orElse (ra_startLine anchor) c_1
       end;
     a_commit := commit;
     a_fingerprint := None;
     a_kind := Some kind |}.

(** [normalizeAnchors(anchors, headSha)]. *)
Definition normalizeAnchors (anchors : list RawAnchor) (headSha : string) : list Anchor :=
  filter (fun a => (0 <? String.length (a_path a))%nat)
    (List.map (normalizeAnchor headSha)
       (filter (fun a => match ra_path a with Some _ => true | None => false end)
          anchors)).

(* ===================================================================== *)
(** * Pointer derivation: [extractor.ts], lines 385-396 *)
(* ===================================================================== *)

(** [s.replace(/^\$\.?/, "")]. *)
Definition stripDollar (s : string) : string :=
  match s with
  | String "$" (String "." r) => r
  | String "$" r => r
  | _ => s
  end.

(** [s.replace(/\./g, "/")]. *)
Definition dotsToSlashes (s : string) : string :=
  map_string (fun c => if Ascii.eqb c "." then "/"%char else c) s.

(** The longest prefix of digits, and what follows it. *)
Fixpoint span_digits (s : string) : string * string :=
  match s with
  | String c r =>
      if isDigit c then let '(d, rest) := span_digits r in (String c d, rest)
      else (EmptyString, s)
  | EmptyString => (EmptyString, EmptyString)
  end.

(** [s.replace(/\[(\d+)\]/g, "/$1")]. *)
Fixpoint bracketsToSlashes_fuel (fuel : nat) (s : string) : string :=
  match fuel with
  | O => s
  | S f =>
      match s with
      | EmptyString => EmptyString
      | String c r =>
          if Ascii.eqb c "[" then
            match span_digits r with
            | (String d ds, String "]" rest) =>
                String "/" (String d ds ++ bracketsToSlashes_fuel f rest)
            | _ => String c (bracketsToSlashes_fuel f r)
            end
          else String c (bracketsToSlashes_fuel f r)
      end
  end.

Definition bracketsToSlashes (s : string) : string :=
  bracketsToSlashes_fuel (String.length s) s.

Definition derivePointer (path : string) : string :=
  let p := bracketsToSlashes (dotsToSlashes (stripDollar path)) in
  if startsWith p "/" then p else "/" ++ p.

(* ===================================================================== *)
(** * The extraction pass: [mergeFacts], [extractor.ts], lines 362-438 *)
(* ===================================================================== *)

Definition DETERMINISTIC_ONLY_PREFIXES : list string :=
  ["$.provenance.changelog"; "$.meta.createdAt"; "$.meta.lastUpdated"; "$.ai."].

Definition isDeterministicOnly (path : string) : bool :=
  existsb (fun prefix => startsWith path prefix) DETERMINISTIC_ONLY_PREFIXES.

(** [{ ...fact, repoSources: fact.repoSources.map(a => ({ ...a })) }]: a
    copy, equal to the fact as a value. *)
Definition copyFact (f : Fact) : Fact := f.

Definition baselineMap (baselineFacts : list Fact) : JsMap.t :=
  fold_left (fun m f => JsMap.set m (jsonPath f) (copyFact f)) baselineFacts [].

(** One iteration of the loop over the candidates. *)
Definition mergeCandidate (headSha : string) (m : JsMap.t (V := Fact))
    (candidate : RawFactPayload) : JsMap.t :=
  match r_jsonPath candidate with
  | None => m
  | Some path =>
      if negb (truthy path) then m
      else if isDeterministicOnly path then m
      else
        match JsMap.get m path with
        | None =>
            let pointer :=
              match r_jsonPointer candidate with
              | Some p => if truthy p then p else derivePointer path
              | None => derivePointer path
              end in
            if negb (truthy pointer) then m
            else
              let normalizedAnchors :=
                normalizeAnchors (orElse (r_repoSources candidate) []) headSha in
              match normalizedAnchors with
              | [] => m
              | _ =>
                  JsMap.set m path
                    {| jsonPath := path;
                       jsonPointer := Some pointer;
                       currentValue := r_currentValue candidate;
                       proposedValue := r_proposedValue candidate;
                       sourceKind := orElse (r_sourceKind candidate) extracted;
                       repoSources := normalizedAnchors;
                       confidence := normalizeConfidence (r_confidence candidate) c_0_75;
                       gate := orElse (r_gate candidate)
                                 (computeGate
                                    (normalizeConfidence (r_confidence candidate) c_0_75));
                       verifierNotes := r_verifierNotes candidate |}
              end
        | Some existing =>
            let normalizedAnchors :=
              normalizeAnchors (orElse (r_repoSources candidate) []) headSha in
            let mergedAnchors :=
              match normalizedAnchors with
              | [] => repoSources existing
              | _ => normalizedAnchors
              end in
            let confidence :=
              normalizeConfidence (r_confidence candidate) (confidence existing) in
            JsMap.set m path
              {| jsonPath := jsonPath existing;
                 jsonPointer :=
                   match r_jsonPointer candidate with
                   | Some p => Some p
                   | None => jsonPointer existing
                   end;
                 currentValue := currentValue existing;
                 proposedValue :=
                   nullish_value (r_proposedValue candidate) (proposedValue existing);
                 sourceKind := orElse (r_sourceKind candidate) (sourceKind existing);
                 repoSources := mergedAnchors;
                 confidence := confidence;
                 gate := orElse (r_gate candidate) (computeGate confidence);
                 verifierNotes :=
                   match r_verifierNotes candidate with
                   | Some n => Some n
                   | None => verifierNotes existing
                   end |}
        end
  end.

Section LocaleCompare.

(** [String.prototype.localeCompare] of the host, by its sign. *)
Variable localeCompare : string -> string -> comparison.

(** [(a, b) => a.jsonPath.localeCompare(b.jsonPath)]. *)
Definition byJsonPath (a b : Fact) : number :=
  number_of_comparison (localeCompare (jsonPath a) (jsonPath b)).

(** [mergeFacts(rawFacts, baselineFacts, headSha)]. *)
Definition mergeFacts (rawFacts : list RawFactPayload) (baselineFacts : list Fact)
    (headSha : string) : list Fact :=
  match rawFacts with
  | [] => baselineFacts
  | _ =>
      js_sort byJsonPath
        (JsMap.values
           (fold_left (mergeCandidate headSha) rawFacts (baselineMap baselineFacts)))
  end.

(* =================================================================== *)
(** ** The reasoning pass: [reconcileFacts], [reasoner.ts], lines 310-363 *)
(* =================================================================== *)

(** The anchor built from one element of [patch.repoSources]. *)
Definition reconcileAnchor (headSha : string) (existing : Fact)
    (anchor : RawAnchor) : Anchor :=
  let first := hd_error (repoSources existing) in
  let commit0 :=
    match ra_commit anchor with
    | Some c => c
    | None => match first with Some a => a_commit a | None => headSha end
    end in
  let commit := if SHA_REGEX_test commit0 then commit0 else headSha in
  let kind0 :=
    match ra_kind anchor with
    | Some k => Some k
    | None => match first with Some a => a_kind a | None => None end
    end in
  let kind :=
    match kind0 with
    | Some k => if includes_string VALID_KINDS k then k
                else kindFromPath (ra_path anchor)
    | None => kindFromPath (ra_path anchor)
    end in
  {| a_path :=
       match ra_path anchor with
       | Some q => q
       | None => match first with Some a => a_path a | None => "" end
       end;
     a_startLine :=
       match ra_startLine anchor with
       | Some n => n
       | None => match first with Some a => a_startLine a | None => c_1 end
       end;
     a_endLine :=
       match ra_endLine anchor with
       | Some n => n
       | None => match first with Some a => a_endLine a | None => c_1 end
       end;
     a_commit := commit;
     a_fingerprint := None;
     a_kind := Some kind |}.

(** One iteration of the loop over the patches. *)
Definition reconcilePatch (headSha : string) (m : JsMap.t (V := Fact))
    (patch : RawFactPayload) : JsMap.t :=
  match r_jsonPath patch with
  | None => m
  | Some path =>
      if negb (truthy path) then m
      else
        match JsMap.get m path with
        | None => m
        | Some existing =>
            let newAnchors :=
              match r_repoSources patch with
              | Some (a :: rest) =>
                  List.map (reconcileAnchor headSha existing) (a :: rest)
              | _ => repoSources existing
              end in
            JsMap.set m path
              {| jsonPath := jsonPath existing;
                 jsonPointer :=
                   match r_jsonPointer patch with
                   | Some p => Some p
                   | None => jsonPointer existing
                   end;
                 currentValue := currentValue existing;
                 proposedValue :=
                   nullish_value (r_proposedValue patch) (proposedValue existing);
                 sourceKind := sourceKind existing;
                 repoSources := newAnchors;
                 confidence :=
                   match r_confidence patch with
                   | Some c => c
                   | None => confidence existing
                   end;
                 gate := orElse (r_gate patch) (gate existing);
                 verifierNotes :=
                   match r_verifierNotes patch with
                   | Some n => Some n
                   | None => verifierNotes existing
                   end |}
        end
  end.

(** [reconcileFacts(baseFacts, patches, headSha)]. *)
Definition reconcileFacts (baseFacts : list Fact) (patches : list RawFactPayload)
    (headSha : string) : list Fact :=
  js_sort byJsonPath
    (JsMap.values (fold_left (reconcilePatch headSha) patches (baselineMap baseFacts))).

End LocaleCompare.

(* ===================================================================== *)
(** * JSON pointers *)
(* ===================================================================== *)

(** [s.split(sep)] for a one-character separator. *)
Fixpoint split_on (sep : ascii) (s : string) : list string :=
  match s with
  | EmptyString => [EmptyString]
  | String c r =>
      if Ascii.eqb c sep then EmptyString :: split_on sep r
      else
        match split_on sep r with
        | [] => [String c EmptyString]
        | h :: t => String c h :: t
        end
  end.

(** [s.replace(/~1/g, "/")]. *)
Fixpoint unescapeSlash (s : string) : string :=
  match s with
  | String "~" (String "1" r) => String "/" (unescapeSlash r)
  | String c r => String c (unescapeSlash r)
  | EmptyString => EmptyString
  end.

(** [s.replace(/~0/g, "~")]. *)
Fixpoint unescapeTilde (s : string) : string :=
  match s with
  | String "~" (String "0" r) => String "~" (unescapeTilde r)
  | String c r => String c (unescapeTilde r)
  | EmptyString => EmptyString
  end.

(** [pointer.split("/").slice(1).map(t => t.replace(/~1/g, "/").replace(/~0/g, "~"))]. *)
Definition pointerTokens (pointer : string) : list string :=
  List.map (fun t => unescapeTilde (unescapeSlash t)) (tl (split_on "/" pointer)).

(** The value of a string of decimal digits. *)
Fixpoint digits_value (s : string) (acc : nat) : nat :=
  match s with
  | EmptyString => acc
  | String c r => digits_value r (10 * acc + (nat_of_ascii c - 48))
  end.

(** A canonical array index: ["0"], or digits without a leading zero. *)
Definition arrayIndex (token : string) : option nat :=
  match token with
  | EmptyString => None
  | String "0" EmptyString => Some O
  | String "0" _ => None
  | _ => if forallb_string isDigit token then Some (digits_value token O) else None
  end.

Fixpoint lookup_prop (props : list (string * value)) (k : string) : option value :=
  match props with
  | [] => None
  | (k', v) :: r => if String.eqb k' k then Some v else lookup_prop r k
  end.

(** [cursor[token]] on a JSON value that is not [null]: an own property
    of an object, an element or the length of an array, a character or the
    length of a string; [undefined] otherwise. The members that objects,
    arrays and strings inherit from their prototypes are left out, and a
    string is one of ASCII text, whose characters are its code units. *)
Definition getProperty (cursor : value) (token : string) : optional value :=
  match cursor with
  | VObj props => lookup_prop props token
  | VArr items =>
      if String.eqb token "length"
      then Some (VNum (of_Z (Z.of_nat (List.length items))))
      else match arrayIndex token with
           | Some i => nth_error items i
           | None => None
           end
  | VStr s =>
      if String.eqb token "length"
      then Some (VNum (of_Z (Z.of_nat (String.length s))))
      else match arrayIndex token with
           | Some i => option_map (fun c => VStr (String c EmptyString)) (String.get i s)
           | None => None
           end
  | _ => None
  end.

(** [getValueAtPointer(target, pointer)] of the deterministic pipeline. *)
Fixpoint getValueAtTokens (cursor : optional value) (tokens : list string) : optional value :=
  match tokens with
  | [] => cursor
  | token :: rest =>
      match cursor with
      | None | Some VNull => None
      | Some c => getValueAtTokens (getProperty c token) rest
      end
  end.

Definition getValueAtPointer (target : value) (pointer : string) : optional value :=
  getValueAtTokens (Some target) (pointerTokens pointer).

(* ===================================================================== *)
(** * The deterministic baseline: [pipeline/deterministic.ts] *)
(* ===================================================================== *)

(** [Omit<Anchor, "commit">]. *)
Record DraftAnchor : Type := mkDraftAnchor {
  da_path : string;
  da_startLine : number;
  da_endLine : number;
  da_fingerprint : optional string;
  da_kind : optional string
}.

Record Component : Type := mkComponent {
  comp_name : string;
  comp_summary : string;
  comp_keyFiles : list string
}.

Record RepositoryInsights : Type := mkInsights {
  runId : string;
  headSha : string;
  useCase : string;
  intendedUse : string;
  nonGoals : list string;
  outOfScopeUse : list string;
  repositoryUrl : optional string;
  languages : list string;
  entrypoints : list string;
  components : list Component;
  dependencyHighlights : list string;
  testsPresent : bool;
  coverageHint : optional string;
  problemSummary : string;
  userPopulations : list string;
  dataFlow : list string;
  governancePolicies : list string;
  anchorMap : JsMap.t (V := list DraftAnchor)
}.

Record DraftFact : Type := mkDraft {
  d_jsonPath : string;
  d_jsonPointer : string;
  d_proposedValue : optional value;
  d_currentValue : optional value;
  d_anchors : optional (list DraftAnchor);
  d_confidence : number;
  d_sourceKind : SourceKind;
  d_gate : optional Gate;
  d_verifierNotes : optional string
}.

(** [toFact(draft, headSha)]. *)
Definition toFact (draft : DraftFact) (head : string) : Fact :=
  let g :=
    match d_gate draft with
    | Some g => g
    | None =>
        if geb (d_confidence draft) c_0_8 then OK
        else if geb (d_confidence draft) c_0_65 then Warn
        else Require
    end in
  {| jsonPath := d_jsonPath draft;
     jsonPointer := Some (d_jsonPointer draft);
     currentValue := d_currentValue draft;
     proposedValue := d_proposedValue draft;
     sourceKind := d_sourceKind draft;
     repoSources :=
       List.map (fun a => {| a_path := da_path a;
                             a_startLine := da_startLine a;
                             a_endLine := da_endLine a;
                             a_commit := head;
                             a_fingerprint := da_fingerprint a;
                             a_kind := da_kind a |})
                (orElse (d_anchors draft) []);
     confidence := d_confidence draft;
     gate := g;
     verifierNotes := d_verifierNotes draft |}.

(** The closure [addFact] of [buildFactsAndMutations], on the list of facts
    collected so far: a draft without anchors is not recorded. The write of
    the value to the copy of the card, [applyJsonPointer], is outside the
    model: it throws when it has to step through a member that is [null]
    or not an object, and the facts are those of a run in which it does
    not. *)
Definition addFact (head : string) (facts : list Fact) (fact : DraftFact) : list Fact :=
  match d_anchors fact with
  | None | Some [] => facts
  | Some (_ :: _) => facts ++ [toFact fact head]
  end.

Definition VStrings (l : list string) : value := VArr (List.map VStr l).

Definition VComponent (c : Component) : value :=
  VObj [("name", VStr (comp_name c)); ("summary", VStr (comp_summary c));
        ("keyFiles", VStrings (comp_keyFiles c))].

Definition c_0_05 : number := of_decimal 5 (-2).
Definition c_0_7 : number := of_decimal 7 (-1).
Definition c_0_85 : number := of_decimal 85 (-2).
Definition c_0_9 : number := of_decimal 9 (-1).
Definition c_0_95 : number := of_decimal 95 (-2).

Definition nonEmpty {A : Type} (l : list A) : bool :=
  match l with [] => false | _ => true end.

Definition truthyOpt (s : optional string) : bool :=
  match s with Some x => truthy x | None => false end.

Section DeterministicRules.
Variable baseline : value.
Variable context : RepositoryInsights.

Definition draft (path pointer : string) (v : value) (anchorKey : string)
    (c : number) : DraftFact :=
  {| d_jsonPath := path;
     d_jsonPointer := pointer;
     d_proposedValue := Some v;
     d_currentValue := getValueAtPointer baseline pointer;
     d_anchors := JsMap.get (anchorMap context) anchorKey;
     d_confidence := c;
     d_sourceKind := extracted;
     d_gate := None;
     d_verifierNotes := None |}.

(** A rule guarded by a condition contributes no draft when the
    condition fails. *)
Definition when (b : bool) (d : DraftFact) : list DraftFact :=
  if b then [d] else [].

Definition stakeholderAnchors : list DraftAnchor :=
  orElse (JsMap.get (anchorMap context) "README.md#stakeholders") []
  ++ orElse (JsMap.get (anchorMap context) "docs/stakeholders.yaml#titles") [].

(** The drafts handed to [addFact] by [buildFactsAndMutations],
    lines 58-238, in order. *)
Definition baselineDrafts : list DraftFact :=
  [draft "$.meta.title" "/meta/title"
     (VStr "ML System Card (GitHub-native, PR-first)") "README.md#title" c_0_95]
  ++ when (truthyOpt (repositoryUrl context))
       (draft "$.meta.links.repo" "/meta/links/repo"
          (VStr (orElse (repositoryUrl context) "")) "README.md#repo-link" c_0_9)
  ++ [draft "$.business.useCase" "/business/useCase"
        (VStr (useCase context)) "README.md#why" c_0_9;
      draft "$.business.intendedUse" "/business/intendedUse"
        (VStr (intendedUse context)) "README.md#scope" c_0_85]
  ++ when (nonEmpty (nonGoals context))
       (draft "$.business.nonGoals" "/business/nonGoals"
          (VStrings (nonGoals context)) "README.md#out-of-scope" c_0_85)
  ++ when (nonEmpty (outOfScopeUse context))
       (draft "$.business.outOfScopeUse" "/business/outOfScopeUse"
          (VStrings (outOfScopeUse context)) "README.md#out-of-scope" c_0_8)
  ++ when (nonEmpty (userPopulations context))
       {| d_jsonPath := "$.business.userPopulations";
          d_jsonPointer := "/business/userPopulations";
          d_proposedValue := Some (VStrings (userPopulations context));
          d_currentValue := getValueAtPointer baseline "/business/userPopulations";
          d_anchors :=
            if nonEmpty stakeholderAnchors then Some stakeholderAnchors else None;
          d_confidence := c_0_8;
          d_sourceKind := extracted;
          d_gate := None;
          d_verifierNotes := None |}
  ++ [draft "$.devInsight.codeOverview.languages" "/devInsight/codeOverview/languages"
        (VStrings (languages context)) "CODE#languages" c_0_9;
      draft "$.devInsight.codeOverview.entrypoints" "/devInsight/codeOverview/entrypoints"
        (VStrings (entrypoints context)) "CODE#entrypoints" c_0_85]
  ++ when (nonEmpty (components context))
       (draft "$.devInsight.codeOverview.components" "/devInsight/codeOverview/components"
          (VArr (List.map VComponent (components context))) "CODE#components" c_0_8)
  ++ when (nonEmpty (dependencyHighlights context))
       (draft "$.devInsight.architecture.depsSummary" "/devInsight/architecture/depsSummary"
          (VStrings (dependencyHighlights context)) "CODE#deps" c_0_85)
  ++ when (nonEmpty (dataFlow context))
       (draft "$.devInsight.architecture.dataFlow" "/devInsight/architecture/dataFlow"
          (VStrings (dataFlow context)) "README.md#workflow" c_0_75)
  ++ [draft "$.devInsight.qualitySignals.testsPresent" "/devInsight/qualitySignals/testsPresent"
        (VBool (testsPresent context)) "README.md#commands" c_0_8]
  ++ when (truthyOpt (coverageHint context))
       (draft "$.devInsight.qualitySignals.coverageHint" "/devInsight/qualitySignals/coverageHint"
          (VStr (orElse (coverageHint context) "")) "README.md#commands" c_0_75)
  ++ [draft "$.mlCore.problem" "/mlCore/problem"
        (VStr (problemSummary context)) "README.md#why" c_0_85]
  ++ when (nonEmpty (governancePolicies context))
       (draft "$.governance.policies" "/governance/policies"
          (VStrings (governancePolicies context)) "README.md#auto-merge" c_0_75).

(** [new Date().toISOString()] at the time of the run. *)
Variable now : string.
Variable changedFiles : list string.

(** [mutated.provenance?.changelog] when it is an array. No rule above
    writes below [/provenance], so the entries are those of the
    baseline. *)
Definition changelogOf (card : value) : list value :=
  match getValueAtPointer card "/provenance/changelog" with
  | Some (VArr items) => items
  | _ => []
  end.

(** The fact of [buildChangelogFacts], lines 304-361. *)
Definition buildChangelogFacts : list Fact :=
  match changedFiles with
  | [] => []
  | _ =>
      let n := List.length changedFiles in
      let entry :=
        VObj [("date", VStr now);
              ("summary",
               VStr ("ML System Card run " ++ runId context ++ " observed "
                     ++ nat_to_string n ++ " changed files"));
              ("files", VArr (List.map (fun p => VObj [("path", VStr p)]) changedFiles));
              ("runId", VStr (runId context));
              ("headSha", VStr (headSha context))] in
      let index := nat_to_string (List.length (changelogOf baseline)) in
      let c :=
        min c_0_95
          (add c_0_7 (mul (max zero (sub (of_Z 5) (of_Z (Z.of_nat n)))) c_0_05)) in
      let g := if geb c c_0_8 then OK else if geb c c_0_65 then Warn else Require in
      [{| jsonPath := "$.provenance.changelog[" ++ index ++ "]";
          jsonPointer := Some ("/provenance/changelog/" ++ index);
          currentValue :=
            getValueAtPointer baseline ("/provenance/changelog/" ++ index);
          proposedValue := Some entry;
          sourceKind := extracted;
          repoSources :=
            List.map (fun p => {| a_path := p; a_startLine := c_1; a_endLine := c_1;
                                  a_commit := headSha context;
                                  a_fingerprint := None; a_kind := None |})
                     changedFiles;
          confidence := c;
          gate := g;
          verifierNotes :=
            match g with Warn => Some "Review high-change volume" | _ => None end |}]
  end.

(** The [facts] of [buildFactsAndMutations], which are those of
    [runDeterministicPipeline]. *)
Definition buildFacts : list Fact :=
  fold_left (addFact (headSha context)) baselineDrafts [] ++ buildChangelogFacts.

End DeterministicRules.

(* ===================================================================== *)
(** * The verification pass: [verifier.ts] *)
(* ===================================================================== *)

Record VerificationItem : Type := mkVerification {
  v_jsonPath : string;
  v_valid : bool;
  v_comment : string;
  v_adjustedConfidence : optional number
}.

Record PayloadAnchor : Type := mkPayloadAnchor {
  pa_path : string;
  pa_lines : string;
  pa_anchorId : string
}.

Record PayloadItem : Type := mkPayloadItem {
  p_jsonPath : string;
  p_value : optional value;
  p_anchors : list PayloadAnchor
}.

Record Batch : Type := mkBatch {
  b_facts : list PayloadItem;
  b_snippets : JsMap.t (V := string)
}.

Record VerifierResult : Type := mkVerifierResult {
  vr_facts : list Fact;
  vr_verifications : list VerificationItem;
  (** The chunks submitted to the reasoning service, in order. *)
  vr_requests : list Batch
}.

(** [/\b(invalid|incorrect|hallucination|wrong)\b/i.test(comment)]. *)
Definition INVALID_KEYWORDS : list string :=
  ["invalid"; "incorrect"; "hallucination"; "wrong"].

(** The keyword stands at the head of [s] and a word boundary follows it. *)
Definition keywordHere (s kw : string) : bool :=
  String.prefix kw (map_string toLowerAscii s)
  && match String.get (String.length kw) s with
     | Some c => negb (isWordChar c)
     | None => true
     end.

Fixpoint keywordScan (prevIsWord : bool) (s : string) : bool :=
  (negb prevIsWord && existsb (keywordHere s) INVALID_KEYWORDS)
  || match s with
     | EmptyString => false
     | String c r => keywordScan (isWordChar c) r
     end.

Definition isCommentInvalid (comment : string) : bool := keywordScan false comment.

(** [estimateTokens(text)]: [Math.ceil(text.length / 2.5)]. *)
Definition estimateTokens (text : string) : nat :=
  Nat.div (2 * String.length text + 4) 5.

Definition MAX_ANCHORS_PER_FACT : nat := 3.
Definition MAX_BATCH_TOKENS : nat := 5000.
Definition SNIPPET_UNAVAILABLE : string := "(Snippet unavailable)".

(** The body of the callback of step 5 for a fact whose verification was
    found: [verifier.ts], lines 226-261. *)
Definition applyVerification (minConfidence : number) (fact : Fact)
    (verification : VerificationItem) : Fact :=
  let confidence' :=
    match v_adjustedConfidence verification with
    | Some adjusted =>
        if ltb adjusted (confidence fact) then adjusted else confidence fact
    | None => confidence fact
    end in
  let commentInvalid := isCommentInvalid (v_comment verification) in
  let isLowConfidence := ltb confidence' c_0_2 in
  let isInferred := SourceKind_eqb (sourceKind fact) inferred in
  let isValid :=
    (v_valid verification || (isInferred && negb commentInvalid))
    && negb commentInvalid && negb isLowConfidence in
  if isValid then
    {| jsonPath := jsonPath fact; jsonPointer := jsonPointer fact;
       currentValue := currentValue fact; proposedValue := proposedValue fact;
       sourceKind := sourceKind fact; repoSources := repoSources fact;
       confidence := confidence'; gate := gate fact;
       verifierNotes := verifierNotes fact |}
  else
    {| jsonPath := jsonPath fact; jsonPointer := jsonPointer fact;
       currentValue := currentValue fact; proposedValue := proposedValue fact;
       sourceKind := sourceKind fact; repoSources := repoSources fact;
       confidence := confidence';
       gate := if ltb confidence' minConfidence then Require else Warn;
       verifierNotes := Some (v_comment verification) |}.

(** [allVerifications.find(v => v.jsonPath === fact.jsonPath)] and the rest
    of the callback. *)
Definition verifyFact (minConfidence : number) (allVerifications : list VerificationItem)
    (fact : Fact) : Fact :=
  match find (fun v => String.eqb (v_jsonPath v) (jsonPath fact)) allVerifications with
  | None => fact
  | Some verification => applyVerification minConfidence fact verification
  end.

Section VerifierPass.

(** [String(n)] for a Number, as a template literal renders it. *)
Variable numberToString : number -> string.

(** The record returned by [collectSnippets]: the text read from the
    repository for an anchor id, when the file could be read. *)
Variable snippets : string -> optional string.

(** [JSON.stringify(item)]. *)
Variable stringifyItem : PayloadItem -> string.

(** The reasoning service: the [verifications] array parsed from the
    reply to the [i]-th chunk, empty when the reply does not parse. *)
Variable invokeChatCompletion : nat -> Batch -> list VerificationItem.

(** [context.runtime.sampling.retryPolicy.minConfidence]. *)
Variable minConfidence : number.

Definition getAnchorId (a : Anchor) : string :=
  a_path a ++ ":" ++ numberToString (a_startLine a) ++ "-"
  ++ numberToString (a_endLine a).

(** [snippets[id] && snippets[id] !== "(Snippet unavailable)"]. *)
Definition snippetAvailable (a : Anchor) : bool :=
  match snippets (getAnchorId a) with
  | Some text => truthy text && negb (String.eqb text SNIPPET_UNAVAILABLE)
  | None => false
  end.

(** Step 2, lines 63-92: the facts sent on, and the verifications
    produced locally. *)
Fixpoint prevalidate (factsToVerify : list Fact) : list Fact * list VerificationItem :=
  match factsToVerify with
  | [] => ([], [])
  | fact :: rest =>
      let '(withSnippets, pre) := prevalidate rest in
      let validAnchors := filter snippetAvailable (repoSources fact) in
      match validAnchors with
      | _ :: _ =>
          if (MAX_ANCHORS_PER_FACT <? List.length validAnchors)%nat then
            ({| jsonPath := jsonPath fact; jsonPointer := jsonPointer fact;
                currentValue := currentValue fact;
                proposedValue := proposedValue fact;
                sourceKind := sourceKind fact;
                repoSources := firstn MAX_ANCHORS_PER_FACT validAnchors;
                confidence := confidence fact; gate := gate fact;
                verifierNotes := verifierNotes fact |} :: withSnippets, pre)
          else (fact :: withSnippets, pre)
      | [] =>
          (withSnippets,
           {| v_jsonPath := jsonPath fact;
              v_valid := false;
              v_comment := "Source snippet unavailable or file not found.";
              v_adjustedConfidence := Some c_0_5 |} :: pre)
      end
  end.

Definition toPayload (f : Fact) : PayloadItem :=
  {| p_jsonPath := jsonPath f;
     p_value := proposedValue f;
     p_anchors :=
       List.map (fun a => {| pa_path := a_path a;
                             pa_lines := numberToString (a_startLine a) ++ "-"
                                         ++ numberToString (a_endLine a);
                             pa_anchorId := getAnchorId a |})
                (repoSources f) |}.

(** The state of the batching loop, lines 120-156. *)
Record BatchState : Type := mkBatchState {
  batches : list Batch;
  currentBatchFacts : list PayloadItem;
  currentBatchSnippets : JsMap.t (V := string);
  currentTokens : nat
}.

(** The inner loop over the anchors of one item. *)
Definition collectNewSnippets (current : JsMap.t (V := string))
    (anchors : list PayloadAnchor) (itemTokens : nat) : JsMap.t (V := string) * nat :=
  fold_left
    (fun (acc : JsMap.t (V := string) * nat) anchor =>
       let '(newSnippets, tokens) := acc in
       if truthyOpt (JsMap.get current (pa_anchorId anchor)) then acc
       else
         let snippetContent := orElse (snippets (pa_anchorId anchor)) SNIPPET_UNAVAILABLE in
         (JsMap.set newSnippets (pa_anchorId anchor) snippetContent,
          (tokens + estimateTokens snippetContent)%nat))
    anchors ([], itemTokens).

(** [Object.assign(target, source)]. *)
Definition assign (target source : JsMap.t (V := string)) : JsMap.t (V := string) :=
  fold_left (fun m kv => JsMap.set m (fst kv) (snd kv)) source target.

Definition batchStep (st : BatchState) (item : PayloadItem) : BatchState :=
  let '(newSnippets, itemTokens) :=
    collectNewSnippets (currentBatchSnippets st) (p_anchors item)
      (estimateTokens (stringifyItem item)) in
  let st' :=
    if (MAX_BATCH_TOKENS <? currentTokens st + itemTokens)%nat
       && nonEmpty (currentBatchFacts st)
    then {| batches := batches st ++ [{| b_facts := currentBatchFacts st;
                                          b_snippets := currentBatchSnippets st |}];
            currentBatchFacts := [];
            currentBatchSnippets := [];
            currentTokens := O |}
    else st in
  {| batches := batches st';
     currentBatchFacts := currentBatchFacts st' ++ [item];
     currentBatchSnippets := assign (currentBatchSnippets st') newSnippets;
     currentTokens := (currentTokens st' + itemTokens)%nat |}.

Definition makeBatches (factsPayload : list PayloadItem) : list Batch :=
  let st :=
    fold_left batchStep factsPayload
      {| batches := []; currentBatchFacts := []; currentBatchSnippets := [];
         currentTokens := O |} in
  if nonEmpty (currentBatchFacts st)
  then batches st ++ [{| b_facts := currentBatchFacts st;
                         b_snippets := currentBatchSnippets st |}]
  else batches st.

(** The sequential submission of the chunks, lines 168-213. *)
Fixpoint submit (i : nat) (chunks : list Batch) : list VerificationItem :=
  match chunks with
  | [] => []
  | chunk :: rest => (invokeChatCompletion i chunk ++ submit (S i) rest)%list
  end.

(** [runVerifierPass(context, reasonerResult)], by the facts, the
    verifications and the requests made. *)
Definition runVerifierPass (reasonerFacts : list Fact) : VerifierResult :=
  let factsToVerify := filter (fun f => nonEmpty (repoSources f)) reasonerFacts in
  match factsToVerify with
  | [] => {| vr_facts := reasonerFacts; vr_verifications := []; vr_requests := [] |}
  | _ =>
      let '(factsWithSnippets, preInvalidatedVerifications) := prevalidate factsToVerify in
      let chunks := makeBatches (List.map toPayload factsWithSnippets) in
      let allVerifications := (preInvalidatedVerifications ++ submit O chunks)%list in
      {| vr_facts := List.map (verifyFact minConfidence allVerifications) reasonerFacts;
         vr_verifications := allVerifications;
         vr_requests := chunks |}
  end.

End VerifierPass.

(* ===================================================================== *)
(** * Exceptions *)
(* ===================================================================== *)

(** [Failure] is an [Error] that the sources throw themselves. *)
Inductive JsError : Type := RangeError | TypeError | Failure.

(** The outcome of an evaluation that may throw. *)
Inductive result (A : Type) : Type :=
| Ok (a : A)
| Throw (e : JsError).

Arguments Ok {A} a.
Arguments Throw {A} e.

Definition bind {A B : Type} (r : result A) (k : A -> result B) : result B :=
  match r with
  | Ok a => k a
  | Throw e => Throw e
  end.

Notation "x <- c1 ;; c2" := (bind c1 (fun x => c2))
  (at level 61, c1 at next level, right associativity).

Section MapResult.
Context {A B : Type}.

(** The callback, given the index of the element. *)
Variable f : nat -> A -> result B.

(** [array.map(f)] for a callback that may throw, the elements taken in
    order with their index. *)
Fixpoint mapi_result (i : nat) (l : list A) : result (list B) :=
  match l with
  | [] => Ok []
  | x :: t =>
      y <- f i x ;;
      r <- mapi_result (S i) t ;;
      Ok (y :: r)
  end.

End MapResult.

Section MapEntries.
Context {A B : Type}.

(** The callback, given the key of the entry. *)
Variable f : string -> A -> result B.

(** [Object.entries(o).map(([key, value]) => [key, f(key, value)])]. *)
Fixpoint map_entries_result (l : list (string * A)) : result (list (string * B)) :=
  match l with
  | [] => Ok []
  | (key, x) :: t =>
      y <- f key x ;;
      r <- map_entries_result t ;;
      Ok ((key, y) :: r)
  end.

End MapEntries.

(* ===================================================================== *)
(** * [Date]: ECMA-262, 21.4 *)
(* ===================================================================== *)

Module JsDate.

Definition msPerDay : Z := 86400000.
Definition maxTime : Z := 8640000000000000.

(** [TimeClip]: [None] stands for [NaN]. *)
Definition timeClip (t : Z) : option Z :=
  if Z.abs t <=? maxTime then Some t else None.

Definition isLeapYear (y : Z) : bool :=
  ((y mod 4 =? 0) && negb (y mod 100 =? 0)) || (y mod 400 =? 0).

Definition daysInMonth (y m : Z) : Z :=
  if m =? 2 then (if isLeapYear y then 29 else 28)
  else if (m =? 4) || (m =? 6) || (m =? 9) || (m =? 11) then 30
  else 31.

(** The day number of the first millisecond of a day of the proleptic
    Gregorian calendar ([MakeDay]), the month counted from 1. *)
Definition daysFromCivil (y m d : Z) : Z :=
  let y' := if m <=? 2 then y - 1 else y in
  let era := y' / 400 in
  let yoe := y' - era * 400 in
  let mp := if 2 <? m then m - 3 else m + 9 in
  let doy := (153 * mp + 2) / 5 + d - 1 in
  let doe := yoe * 365 + yoe / 4 - yoe / 100 + doy in
  era * 146097 + doe - 719468.

(** [YearFromTime], [MonthFromTime] (from 1) and [DateFromTime] of a day
    number. *)
Definition civilFromDays (days : Z) : Z * Z * Z :=
  let z := days + 719468 in
  let era := z / 146097 in
  let doe := z - era * 146097 in
  let yoe := (doe - doe / 1460 + doe / 36524 - doe / 146096) / 365 in
  let doy := doe - (365 * yoe + yoe / 4 - yoe / 100) in
  let mp := (5 * doy + 2) / 153 in
  let d := doy - (153 * mp + 2) / 5 + 1 in
  let m := if mp <? 10 then mp + 3 else mp - 9 in
  let y := yoe + era * 400 + (if m <=? 2 then 1 else 0) in
  (y, m, d).

(** ** The date-time string format, 21.4.1.32 *)

Record Fields : Type := mkFields {
  f_year : Z;
  f_month : Z;
  f_day : Z;
  f_hasTime : bool;
  f_hour : Z;
  f_minute : Z;
  f_second : Z;
  f_ms : Z;
  (** The UTC offset in minutes, [None] when the string has none. *)
  f_offset : option Z
}.

Definition digitValue (c : ascii) : Z := Z.of_nat (nat_of_ascii c) - 48.

(** Exactly [n] digits at the head of [s]: their value and the rest. *)
Fixpoint takeDigits (n : nat) (acc : Z) (s : string) : option (Z * string) :=
  match n with
  | O => Some (acc, s)
  | S k =>
      match s with
      | String c r =>
          if isDigit c then takeDigits k (10 * acc + digitValue c) r else None
      | EmptyString => None
      end
  end.

(** The character [c] at the head of [s]. *)
Definition expect (c : ascii) (s : string) : option string :=
  match s with
  | String c' r => if Ascii.eqb c c' then Some r else None
  | EmptyString => None
  end.

(** [Z], [+HH:mm], [-HH:mm] or nothing, up to the end of the string. *)
Definition parseOffset (s : string) : option (option Z) :=
  match s with
  | EmptyString => Some None
  | String "Z" EmptyString => Some (Some 0)
  | String sign r =>
      if Ascii.eqb sign "+" || Ascii.eqb sign "-" then
        match takeDigits 2 0 r with
        | Some (hh, r1) =>
            match expect ":" r1 with
            | Some r2 =>
                match takeDigits 2 0 r2 with
                | Some (mm, EmptyString) =>
                    if (hh <=? 23) && (mm <=? 59) then
                      Some (Some (if Ascii.eqb sign "-" then - (hh * 60 + mm)
                                  else hh * 60 + mm))
                    else None
                | _ => None
                end
            | None => None
            end
        | None => None
        end
      else None
  end.

(** [HH:mm], [HH:mm:ss] or [HH:mm:ss.sss], then the offset. *)
Definition parseTime (y m d : Z) (s : string) : option Fields :=
  match takeDigits 2 0 s with
  | Some (hh, r1) =>
      match expect ":" r1 with
      | Some r2 =>
          match takeDigits 2 0 r2 with
          | Some (mm, r3) =>
              let finish (ss ms : Z) (rest : string) :=
                match parseOffset rest with
                | Some off => Some (mkFields y m d true hh mm ss ms off)
                | None => None
                end in
              match expect ":" r3 with
              | Some r4 =>
                  match takeDigits 2 0 r4 with
                  | Some (ss, r5) =>
                      match expect "." r5 with
                      | Some r6 =>
                          match takeDigits 3 0 r6 with
                          | Some (ms, r7) => finish ss ms r7
                          | None => None
                          end
                      | None => finish ss 0 r5
                      end
                  | None => None
                  end
              | None => finish 0 0 r3
              end
          | None => None
          end
      | None => None
      end
  | None => None
  end.

(** After the year: nothing, [-MM], [-MM-DD], each a date-only form, or
    one of them followed by [T] and a time. *)
Definition parseAfterYear (y : Z) (s : string) : option Fields :=
  let dateOnly (m d : Z) (rest : string) :=
    match rest with
    | EmptyString => Some (mkFields y m d false 0 0 0 0 None)
    | String "T" r => parseTime y m d r
    | _ => None
    end in
  match expect "-" s with
  | Some r1 =>
      match takeDigits 2 0 r1 with
      | Some (m, r2) =>
          match expect "-" r2 with
          | Some r3 =>
              match takeDigits 2 0 r3 with
              | Some (d, r4) => dateOnly m d r4
              | None => None
              end
          | None => dateOnly m 1 r2
          end
      | None => None
      end
  | None => dateOnly 1 1 s
  end.

(** The fields of a string that has the format; [None] when it has not. *)
Definition parseFormat (s : string) : option Fields :=
  match s with
  | String sign r =>
      if Ascii.eqb sign "+" || Ascii.eqb sign "-" then
        match takeDigits 6 0 r with
        | Some (y, rest) =>
            if Ascii.eqb sign "-" then
              (if y =? 0 then None else parseAfterYear (- y) rest)
            else parseAfterYear y rest
        | None => None
        end
      else
        match takeDigits 4 0 s with
        | Some (y, rest) => parseAfterYear y rest
        | None => None
        end
  | EmptyString => None
  end.

(** The element values are within the bounds of the format. *)
Definition inBounds (f : Fields) : bool :=
  (1 <=? f_month f) && (f_month f <=? 12)
  && (1 <=? f_day f) && (f_day f <=? 31)
  && (f_hour f <=? 24) && (f_minute f <=? 59) && (f_second f <=? 59)
  && ((f_hour f <? 24)
      || ((f_minute f =? 0) && (f_second f =? 0) && (f_ms f =? 0))).

(** The day exists in its month. *)
Definition dayExists (f : Fields) : bool :=
  f_day f <=? daysInMonth (f_year f) (f_month f).

Definition timeOfFields (f : Fields) : Z :=
  daysFromCivil (f_year f) (f_month f) (f_day f) * msPerDay
  + f_hour f * 3600000 + f_minute f * 60000 + f_second f * 1000 + f_ms f.

Section Host.

(** What the format leaves to the implementation: the heuristics applied
    to a string that has not the format, or that names a day its month has
    not ([None] is [NaN]); and the offset of local time, in milliseconds,
    at a local time value. *)
Variable fallbackParse : string -> option Z.
Variable localTZA : Z -> Z.

(** [Date.parse(s)]; [None] is [NaN]. A date-only form is UTC; a date-time
    form without offset is local time. *)
Definition parse (s : string) : option Z :=
  match parseFormat s with
  | None => fallbackParse s
  | Some f =>
      if negb (inBounds f) then None
      else if negb (dayExists f) then fallbackParse s
      else
        let t := timeOfFields f in
        match f_offset f with
        | Some minutes => timeClip (t - minutes * 60000)
        | None => if f_hasTime f then timeClip (t - localTZA t) else timeClip t
        end
  end.

End Host.

(** ** [Date.prototype.toISOString] *)

(** The last [width] decimal digits of [n], most significant first. *)
Fixpoint pad (width : nat) (n : Z) (acc : string) : string :=
  match width with
  | O => acc
  | S w => pad w (n / 10) (String (ascii_of_nat (Z.to_nat (48 + n mod 10))) acc)
  end.

Definition yearString (y : Z) : string :=
  if (0 <=? y) && (y <=? 9999) then pad 4 y ""
  else if y <? 0 then String "-" (pad 6 (- y) "")
  else String "+" (pad 6 y "").

Definition toISOString (t : Z) : string :=
  let days := t / msPerDay in
  let r := t mod msPerDay in
  let '(y, m, d) := civilFromDays days in
  yearString y ++ "-" ++ pad 2 m "" ++ "-" ++ pad 2 d ""
  ++ "T" ++ pad 2 (r / 3600000) "" ++ ":" ++ pad 2 ((r / 60000) mod 60) ""
  ++ ":" ++ pad 2 ((r / 1000) mod 60) "" ++ "." ++ pad 3 (r mod 1000) "" ++ "Z".

End JsDate.

(* ===================================================================== *)
(** * The host *)
(* ===================================================================== *)

(** What the sources take from the JavaScript engine and its locale. *)
Record Host : Type := mkHost {
  (** [a.localeCompare(b)], by its sign. *)
  h_localeCompare : string -> string -> comparison;
  (** [a.localeCompare(b, undefined, { sensitivity: "base" })]. *)
  h_localeCompareBase : string -> string -> comparison;
  (** [String(n)] for a Number. *)
  h_numberToString : number -> string;
  (** [Number(s)] for a String. *)
  h_stringToNumber : string -> number;
  (** [String(f)] for the built-in function [f] of the given name. *)
  h_functionToString : string -> string;
  (** [Date.parse] outside the date-time string format. *)
  h_fallbackParse : string -> option Z;
  (** The offset of local time at a local time value, in milliseconds. *)
  h_localTZA : Z -> Z;
  (** [[...items].sort(Object.prototype[name])], for a property that a
      plain object inherits. *)
  h_sortWithInherited : string -> list value -> result (list value)
}.

Definition Date_parse (h : Host) (s : string) : option Z :=
  JsDate.parse (h_fallbackParse h) (h_localTZA h) s.

(** [Date.parse(s)] as a Number. *)
Definition Date_parse_number (h : Host) (s : string) : number :=
  match Date_parse h s with
  | Some t => of_Z t
  | None => NaN
  end.

(** [new Date(s).toISOString()], a [RangeError] on an invalid date. *)
Definition newDate_toISOString (h : Host) (s : string) : result string :=
  match Date_parse h s with
  | Some t => Ok (JsDate.toISOString t)
  | None => Throw RangeError
  end.

(* ===================================================================== *)
(** * Sorting with a comparator that may throw *)
(* ===================================================================== *)

Section SortingResult.
Context {A : Type}.

(** [comparefn(a, b)]. *)
Variable comparefn : A -> A -> result number.

(** [comparefn(a, b) < 0], where [NaN] counts as [+0]. *)
Definition sortsBefore (a b : A) : result bool :=
  v <- comparefn a b ;; Ok (ltb v zero).

Fixpoint insert_result (x : A) (l : list A) : result (list A) :=
  match l with
  | [] => Ok [x]
  | y :: t =>
      b <- sortsBefore y x ;;
      if b then (r <- insert_result x t ;; Ok (y :: r)) else Ok (x :: y :: t)
  end.

(** [[...l].sort(comparefn)]: the stable sort, the exception of the
    comparator when it throws. *)
Fixpoint sort_result (l : list A) : result (list A) :=
  match l with
  | [] => Ok []
  | x :: t => r <- sort_result t ;; insert_result x r
  end.

End SortingResult.

(* ===================================================================== *)
(** * Objects *)
(* ===================================================================== *)

(** The numeric value of a decimal string. *)
Fixpoint digitsN (s : string) (acc : N) : N :=
  match s with
  | EmptyString => acc
  | String c r => digitsN r (10 * acc + (N.of_nat (nat_of_ascii c) - 48))%N
  end.

(** An array index among property keys: a canonical numeric string below
    [2^32 - 1]. *)
Definition propertyIndex (key : string) : option N :=
  match key with
  | EmptyString => None
  | String "0" EmptyString => Some 0%N
  | String "0" _ => None
  | _ =>
      if forallb_string isDigit key && (String.length key <=? 10)%nat then
        let n := digitsN key 0%N in
        if (n <? 4294967295)%N then Some n else None
      else None
  end.

(** The place of a new property among the own properties: an array index
    goes before the first property that is not a smaller array index; any
    other key goes last. *)
Fixpoint insertProperty (props : list (string * value)) (k : string) (v : value)
  : list (string * value) :=
  match propertyIndex k with
  | None => (props ++ [(k, v)])%list
  | Some n =>
      match props with
      | [] => [(k, v)]
      | (k', v') :: r =>
          match propertyIndex k' with
          | Some n' =>
              if (n' <? n)%N then (k', v') :: insertProperty r k v
              else (k, v) :: (k', v') :: r
          | None => (k, v) :: (k', v') :: r
          end
      end
  end.

Fixpoint hasProperty (props : list (string * value)) (k : string) : bool :=
  match props with
  | [] => false
  | (k', _) :: r => String.eqb k' k || hasProperty r k
  end.

Fixpoint replaceProperty (props : list (string * value)) (k : string) (v : value)
  : list (string * value) :=
  match props with
  | [] => []
  | (k', v') :: r =>
      if String.eqb k' k then (k', v) :: r else (k', v') :: replaceProperty r k v
  end.

(** [obj[k] = v] on the own properties of a plain object. *)
Definition setProperty (props : list (string * value)) (k : string) (v : value)
  : list (string * value) :=
  if hasProperty props k then replaceProperty props k v else insertProperty props k v.

(** [Object.fromEntries(entries)]. *)
Definition fromEntries (entries : list (string * value)) : value :=
  VObj (fold_left (fun props kv => setProperty props (fst kv) (snd kv)) entries []).

(** The properties that a plain object inherits from [Object.prototype]. *)
Definition OBJECT_PROTOTYPE_KEYS : list string :=
  ["constructor"; "__defineGetter__"; "__defineSetter__"; "hasOwnProperty";
   "__lookupGetter__"; "__lookupSetter__"; "isPrototypeOf";
   "propertyIsEnumerable"; "toString"; "valueOf"; "__proto__"; "toLocaleString"].

(* ===================================================================== *)
(** * Conversions *)
(* ===================================================================== *)

(** [String(v)] for a JSON value; an element [null] of an array is rendered
    as the empty string by [join]. *)
Fixpoint toStringValue (h : Host) (v : value) : string :=
  match v with
  | VNull => "null"
  | VBool true => "true"
  | VBool false => "false"
  | VNum n => h_numberToString h n
  | VStr s => s
  | VArr items =>
      String.concat ","
        (List.map (fun x => match x with VNull => "" | _ => toStringValue h x end) items)
  | VObj _ => "[object Object]"
  end.

(** [Number(v)] for a JSON value other than [null]. *)
Definition toNumberValue (h : Host) (v : value) : number :=
  match v with
  | VNull => zero
  | VBool true => c_1
  | VBool false => zero
  | VNum n => n
  | VStr s => h_stringToNumber h s
  | VArr _ => h_stringToNumber h (toStringValue h v)
  | VObj _ => NaN
  end.

(** What a property access can yield on a JSON value: nothing, a JSON
    value, or a built-in method. *)
Inductive Accessed : Type :=
| AUndefined
| AValue (v : value)
| ABuiltin (name : string).

(** [v?.key] for a key that is neither an index nor ["length"]: the own
    property of an object; the method [slice] of an array or a string. *)
Definition optionalAccess (v : value) (key : string) : Accessed :=
  match v with
  | VObj props =>
      match lookup_prop props key with
      | Some x => AValue x
      | None => AUndefined
      end
  | VArr _ | VStr _ => if String.eqb key "slice" then ABuiltin "slice" else AUndefined
  | _ => AUndefined
  end.

(* ===================================================================== *)
(** * The comparators of [lib/card/deterministic.ts] *)
(* ===================================================================== *)

Module Lib.

(** [compareNumber(a, b)]. *)
Definition compareNumber (a b : number) : number := sub a b.

(** [compareString(a, b)]. *)
Definition compareString (h : Host) (a b : string) : number :=
  number_of_comparison (h_localeCompareBase h a b).

(** [getNumber(value, key)]. *)
Definition getNumber (v : value) (key : string) : number :=
  match optionalAccess v key with
  | AValue (VNum n) => n
  | _ => NEGATIVE_INFINITY
  end.

(** [getString(value, key)]. *)
Definition getString (v : value) (key : string) : string :=
  match optionalAccess v key with
  | AValue (VStr s) => s
  | _ => ""
  end.

(** [(left as any)[key]]: a [TypeError] on [null]. *)
Definition access (v : value) (key : string) : result Accessed :=
  match v with
  | VNull => Throw TypeError
  | _ => Ok (optionalAccess v key)
  end.

(** [String(a ?? "")]. *)
Definition stringOrEmpty (h : Host) (a : Accessed) : string :=
  match a with
  | AUndefined | AValue VNull => ""
  | AValue v => toStringValue h v
  | ABuiltin name => h_functionToString h name
  end.

(** [compareUnknown(a, b)]. *)
Definition compareUnknown (h : Host) (a b : Accessed) : number :=
  match a, b with
  | AValue (VNum x), AValue (VNum y) => compareNumber x y
  | _, _ => compareString h (stringOrEmpty h a) (stringOrEmpty h b)
  end.

(** [parseDateComparator(value)]. *)
Definition parseDateComparator (h : Host) (a : Accessed) : number :=
  match a with
  | AValue (VStr s) =>
      match Date_parse h s with
      | Some t => of_Z t
      | None => NEGATIVE_INFINITY
      end
  | _ => NEGATIVE_INFINITY
  end.

(** [compareBy([key], "asc")]. *)
Definition compareBy (h : Host) (key : string) (left right : value) : result number :=
  l <- access left key ;;
  r <- access right key ;;
  let comparison := compareUnknown h l r in
  if negb (eqb comparison zero) then Ok comparison else Ok zero.

(** [compareBy([key], "asc", parseDateComparator)]. *)
Definition compareByDate (h : Host) (key : string) (left right : value) : result number :=
  l <- access left key ;;
  r <- access right key ;;
  let comparison :=
    compareNumber (parseDateComparator h l) (parseDateComparator h r) in
  if negb (eqb comparison zero) then Ok comparison else Ok zero.

(** [(a, b) => compareString(getString(a, key), getString(b, key))]. *)
Definition byString (h : Host) (key : string) (a b : value) : number :=
  compareString h (getString a key) (getString b key).

(** The comparator with a second key. *)
Definition byTwoStrings (h : Host) (k1 k2 : string) (a b : value) : number :=
  let first := byString h k1 a b in
  if negb (eqb first zero) then first else byString h k2 a b.

(** The comparator of ["governance.riskRegister"]. *)
Definition riskRegister (h : Host) (a b : value) : number :=
  let likelihoodOrder :=
    compareNumber (getNumber b "likelihood") (getNumber a "likelihood") in
  if negb (eqb likelihoodOrder zero) then likelihoodOrder
  else
    let impactOrder := compareNumber (getNumber b "impact") (getNumber a "impact") in
    if negb (eqb impactOrder zero) then impactOrder
    else compareString h (getString a "item") (getString b "item").

(** [ARRAY_SORTERS]. *)
Definition ARRAY_SORTERS (h : Host)
  : list (string * (value -> value -> result number)) :=
  [("business.kpis", compareBy h "name");
   ("governance.riskRegister", fun a b => Ok (riskRegister h a b));
   ("governance.signOffs", compareByDate h "timestamp");
   ("mlCore.metrics", fun a b => Ok (byTwoStrings h "slice" "metric" a b));
   ("mlCore.qualities",
    fun a b => Ok (byTwoStrings h "category" "evaluationProtocol" a b));
   ("mlCore.failureModes", fun a b => Ok (byString h "name" a b));
   ("provenance.changelog", compareByDate h "date");
   ("integration.operationalQualities", fun a b => Ok (byString h "name" a b));
   ("integration.operationalQualities.targets",
    fun a b => Ok (byString h "label" a b));
   ("integration.operationalQualities.measures",
    fun a b => Ok (byString h "label" a b));
   ("ai.fieldMeta", fun a b => Ok (byString h "path" a b))].

End Lib.

(* ===================================================================== *)
(** * The comparators of [scripts/src/card/deterministic.ts] *)
(* ===================================================================== *)

Module Scripts.

(** [String(left ?? "")]. *)
Definition stringOrEmpty (h : Host) (a : Accessed) : string :=
  match a with
  | AUndefined | AValue VNull => ""
  | AValue v => toStringValue h v
  | ABuiltin name => h_functionToString h name
  end.

(** [compareString(left, right)]. *)
Definition compareString (h : Host) (left right : Accessed) : number :=
  number_of_comparison
    (h_localeCompareBase h (stringOrEmpty h left) (stringOrEmpty h right)).

(** [Number(left ?? Number.NEGATIVE_INFINITY)]. *)
Definition numberOrNegInf (h : Host) (a : Accessed) : number :=
  match a with
  | AUndefined | AValue VNull => NEGATIVE_INFINITY
  | AValue v => toNumberValue h v
  | ABuiltin _ => NaN
  end.

(** [compareNumber(left, right)]. *)
Definition compareNumber (h : Host) (left right : Accessed) : number :=
  sub (numberOrNegInf h left) (numberOrNegInf h right).

(** [compareDate(left, right)]. *)
Definition compareDate (h : Host) (left right : Accessed) : number :=
  let l := Date_parse_number h (stringOrEmpty h left) in
  let r := Date_parse_number h (stringOrEmpty h right) in
  sub (if isNaN l then NEGATIVE_INFINITY else l)
      (if isNaN r then NEGATIVE_INFINITY else r).

(** [x || y] on Numbers: [y] when [x] is [0] or [NaN]. *)
Definition orElseNumber (x y : number) : number :=
  if eqb x zero || isNaN x then y else x.

Definition byString (h : Host) (key : string) (a b : value) : number :=
  compareString h (optionalAccess a key) (optionalAccess b key).

Definition byDate (h : Host) (key : string) (a b : value) : number :=
  compareDate h (optionalAccess a key) (optionalAccess b key).

(** The comparator of ["governance.riskRegister"]. *)
Definition riskRegister (h : Host) (a b : value) : number :=
  orElseNumber
    (compareNumber h (optionalAccess b "likelihood") (optionalAccess a "likelihood"))
    (orElseNumber
       (compareNumber h (optionalAccess b "impact") (optionalAccess a "impact"))
       (byString h "item" a b)).

(** [arraySorters]. *)
Definition arraySorters (h : Host)
  : list (string * (value -> value -> result number)) :=
  [("ai.fieldMeta", fun a b => Ok (byString h "path" a b));
   ("business.kpis", fun a b => Ok (byString h "name" a b));
   ("governance.riskRegister", fun a b => Ok (riskRegister h a b));
   ("governance.signOffs", fun a b => Ok (byDate h "timestamp" a b));
   ("integration.operationalQualities", fun a b => Ok (byString h "name" a b));
   ("integration.operationalQualities.targets",
    fun a b => Ok (byString h "label" a b));
   ("integration.operationalQualities.measures",
    fun a b => Ok (byString h "label" a b));
   ("mlCore.failureModes", fun a b => Ok (byString h "name" a b));
   ("mlCore.metrics",
    fun a b => Ok (orElseNumber (byString h "slice" a b) (byString h "metric" a b)));
   ("mlCore.qualities",
    fun a b => Ok (orElseNumber (byString h "category" a b)
                                (byString h "evaluationProtocol" a b)));
   ("provenance.changelog", fun a b => Ok (byDate h "date" a b))].

End Scripts.

(* ===================================================================== *)
(** * The two canonicalizers *)
(* ===================================================================== *)

(** The outcome of [table[pathKey]] on a table written as an object
    literal: its own comparator, a property inherited from
    [Object.prototype], or [undefined]. *)
Inductive SorterLookup : Type :=
| OwnSorter (comparefn : value -> value -> result number)
| InheritedSorter (name : string)
| NoSorter.

Definition lookupSorter (table : list (string * (value -> value -> result number)))
    (pathKey : string) : SorterLookup :=
  match JsMap.get table pathKey with
  | Some comparefn => OwnSorter comparefn
  | None =>
      if includes_string OBJECT_PROTOTYPE_KEYS pathKey then InheritedSorter pathKey
      else NoSorter
  end.

(** [if (sorter) return [...normalized].sort(sorter); return normalized]. *)
Definition sortNormalized (h : Host) (lookup : SorterLookup) (normalized : list value)
  : result value :=
  match lookup with
  | OwnSorter comparefn => r <- sort_result comparefn normalized ;; Ok (VArr r)
  | InheritedSorter name => r <- h_sortWithInherited h name normalized ;; Ok (VArr r)
  | NoSorter => Ok (VArr normalized)
  end.

(** [.sort(([a], [b]) => a.localeCompare(b))] on entries. *)
Definition sortEntries (h : Host) (entries : list (string * value))
  : list (string * value) :=
  js_sort (fun a b => number_of_comparison (h_localeCompare h (fst a) (fst b))) entries.

(** The branch [typeof input === "number"], the same text in both files. *)
Definition normalizeNumber (n : number) : value :=
  if negb (isFinite n) then VNull
  else if eqb n zero then VNum zero
  else VNum (roundSignificant3 n).

(** [ISO_REGEX.test(s)] for
    [/^(\d{4})-(\d{2})-(\d{2})[T ](\d{2}):(\d{2}):(\d{2})(?:\.(\d+))?Z?$/]. *)
Definition ISO_REGEX_test (s : string) : bool :=
  match JsDate.takeDigits 4 0 s with
  | Some (_, String "-" r1) =>
  match JsDate.takeDigits 2 0 r1 with
  | Some (_, String "-" r2) =>
  match JsDate.takeDigits 2 0 r2 with
  | Some (_, String sep r3) =>
  if Ascii.eqb sep "T" || Ascii.eqb sep " " then
  match JsDate.takeDigits 2 0 r3 with
  | Some (_, String ":" r4) =>
  match JsDate.takeDigits 2 0 r4 with
  | Some (_, String ":" r5) =>
  match JsDate.takeDigits 2 0 r5 with
  | Some (_, r6) =>
      let afterFraction :=
        match r6 with
        | String "." r7 =>
            match span_digits r7 with
            | (String _ _, rest) => Some rest
            | (EmptyString, _) => None
            end
        | _ => Some r6
        end in
      match afterFraction with
      | Some EmptyString => true
      | Some (String "Z" EmptyString) => true
      | _ => false
      end
  | None => false
  end
  | _ => false
  end
  | _ => false
  end
  else false
  | _ => false
  end
  | _ => false
  end
  | _ => false
  end.

(** [value.toUpperCase().includes("T")]. *)
Definition includesT (s : string) : bool := includes s "T" || includes s "t".

Module LibCard.

(** The branch [typeof input === "string"] of [lib/card/deterministic.ts]. *)
Definition normalizeString (h : Host) (s : string) : result value :=
  if ISO_REGEX_test s then iso <- newDate_toISOString h s ;; Ok (VStr iso)
  else Ok (VStr s).

(** [normalizeCard(input, basePath)] of [lib/card/deterministic.ts]. *)
Fixpoint normalizeCard (h : Host) (input : value) (basePath : list string)
  {struct input} : result value :=
  match input with
  | VArr items =>
      let pathKey := String.concat "." basePath in
      normalized <-
        mapi_result
          (fun index item =>
             normalizeCard h item (basePath ++ [nat_to_string index])%list)
          O items ;;
      sortNormalized h (lookupSorter (Lib.ARRAY_SORTERS h) pathKey) normalized
  | VObj props =>
      entries <-
        map_entries_result
          (fun key v => normalizeCard h v (basePath ++ [key])%list) props ;;
      Ok (fromEntries (sortEntries h entries))
  | VNum n => Ok (normalizeNumber n)
  | VStr s => normalizeString h s
  | VNull | VBool _ => Ok input
  end.

End LibCard.

Module ScriptsCard.

(** The branch [typeof value === "string"] of
    [scripts/src/card/deterministic.ts]. *)
Definition normalizeString (h : Host) (s : string) : result value :=
  match Date_parse h s with
  | Some parsed =>
      if includesT s then Ok (VStr (JsDate.toISOString parsed)) else Ok (VStr s)
  | None => Ok (VStr s)
  end.

(** [normalizeCard(value, path)] of [scripts/src/card/deterministic.ts]. *)
Fixpoint normalizeCard (h : Host) (v : value) (path : list string)
  {struct v} : result value :=
  match v with
  | VArr items =>
      let pathKey := String.concat "." path in
      normalized <-
        mapi_result
          (fun index item => normalizeCard h item (path ++ [nat_to_string index])%list)
          O items ;;
      sortNormalized h (lookupSorter (Scripts.arraySorters h) pathKey) normalized
  | VObj props =>
      entries <-
        map_entries_result
          (fun key child => normalizeCard h child (path ++ [key])%list) props ;;
      Ok (fromEntries (sortEntries h entries))
  | VNum n => Ok (normalizeNumber n)
  | VStr s => normalizeString h s
  | VNull | VBool _ => Ok v
  end.

End ScriptsCard.

(** [normalize(normalize(d))]. *)
Definition normalizeTwice (normalize : value -> list string -> result value)
    (d : value) : result value :=
  x <- normalize d [] ;; normalize x [].

(* ===================================================================== *)
(** * Where the two canonicalizers can differ *)
(* ===================================================================== *)

Definition result_bool_eqb (a b : result bool) : bool :=
  match a, b with
  | Ok x, Ok y => Bool.eqb x y
  | Throw RangeError, Throw RangeError => true
  | Throw TypeError, Throw TypeError => true
  | Throw Failure, Throw Failure => true
  | _, _ => false
  end.

Definition result_string_eqb (a b : result value) : bool :=
  match a, b with
  | Ok (VStr x), Ok (VStr y) => String.eqb x y
  | Throw RangeError, Throw RangeError => true
  | Throw TypeError, Throw TypeError => true
  | Throw Failure, Throw Failure => true
  | _, _ => false
  end.

(** The two timestamp detectors do the same to the string [s]. *)
Definition detectorsAgree (h : Host) (s : string) : bool :=
  result_string_eqb (LibCard.normalizeString h s) (ScriptsCard.normalizeString h s).

(** Two comparators order any two elements of [l] alike. *)
Definition comparatorsAgree (c1 c2 : value -> value -> result number) (l : list value)
  : bool :=
  forallb (fun a => forallb (fun b => result_bool_eqb (sortsBefore c1 a b)
                                                      (sortsBefore c2 a b)) l) l.

(** The comparators registered for [pathKey] in the two tables order the
    elements of [l] alike. *)
Definition sortersAgree (h : Host) (pathKey : string) (l : list value) : bool :=
  match JsMap.get (Lib.ARRAY_SORTERS h) pathKey,
        JsMap.get (Scripts.arraySorters h) pathKey with
  | Some c1, Some c2 => comparatorsAgree c1 c2 l
  | None, None => true
  | _, _ => false
  end.

Section ForallIndexed.
Context {A : Type}.
Variable p : nat -> A -> bool.

Fixpoint forallbi (i : nat) (l : list A) : bool :=
  match l with
  | [] => true
  | x :: t => p i x && forallbi (S i) t
  end.
End ForallIndexed.

Section ForallEntries.
Context {A : Type}.
Variable p : string -> A -> bool.

Fixpoint forallb_entries (l : list (string * A)) : bool :=
  match l with
  | [] => true
  | (k, x) :: t => p k x && forallb_entries t
  end.
End ForallEntries.

(** The document [d], found at [path], gives the two canonicalizers no
    occasion to differ: the detectors agree on each of its strings, and the
    registered comparators agree on the canonical elements of each of its
    arrays. *)
Fixpoint agreeable (h : Host) (d : value) (path : list string) {struct d} : bool :=
  match d with
  | VStr s => detectorsAgree h s
  | VArr items =>
      forallbi (fun index item => agreeable h item (path ++ [nat_to_string index])%list)
        O items
      && match mapi_result
                 (fun index item =>
                    ScriptsCard.normalizeCard h item (path ++ [nat_to_string index])%list)
                 O items with
         | Ok normalized => sortersAgree h (String.concat "." path) normalized
         | Throw _ => true
         end
  | VObj props =>
      forallb_entries (fun key child => agreeable h child (path ++ [key])%list) props
  | VNull | VBool _ | VNum _ => true
  end.

(** A host for the examples: code-unit comparison for both collations, UTC
    as the local time zone, no parsing outside the date-time format. *)
Definition exampleHost : Host :=
  {| h_localeCompare := String.compare;
     h_localeCompareBase := String.compare;
     h_numberToString := fun _ => "0";
     h_stringToNumber := fun _ => NaN;
     h_functionToString := fun name => "function " ++ name ++ "() { [native code] }";
     h_fallbackParse := fun _ => None;
     h_localTZA := fun _ => 0;
     h_sortWithInherited := fun _ items => Ok items |}.

Definition num (m e : Z) : value := VNum (of_decimal m e).

(** The card of the test of [normalizeCard], its time stamp in UTC. *)
Definition testCard : value :=
  VObj [("governance", VObj [("riskRegister", VArr [
           VObj [("item", VStr "Insufficient tests"); ("likelihood", num 2 (-1));
                 ("impact", num 6 (-1))];
           VObj [("item", VStr "Model drift"); ("likelihood", num 6 (-1));
                 ("impact", num 9 (-1))]])]);
        ("mlCore", VObj [("metrics", VArr [
           VObj [("metric", VStr "latency"); ("slice", VStr "p95"); ("value", num 600 0)];
           VObj [("metric", VStr "accuracy"); ("slice", VStr "overall");
                 ("value", num 92341 (-5))]])]);
        ("telemetry", VObj [("jitter", VArr [num 1234 (-7); VNum Infinity;
                                             num (-45678) (-7); num 0 0])]);
        ("lastUpdated", VStr "2025-11-09T15:32:15.456Z");
        ("tags", VArr [VStr "zeta"; VStr "alpha"])].

(** The time stamp of that test, with its offset. *)
Definition offsetTimestamp : string := "2025-11-09T10:32:15.456-05:00".

(** Two risks without likelihood. *)
Definition unratedRisks : value :=
  VObj [("governance", VObj [("riskRegister", VArr [
           VObj [("impact", num 1 0)];
           VObj [("impact", num 2 0)]])])].

(* ===================================================================== *)
(** * The README evidence: [analysis/repository.ts], lines 138-154 *)
(* ===================================================================== *)

(** [\s] on the characters of a line of ASCII text: space, tab, line feed,
    vertical tab, form feed and carriage return. The white space outside
    ASCII that [\s] matches as well, such as U+00A0 and U+2028, is outside
    the model. *)
Definition isSpace (c : ascii) : bool :=
  let n := nat_of_ascii c in ((n =? 32) || ((9 <=? n) && (n <=? 13)))%nat.

(** [\s+] at the head of [s]: what follows the white space. *)
Fixpoint skipSpaces (s : string) : string :=
  match s with
  | String c r => if isSpace c then skipSpaces r else s
  | EmptyString => s
  end.

Definition spacesThen (s : string) : option string :=
  match s with
  | String c r => if isSpace c then Some (skipSpaces r) else None
  | EmptyString => None
  end.

(** [.] does not match a line terminator. *)
Definition isLineTerminator (c : ascii) : bool :=
  let n := nat_of_ascii c in ((n =? 10) || (n =? 13))%nat.

(** Past the first white space: some character that [.] matches, reached
    over line terminators only, which are white space. *)
Fixpoint titleTail (s : string) : bool :=
  match s with
  | EmptyString => false
  | String c r => if isLineTerminator c then titleTail r else true
  end.

(** [/^#\s+.+/.test(text)]. *)
Definition isTitleHeader (text : string) : bool :=
  match text with
  | String "#" (String c r) => isSpace c && titleTail r
  | _ => false
  end.

(** A pattern [/^##\s+w1\s+w2.../i]: the words, letters compared without
    case, separated by white space. *)
Fixpoint matchWords (words : list string) (s : string) : bool :=
  match words with
  | [] => true
  | w :: rest =>
      String.prefix w (map_string toLowerAscii s)
      && match rest with
         | [] => true
         | _ =>
             match spacesThen (String.substring (String.length w)
                                 (String.length s - String.length w) s) with
             | Some r => matchWords rest r
             | None => false
             end
         end
  end.

Definition isHeader2 (words : list string) (text : string) : bool :=
  match text with
  | String "#" (String "#" r) =>
      match spacesThen r with
      | Some r' => matchWords words r'
      | None => false
      end
  | _ => false
  end.

(** [/^##\s+Non[-\s]Goals/i]. *)
Definition isNonGoalsHeader (text : string) : bool :=
  match text with
  | String "#" (String "#" r) =>
      match spacesThen r with
      | Some r' =>
          String.prefix "non" (map_string toLowerAscii r')
          && match String.substring 3 (String.length r' - 3) r' with
             | String c rest =>
                 (Ascii.eqb c "-" || isSpace c)
                 && String.prefix "goals" (map_string toLowerAscii rest)
             | EmptyString => false
             end
      | None => false
      end
  | _ => false
  end.

(** [anchorForLine(path, line)]. *)
Definition anchorForLine (path : string) (line : nat) : DraftAnchor :=
  {| da_path := path; da_startLine := of_Z (Z.of_nat line);
     da_endLine := of_Z (Z.of_nat line); da_fingerprint := None;
     da_kind := Some "docs" |}.

(** The headers of the README: the lines that start with [#], with their
    numbers from 1. *)
Fixpoint headersFrom (line : nat) (lines : list string) : list (string * nat) :=
  match lines with
  | [] => []
  | text :: rest =>
      if startsWith text "#" then (text, line) :: headersFrom (S line) rest
      else headersFrom (S line) rest
  end.

(** [analyzeReadmeSections(path, lines, anchorMap)], on an anchor map. *)
Definition analyzeReadmeSections (path : string) (lines : list string)
    (anchors : JsMap.t (V := list DraftAnchor)) : JsMap.t (V := list DraftAnchor) :=
  let headers := headersFrom 1%nat lines in
  let mapping : list (string * list (string -> bool)) :=
    [("README.md#title", [isTitleHeader]);
     ("README.md#scope",
      [isHeader2 ["scope"]; isHeader2 ["in"; "scope"]; isHeader2 ["goals"]]);
     ("README.md#out-of-scope", [isHeader2 ["out"; "of"; "scope"]; isNonGoalsHeader]);
     ("README.md#stakeholders", [isHeader2 ["stakeholders"]; isHeader2 ["users"]]);
     ("README.md#workflow",
      [isHeader2 ["workflow"]; isHeader2 ["process"]; isHeader2 ["architecture"]])] in
  fold_left
    (fun m entry =>
       match find (fun hd => existsb (fun r => r (fst hd)) (snd entry)) headers with
       | Some hd => JsMap.set m (fst entry) [anchorForLine path (snd hd)]
       | None => m
       end)
    mapping anchors.

(* ===================================================================== *)
(** * [JSON.parse(JSON.stringify(v))] *)
(* ===================================================================== *)

Fixpoint jsonClone (v : value) : value :=
  match v with
  | VNum n => if isFinite n then (if eqb n zero then VNum zero else VNum n) else VNull
  | VArr items => VArr (List.map jsonClone items)
  | VObj props =>
      VObj ((fix go (l : list (string * value)) : list (string * value) :=
               match l with
               | [] => []
               | (k, x) :: t => (k, jsonClone x) :: go t
               end) props)
  | _ => v
  end.

(* ===================================================================== *)
(** * The patch operations of RFC 6902: [add] *)
(* ===================================================================== *)

(** [{ op: "add", path, value }], the only operation the apply engine
    builds. *)
Record Operation : Type := mkOperation {
  op_path : string;
  op_value : optional value
}.

Inductive OpOutcome : Type :=
| Applied (doc : value)
(** The operation is refused and reported; the document is as before. *)
| Refused
(** The library throws. *)
| Thrown.

(** [parseInt(s, 10)] on a token: the sign and the value of the digits
    that follow the white space; [None] is [NaN]. *)
Definition parseInt10 (s : string) : option (bool * N) :=
  let signed :=
    match skipSpaces s with
    | String "-" r => (true, r)
    | String "+" r => (false, r)
    | r => (false, r)
    end in
  match span_digits (snd signed) with
  | (EmptyString, _) => None
  | (digits, _) => Some (fst signed, digitsN digits 0%N)
  end.

(** The place where [list.splice(start, 0, v)] inserts in a list of [len]
    elements: [NaN] counts as [0], a negative start counts from the end. *)
Definition spliceStart (len : nat) (start : option (bool * N)) : nat :=
  match start with
  | None => O
  | Some (false, n) => N.to_nat (N.min n (N.of_nat len))
  | Some (true, n) => N.to_nat (N.of_nat len - n)
  end.

(** [_add(parent, key, value)] of the library: a property of an object is
    set; in an array the value is pushed for [-], and otherwise inserted
    where [splice] puts it; [null], and in strict code a primitive value,
    take no property. On [__proto__], which an object does not have as
    its own, the assignment sets the prototype and leaves the properties. *)
Definition addMember (parent : value) (key : string) (v : value) : OpOutcome :=
  match parent with
  | VObj props =>
      if hasProperty props key then Applied (VObj (replaceProperty props key v))
      else if String.eqb key "__proto__" then Applied parent
      else Applied (VObj (insertProperty props key v))
  | VArr items =>
      if String.eqb key "-" then Applied (VArr (items ++ [v]))
      else
        let i := spliceStart (List.length items) (parseInt10 key) in
        Applied (VArr (firstn i items ++ v :: skipn i items))
  | VNull => Thrown
  | _ => if String.eqb key "__proto__" then Applied parent else Thrown
  end.

Fixpoint replaceNth {A : Type} (i : nat) (v : A) (l : list A) : list A :=
  match i, l with
  | O, _ :: t => v :: t
  | S k, x :: t => x :: replaceNth k v t
  | _, [] => []
  end.

(** [owner[key]] on a value that is not [null]: an own property of an
    object, an element or the length of an array, a character or the
    length of a string. The members that objects, arrays and strings
    inherit from their prototypes are left out. *)
Definition propertyOf (owner : value) (key : string) : optional value :=
  match owner with
  | VObj props => lookup_prop props key
  | VArr items =>
      if String.eqb key "length" then Some (VNum (of_Z (Z.of_nat (List.length items))))
      else match arrayIndex key with
           | Some i => nth_error items i
           | None => None
           end
  | VStr s =>
      if String.eqb key "length" then Some (VNum (of_Z (Z.of_nat (String.length s))))
      else match arrayIndex key with
           | Some i => option_map (fun c => VStr (String c EmptyString)) (String.get i s)
           | None => None
           end
  | _ => None
  end.

(** [(parent || {})[key]] while the pointer is evaluated: the empty string
    is falsy, as are the other values without properties. *)
Definition getMember (parent : value) (key : string) : optional value :=
  match parent with
  | VStr EmptyString => None
  | _ => propertyOf parent key
  end.

(** The parent after an operation that is applied below its member [key]:
    a property of an object and an element of an array hold what the
    operation made of them; the length of an array and the members of a
    string are primitive values, which an operation leaves as they are. *)
Definition putMember (parent : value) (key : string) (child : value) : value :=
  match parent with
  | VObj props => VObj (replaceProperty props key child)
  | VArr items =>
      match arrayIndex key with
      | Some i => VArr (replaceNth i child items)
      | None => parent
      end
  | _ => parent
  end.

(** The operation [add] below [doc]: the parent is reached through the
    tokens [parents], and the member [key] is written in it; an operation
    whose parent is missing is refused. *)
Fixpoint addAt (doc : value) (parents : list string) (key : string) (v : value)
  : OpOutcome :=
  match parents with
  | [] => addMember doc key v
  | t :: rest =>
      match getMember doc t with
      | Some child =>
          match addAt child rest key v with
          | Applied child' => Applied (putMember doc t child')
          | other => other
          end
      | None => Refused
      end
  end.

(** [Pointer.fromJSON(path)]: the tokens after the leading empty one; a
    pointer that does not start with [/] is invalid. *)
Definition pointerOf (path : string) : option (list string) :=
  match split_on "/" path with
  | EmptyString :: tokens =>
      Some (List.map (fun t => unescapeTilde (unescapeSlash t)) tokens)
  | _ => None
  end.

Definition reservedToken (t : string) : bool :=
  String.eqb t "__proto__" || String.eqb t "constructor" || String.eqb t "prototype".

(** One operation [add] of [applyPatch]: the tokens before the last lead
    to the parent, [__proto__], [constructor] and [prototype] being stepped
    over. The pointer to the whole document has no parent to write into,
    and an operation without value is left out of the model; both count
    as thrown. *)
Definition applyOperation (doc : value) (op : Operation) : OpOutcome :=
  match pointerOf (op_path op), op_value op with
  | Some (t :: rest), Some v =>
      addAt doc (filter (fun token => negb (reservedToken token)) (removelast (t :: rest)))
            (last rest t) v
  | _, _ => Thrown
  end.

(** [applyPatch(target, patch)]: the document after the operations, and for
    each operation whether it was refused. *)
Fixpoint applyPatch (doc : value) (patch : list Operation) : result (value * list bool) :=
  match patch with
  | [] => Ok (doc, [])
  | op :: rest =>
      match applyOperation doc op with
      | Applied doc' => r <- applyPatch doc' rest ;; Ok (fst r, false :: snd r)
      | Refused => r <- applyPatch doc rest ;; Ok (fst r, true :: snd r)
      | Thrown => Throw TypeError
      end
  end.

(* ===================================================================== *)
(** * The seed card: [card/seed.ts], lines 104-156 *)
(* ===================================================================== *)

(** [createEmptyCard()], given the reading of the clock. *)
Definition createEmptyCard (now : string) : list (string * value) :=
  [("ai", VObj []);
   ("business",
    VObj [("executiveSummary", VNull); ("useCase", VNull); ("intendedUse", VNull);
          ("nonGoals", VArr []); ("kpis", VArr []); ("pilot", VObj []);
          ("outOfScopeUse", VArr []); ("userPopulations", VArr []);
          ("hazardousUseCases", VArr [])]);
   ("devInsight",
    VObj [("codeOverview",
           VObj [("languages", VArr []); ("entrypoints", VArr []);
                 ("components", VArr [])]);
          ("architecture",
           VObj [("publicApis", VArr []); ("dataFlow", VArr []);
                 ("depsSummary", VArr [])]);
          ("qualitySignals",
           VObj [("testsPresent", VNull); ("coverageHint", VNull);
                 ("complexityHints", VArr []); ("todoHotspots", VArr [])]);
          ("runtimePerf",
           VObj [("latencyMsP50", VNull); ("latencyMsP95", VNull); ("notes", VNull)])]);
   ("governance",
    VObj [("policies", VArr []); ("assessments", VArr []); ("riskRegister", VArr []);
          ("signOffs", VArr [])]);
   ("integration",
    VObj [("api", VNull); ("security", VNull); ("errorModel", VArr []);
          ("idempotency", VNull); ("versioningPolicy", VNull);
          ("operationalQualities", VArr []); ("fallbacks", VArr []);
          ("observability", VArr []); ("driftSignals", VArr []); ("uxNotes", VNull);
          ("feedbackChannels", VNull); ("incidentReporting", VNull)]);
   ("meta",
    VObj [("title", VNull); ("owners", VArr []); ("maturity", VNull); ("tags", VArr []);
          ("links", VObj []); ("language", VNull); ("createdAt", VNull);
          ("lastUpdated", VNull)]);
   ("mlCore",
    VObj [("problem", VNull); ("datasets", VArr []); ("features", VArr []);
          ("baselines", VArr []); ("qualities", VArr []); ("failureModes", VArr []);
          ("training", VNull); ("artifactURIs", VNull)]);
   ("provenance",
    VObj [("changelog", VArr []); ("branch", VNull); ("commit", VNull);
          ("lastGeneratedAt", VStr now)]);
   ("stakeholderNotes", VObj [])].

(* ===================================================================== *)
(** * [get] of lodash *)
(* ===================================================================== *)

(** [/^\w*$/.test(s)]. *)
Definition isPlainProp (s : string) : bool := forallb_string isWordChar s.

Definition hasBracket (s : string) : bool := includes s "[" || includes s "]".

Fixpoint walk (cursor : optional value) (path : list string) : optional value :=
  match path with
  | [] => cursor
  | key :: rest =>
      match cursor with
      | None | Some VNull => None
      | Some c => walk (propertyOf c key) rest
      end
  end.

Section Lodash.

(** The keys that lodash reads in a path written with brackets. *)
Variable stringToPath : string -> list string.

(** [castPath(path, object)]: a plain name, or a name of a property that
    the object has, is one key; a dotted path is split at its dots. *)
Definition castPath (object : value) (path : string) : list string :=
  if isPlainProp path then [path]
  else
    match propertyOf object path with
    | Some _ => [path]
    | None =>
        if hasBracket path then stringToPath path
        else if includes path "." then split_on "." path
        else [path]
    end.

(** [get(object, path)]; [None] is [undefined], which is also what a
    path without keys yields. *)
Definition lodashGet (object : value) (path : string) : optional value :=
  match castPath object path with
  | [] => None
  | keys => walk (Some object) keys
  end.

End Lodash.

(* ===================================================================== *)
(** * The apply engine: [actions/apply.ts] *)
(* ===================================================================== *)

Inductive DecisionKind : Type := accept | reject | edit.

(** A decision of [decisions.json]. The decisions that set the guard of a
    field, with [lock] or [skipGeneration], are outside this model. *)
Record Decision : Type := mkDecision {
  dec_jsonPath : string;
  dec_decision : DecisionKind;
  dec_editedValue : optional value;
  dec_anchors : optional (list Anchor)
}.

(** The proposal, by what the apply engine reads of it. *)
Record Proposal : Type := mkProposal {
  prop_facts : list Fact;
  (** [proposal.notes], the properties of the object. *)
  prop_notes : optional (list (string * value))
}.

(** The last decision recorded for a path: [decisionByPath.get(path)]. *)
Definition decisionByPath (decisions : list Decision) (path : string) : option Decision :=
  JsMap.get (fold_left (fun m d => JsMap.set m (dec_jsonPath d) d) decisions []) path.

(** [filterFacts(facts, decisions)]. *)
Definition filterFacts (facts : list Fact) (decisions : list Decision) : list Fact :=
  match decisions with
  | [] => filter (fun fact => Gate_eqb (gate fact) OK) facts
  | _ =>
      flat_map
        (fun fact =>
           match decisionByPath decisions (jsonPath fact) with
           | None => if Gate_eqb (gate fact) OK then [fact] else []
           | Some decision =>
               match dec_decision decision, dec_editedValue decision with
               | reject, _ => []
               | edit, Some edited =>
                   [{| jsonPath := jsonPath fact; jsonPointer := jsonPointer fact;
                       currentValue := currentValue fact;
                       proposedValue := Some edited;
                       sourceKind := sourceKind fact;
                       repoSources := orElse (dec_anchors decision) (repoSources fact);
                       confidence := confidence fact; gate := OK;
                       verifierNotes := verifierNotes fact |}]
               | _, _ => [fact]
               end
           end)
        facts
  end.

(** [/^\d+$/.test(s)]. *)
Definition allDigits (s : string) : bool :=
  negb (String.eqb s "") && forallb_string isDigit s.

(** [pointer.split("/").filter(Boolean)]. *)
Definition pointerParts (pointer : string) : list string :=
  filter truthy (split_on "/" pointer).

(** A Number, a String, an anchor, a source and a fact as JSON values. *)
Definition anchorValue (a : Anchor) : value :=
  VObj ([("path", VStr (a_path a)); ("startLine", VNum (a_startLine a));
         ("endLine", VNum (a_endLine a)); ("commit", VStr (a_commit a))]
        ++ match a_fingerprint a with Some f => [("fingerprint", VStr f)] | None => [] end
        ++ match a_kind a with Some k => [("kind", VStr k)] | None => [] end)%list.

Definition sourceKindString (k : SourceKind) : string :=
  match k with extracted => "extracted" | inferred => "inferred" | manual => "manual" end.

(** [Boolean(v)]. *)
Definition truthyValue (v : value) : bool :=
  match v with
  | VNull => false
  | VBool b => b
  | VNum n => negb (eqb n zero || isNaN n)
  | VStr s => truthy s
  | VArr _ | VObj _ => true
  end.

(** The first operations of [filterPatchByDecisions], lines 388-425: for
    each accepted fact the initialization of a missing parent, once, and
    the value. [fixedPaths] is the set of the parents initialized. *)
Section PatchOfFacts.
Variable stringToPath : string -> list string.
Variable currentCard : value.

Definition factOperations (state : list Operation * list string) (f : Fact)
  : list Operation * list string :=
  let '(operations, fixedPaths) := state in
  match jsonPointer f with
  | None => state
  | Some pointer =>
      if negb (truthy pointer) then state
      else
        let parts := pointerParts pointer in
        let '(initOps, fixedPaths') :=
          if (1 <? List.length parts)%nat then
            let parentParts := removelast parts in
            let parentPointer := "/" ++ String.concat "/" parentParts in
            let dotPath := String.concat "." parentParts in
            let currentValue := lodashGet stringToPath currentCard dotPath in
            match currentValue with
            | None | Some VNull =>
                if includes_string fixedPaths parentPointer then ([], fixedPaths)
                else
                  let lastPart := last parts "" in
                  let isArrayIndex := allDigits lastPart || String.eqb lastPart "-" in
                  ([{| op_path := parentPointer;
                       op_value := Some (if isArrayIndex then VArr [] else VObj []) |}],
                   (fixedPaths ++ [parentPointer])%list)
            | Some _ => ([], fixedPaths)
            end
          else ([], fixedPaths) in
        ((operations ++ initOps
          ++ [{| op_path := pointer; op_value := proposedValue f |}])%list,
         fixedPaths')
  end.

End PatchOfFacts.

(* ===================================================================== *)
(** ** The field metadata: [filterPatchByDecisions], lines 427-495 *)
(* ===================================================================== *)

Fixpoint removeProperty (props : list (string * value)) (k : string)
  : list (string * value) :=
  match props with
  | [] => []
  | (k', v) :: r => if String.eqb k' k then r else (k', v) :: removeProperty r k
  end.

(** [fieldMeta.findIndex(m => m.path === path)]; reading [path] of [null]
    throws. *)
Fixpoint findMetaIndex (path : string) (i : nat) (fieldMeta : list value)
  : result (option nat) :=
  match fieldMeta with
  | [] => Ok None
  | m :: rest =>
      match m with
      | VNull => Throw TypeError
      | VObj props =>
          match lookup_prop props "path" with
          | Some (VStr p) =>
              if String.eqb p path then Ok (Some i) else findMetaIndex path (S i) rest
          | _ => findMetaIndex path (S i) rest
          end
      | _ => findMetaIndex path (S i) rest
      end
  end.

(** The item of a field without metadata: its guard, empty, is deleted. *)
Definition newMetaItem (decision : Decision) (fact : Fact) : value :=
  VObj [("path", VStr (dec_jsonPath decision));
        ("source", VObj [("kind", VStr (sourceKindString (sourceKind fact)))]);
        ("confidence", VNum (confidence fact));
        ("repoSources", VArr (List.map anchorValue (repoSources fact)));
        ("needs_review", VBool false)].

(** The body of the loop over the decisions: an item that exists is left
    as it is, a decided fact without item gets one. *)
Definition updateFieldMeta (facts : list Fact) (state : list value * bool)
    (decision : Decision) : result (list value * bool) :=
  match find (fun f => String.eqb (jsonPath f) (dec_jsonPath decision)) facts with
  | None => Ok state
  | Some fact =>
      existingIndex <- findMetaIndex (dec_jsonPath decision) O (fst state) ;;
      match existingIndex with
      | Some _ => Ok state
      | None => Ok ((fst state ++ [newMetaItem decision fact])%list, true)
      end
  end.

Fixpoint fold_result {A B : Type} (f : A -> B -> result A) (l : list B) (a : A)
  : result A :=
  match l with
  | [] => Ok a
  | b :: t => a' <- f a b ;; fold_result f t a'
  end.

(** [Array.isArray(currentCard?.ai?.fieldMeta) ? [...] : []]. *)
Definition fieldMetaOf (currentCard : value) : list value :=
  match propertyOf currentCard "ai" with
  | None | Some VNull => []
  | Some ai =>
      match propertyOf ai "fieldMeta" with
      | Some (VArr items) => items
      | _ => []
      end
  end.

(** [repairRedactedPointers(facts)], lines 51-68. *)
Definition jsonPathToPointer (path : string) : option string :=
  if truthy path && startsWith path "$." then
    Some ("/" ++ String.concat "/"
                   (split_on "." (String.substring 2 (String.length path - 2) path)))
  else None.

Definition repairRedactedPointer (fact : Fact) : Fact :=
  match jsonPointer fact with
  | Some pointer =>
      if truthy pointer && includes pointer "<redacted>" then
        match jsonPathToPointer (jsonPath fact) with
        | Some derived =>
            {| jsonPath := jsonPath fact; jsonPointer := Some derived;
               currentValue := currentValue fact; proposedValue := proposedValue fact;
               sourceKind := sourceKind fact; repoSources := repoSources fact;
               confidence := confidence fact; gate := gate fact;
               verifierNotes := verifierNotes fact |}
        | None => fact
        end
      else fact
  | None => fact
  end.

Section ApplyEngine.

(** The keys that lodash reads in a path written with brackets. *)
Variable stringToPath : string -> list string.

(** The instance paths of the errors that the schema validator reports on a
    card; none when the card is valid. *)
Variable validate : value -> list string.

Variable h : Host.

(** [filterPatchByDecisions(proposal, acceptedFacts, currentCard, decisions)]. *)
Definition filterPatchByDecisions (proposal : Proposal) (acceptedFacts : list Fact)
    (currentCard : value) (decisions : list Decision) : result (list Operation) :=
  let operations :=
    fst (fold_left (factOperations stringToPath currentCard) acceptedFacts ([], [])) in
  r <- fold_result (updateFieldMeta (prop_facts proposal)) decisions
         (fieldMetaOf currentCard, false) ;;
  if snd r then
    let aiInit :=
      match propertyOf currentCard "ai" with
      | Some ai =>
          if truthyValue ai then []
          else [{| op_path := "/ai"; op_value := Some (VObj []) |}]
      | None => [{| op_path := "/ai"; op_value := Some (VObj []) |}]
      end in
    Ok (operations ++ aiInit
        ++ [{| op_path := "/ai/fieldMeta"; op_value := Some (VArr (fst r)) |}])%list
  else Ok operations.

(** A fact is blamed for an error whose path is its pointer or lies below
    it. *)
Definition isInvalidFact (badPaths : list string) (fact : Fact) : bool :=
  match jsonPointer fact with
  | None => false
  | Some pointer =>
      truthy pointer
      && (includes_string badPaths pointer
          || existsb (fun bp => startsWith bp (pointer ++ "/")) badPaths)
  end.

Definition sameOptionalString (a b : optional string) : bool :=
  match a, b with
  | Some x, Some y => String.eqb x y
  | None, None => true
  | _, _ => false
  end.

Definition MAX_LOOPS : nat := 5.

(** The speculative loop, lines 148-212: the patch of the last iteration
    and the facts that survive. [fuel] is what is left of [MAX_LOOPS]. *)
Fixpoint speculativeLoop (fuel : nat) (proposal : Proposal) (decisions : list Decision)
    (currentCard : value) (acceptedPatch : list Operation) (filteredFacts : list Fact)
  : result (list Operation * list Fact) :=
  match fuel with
  | O => Ok (acceptedPatch, filteredFacts)
  | S fuel' =>
      patch <- filterPatchByDecisions proposal filteredFacts currentCard decisions ;;
      match applyPatch (jsonClone currentCard) patch with
      | Throw _ => Ok (patch, filteredFacts)
      | Ok (candidateCard, _) =>
          match validate candidateCard with
          | [] => Ok (patch, filteredFacts)
          | badPaths =>
              let invalidFacts := filter (isInvalidFact badPaths) filteredFacts in
              match invalidFacts with
              | [] => Ok (patch, filteredFacts)
              | _ =>
                  let remaining :=
                    filter
                      (fun f =>
                         negb (existsb
                                 (fun g => sameOptionalString (jsonPointer g) (jsonPointer f))
                                 invalidFacts))
                      filteredFacts in
                  speculativeLoop fuel' proposal decisions currentCard patch remaining
              end
          end
      end
  end.

(** [applyPatchAndWriteCard(oldYaml, patch)] of [write_card.ts], by the
    document that [stringifyDeterministic] serializes: an operation that is
    refused makes it throw. *)
Definition applyPatchAndWriteCard (baseline : value) (patch : list Operation)
  : result value :=
  r <- applyPatch (jsonClone baseline) patch ;;
  if existsb (fun refused : bool => refused) (snd r) then Throw Failure
  else ScriptsCard.normalizeCard h (fst r) [].

(** The repair of the card read from the file, lines 104-124: the sections
    of the seed that are missing or [null] are taken from the seed. The
    second component tells whether a section was taken. *)
Definition repairSections (seed : list (string * value)) (card : list (string * value))
  : list (string * value) * bool :=
  fold_left
    (fun (state : list (string * value) * bool) (section : string * value) =>
       match lookup_prop (fst state) (fst section) with
       | None | Some VNull => (setProperty (fst state) (fst section) (snd section), true)
       | Some _ => state
       end)
    seed (card, false).

(** Lines 104-137: the card in memory, and whether its text is generated
    again. A card that is an array has none of the sections and keeps none
    of them in its text: the run ends with the failure of its patch. *)
Definition prepareCard (seedNow : string) (loaded : value) : result (value * bool) :=
  match loaded with
  | VArr _ => Throw Failure
  | VObj card =>
      let repaired := repairSections (createEmptyCard seedNow) card in
      match lookup_prop (fst repaired) "$schema" with
      | Some s =>
          if truthyValue s then Ok (VObj (removeProperty (fst repaired) "$schema"), true)
          else Ok (VObj (fst repaired), snd repaired)
      | None => Ok (VObj (fst repaired), snd repaired)
      end
  | _ => Ok (VObj (createEmptyCard seedNow), true)
  end.

(** The operations appended after the loop, lines 214-231. *)
Definition closingOperations (proposal : Proposal) (applyNow : string) : list Operation :=
  {| op_path := "/provenance/lastGeneratedAt"; op_value := Some (VStr applyNow) |}
  :: match prop_notes proposal with
     | Some (n :: notes) =>
         [{| op_path := "/stakeholderNotes"; op_value := Some (VObj (n :: notes)) |}]
     | _ => []
     end.

(** [main()] of [apply.ts] outside the strict mode of evaluation, by the
    card that it writes: [loaded] is the card read from the file,
    [seedNow] and [applyNow] are the readings of the clock when the seed
    is built and when the patch is closed. A card is written to the file
    and read from it without change: the text that [dump] makes of a card
    is read by [load] as that card. *)
Definition applyMain (proposal : Proposal) (decisions : list Decision) (loaded : value)
    (seedNow applyNow : string) : result value :=
  let facts := List.map repairRedactedPointer (prop_facts proposal) in
  let proposal' := {| prop_facts := facts; prop_notes := prop_notes proposal |} in
  let filteredFacts := filterFacts facts decisions in
  prepared <- prepareCard seedNow loaded ;;
  onDisk <- (if snd prepared then ScriptsCard.normalizeCard h (fst prepared) []
             else Ok loaded) ;;
  r <- speculativeLoop MAX_LOOPS proposal' decisions (fst prepared) [] filteredFacts ;;
  applyPatchAndWriteCard onDisk (fst r ++ closingOperations proposal applyNow)%list.

End ApplyEngine.

(** ** A repository whose README is titled "Widget Service" *)

Definition widgetReadme : list string :=
  ["# Widget Service"; ""; "A service that scores widgets."].

(** What the analysis of such a repository hands to the deterministic
    rules: the anchors come from the lines of the README. *)
Definition widgetInsights : RepositoryInsights :=
  {| runId := "run-1"; headSha := "abc1234";
     useCase := "To be determined from repository analysis.";
     intendedUse := "To be determined from repository analysis.";
     nonGoals := []; outOfScopeUse := []; repositoryUrl := None;
     languages := []; entrypoints := []; components := [];
     dependencyHighlights := []; testsPresent := false; coverageHint := None;
     problemSummary := "To be determined from repository analysis.";
     userPopulations := []; dataFlow := []; governancePolicies := [];
     anchorMap := analyzeReadmeSections "README.md" widgetReadme [] |}.

(** The facts of the deterministic pass alone on the card [{}]. *)
Definition widgetFacts : list Fact :=
  buildFacts (VObj []) widgetInsights "2025-11-09T10:00:00.000Z" [].

Definition widgetProposal : Proposal :=
  {| prop_facts := widgetFacts; prop_notes := None |}.

(** The title that the first rule of the deterministic pass proposes. *)
Definition FIXED_TITLE : string := "ML System Card (GitHub-native, PR-first)".

(** A validator that accepts every card. *)
Definition acceptAll (card : value) : list string := [].

Definition noBrackets (path : string) : list string := [].

(** Scenario A: the engine on the card [{}] with the facts of the
    deterministic pass and no decision. *)
Definition widgetRun (applyNow : string) : result value :=
  applyMain noBrackets acceptAll exampleHost widgetProposal [] (VObj [])
            "2025-11-09T10:05:00.000Z" applyNow.

(** The card that Scenario A writes. *)
Definition widgetCard : value :=
  Eval vm_compute in
    match widgetRun "2025-11-09T10:05:01.000Z" with
    | Ok card => card
    | Throw _ => VNull
    end.

(* ===================================================================== *)
(** * A run on a card that holds the facts already *)
(* ===================================================================== *)



Fixpoint distinct (keys : list string) : bool :=
  match keys with
  | [] => true
  | k :: r => negb (includes_string r k) && distinct r
  end.

(** A value of JavaScript: no object has two properties of one name. *)
Fixpoint wellFormed (v : value) : bool :=
  match v with
  | VArr items => forallb wellFormed items
  | VObj props =>
      distinct (List.map fst props)
      && (fix go (l : list (string * value)) : bool :=
            match l with
            | [] => true
            | (_, x) :: t => wellFormed x && go t
            end) props
  | _ => true
  end.

(** The member [key] of the object that is reached from [doc] through the
    members [parents], which are objects. *)
Fixpoint resolveMember (doc : value) (parents : list string) (key : string)
  {struct parents} : option value :=
  match doc with
  | VObj props =>
      match parents with
      | [] => lookup_prop props key
      | t :: rest =>
          match lookup_prop props t with
          | Some child => resolveMember child rest key
          | None => None
          end
      end
  | _ => None
  end.

(** [doc] with that member replaced by [w]. *)
Fixpoint writeMember (doc : value) (parents : list string) (key : string) (w : value)
  {struct parents} : value :=
  match doc with
  | VObj props =>
      match parents with
      | [] => VObj (replaceProperty props key w)
      | t :: rest =>
          match lookup_prop props t with
          | Some child => VObj (replaceProperty props t (writeMember child rest key w))
          | None => doc
          end
      end
  | _ => doc
  end.

(** Every property named [k] gets the value [w]. *)
Definition setAll (k : string) (w : value) (l : list (string * value))
  : list (string * value) :=
  List.map (fun kv => if String.eqb (fst kv) k then (fst kv, w) else kv) l.




(** The sections of the seed are in the card, and [$schema] is not. *)
Definition sectionsPresent (card : value) : bool :=
  match card with
  | VObj props =>
      forallb
        (fun key =>
           match lookup_prop props key with
           | None | Some VNull => false
           | Some _ => true
           end)
        (List.map fst (createEmptyCard ""))
      && match lookup_prop props "$schema" with
         | Some s => negb (truthyValue s)
         | None => true
         end
  | _ => false
  end.


Definition isSome {A : Type} (o : option A) : bool :=
  match o with Some _ => true | None => false end.


(** The canonical card with the time stamp of the run and the notes of the
    proposal. *)
Definition restamped (h : Host) (proposal : Proposal) (canon : value) (applyNow : string)
  : result value :=
  stamp <- ScriptsCard.normalizeCard h (VStr applyNow) ["provenance"; "lastGeneratedAt"] ;;
  let stamped := writeMember canon ["provenance"] "lastGeneratedAt" stamp in
  match prop_notes proposal with
  | Some (n :: notes) =>
      w <- ScriptsCard.normalizeCard h (VObj (n :: notes)) ["stakeholderNotes"] ;;
      Ok (writeMember stamped [] "stakeholderNotes" w)
  | _ => Ok stamped
  end.

(* ===================================================================== *)
(** * The provenance index: [write_anchors.ts] and [buildAnchors] *)
(* ===================================================================== *)



(** [isAnchorAllowed(path)]: none of [/\.env/i], [/secrets?\./i] and
    [/id_rsa/i] matches. *)
Definition isAnchorAllowed (path : string) : bool :=
  let p := map_string toLowerAscii path in
  negb (includes p ".env" || includes p "secret." || includes p "secrets."
        || includes p "id_rsa").

Definition anchorEquals (a b : Anchor) : bool :=
  String.eqb (a_path a) (a_path b)
  && eqb (a_startLine a) (a_startLine b)
  && eqb (a_endLine a) (a_endLine b)
  && String.eqb (a_commit a) (a_commit b)
  && String.eqb (orElse (a_fingerprint a) "") (orElse (a_fingerprint b) "")
  && String.eqb (orElse (a_kind a) "") (orElse (a_kind b) "").

(** The anchors of [sanitized] that the list of the path does not hold
    yet are pushed to it. *)
Definition pushNew (held sanitized : list Anchor) : list Anchor :=
  fold_left
    (fun l anchor => if existsb (fun existing => anchorEquals existing anchor) l then l
                     else (l ++ [anchor])%list)
    sanitized held.

(** The body of the loop over the facts: the two maps [anchorsByPath] and
    [unanchoredReasons]. *)
Definition indexFact
    (state : JsMap.t (V := list Anchor) * JsMap.t (V := string)) (fact : Fact)
  : JsMap.t (V := list Anchor) * JsMap.t (V := string) :=
  let unanchored :=
    match sourceKind fact with
    | extracted => state
    | kind => (fst state, JsMap.set (snd state) (jsonPath fact) (sourceKindString kind))
    end in
  match filter (fun anchor => isAnchorAllowed (a_path anchor)) (repoSources fact) with
  | [] => unanchored
  | sanitized =>
      (JsMap.set (fst state) (jsonPath fact)
                 (pushNew (orElse (JsMap.get (fst state) (jsonPath fact)) []) sanitized),
       snd state)
  end.










Section IndexOfARun.

Variable stringToPath : string -> list string.
Variable validate : value -> list string.
Variable h : Host.

(** The SHA-256 of the text of a card, in hexadecimal. *)
Variable cardHash : value -> string.



End IndexOfARun.
(** A fact carries at least one anchor. *)
Definition anchored (f : Fact) : Prop := repoSources f <> [].

(** The confidence of [after] is that of [before] or a smaller one. *)
Definition notRaised (before after : Fact) : Prop :=
  confidence after = confidence before
  \/ ltb (confidence after) (confidence before) = true.

(** The gate that a failed verification leaves: [Require] below the
    minimum of the run, [Warn] otherwise. *)
Definition downgradedGate (minC c : number) : Gate :=
  if ltb c minC then Require else Warn.




(** A run of the deterministic baseline on an empty card, for a repository
    whose README opens with a title and in which one file changed. *)
Definition readmeInsights : RepositoryInsights :=
  {| runId := "run-1"; headSha := "abc1234";
     useCase := "To be determined from repository analysis.";
     intendedUse := "To be determined from repository analysis.";
     nonGoals := []; outOfScopeUse := []; repositoryUrl := None;
     languages := []; entrypoints := []; components := [];
     dependencyHighlights := []; testsPresent := false; coverageHint := None;
     problemSummary := "To be determined from repository analysis.";
     userPopulations := []; dataFlow := []; governancePolicies := [];
     anchorMap :=
       [("README.md#title",
         [ {| da_path := "README.md"; da_startLine := c_1; da_endLine := c_1;
              da_fingerprint := None; da_kind := Some "docs" |} ])] |}.

Definition baselineFactsOfRun : list Fact :=
  buildFacts (VObj []) readmeInsights "2025-11-09T10:00:00.000Z" ["README.md"].

Definition storedFact : Fact :=
  {| jsonPath := "$.business.useCase"; jsonPointer := Some "/business/useCase";
     currentValue := None; proposedValue := Some (VStr "Fraud scoring");
     sourceKind := extracted;
     repoSources := [ {| a_path := "README.md"; a_startLine := c_1; a_endLine := c_1;
                         a_commit := "abc1234"; a_fingerprint := None;
                         a_kind := Some "docs" |} ];
     confidence := c_0_9; gate := OK; verifierNotes := None |}.

Definition emptyPayload : RawFactPayload :=
  {| r_jsonPath := None; r_jsonPointer := None; r_proposedValue := None;
     r_currentValue := None; r_repoSources := None; r_confidence := None;
     r_gate := None; r_verifierNotes := None; r_sourceKind := None |}.

(** A response that proposes the confidence 1.7 for the stored fact. *)
Definition overconfidentPatch : RawFactPayload :=
  {| r_jsonPath := Some "$.business.useCase"; r_jsonPointer := None;
     r_proposedValue := None; r_currentValue := None; r_repoSources := None;
     r_confidence := Some (of_decimal 17 (-1));
     r_gate := None; r_verifierNotes := None; r_sourceKind := None |}.

(** A response that proposes another value for the changelog entry that
    the deterministic baseline manages. *)
Definition tamperingPatch : RawFactPayload :=
  {| r_jsonPath := Some "$.provenance.changelog[0]"; r_jsonPointer := None;
     r_proposedValue := Some (VStr "rewritten history"); r_currentValue := None;
     r_repoSources := None; r_confidence := None;
     r_gate := None; r_verifierNotes := None; r_sourceKind := None |}.

Definition proposesAt (path : string) (v : value) (f : Fact) : Prop :=
  jsonPath f = path /\ proposedValue f = Some v.

(** A verification produced locally names a fact that has anchors, none
    of them with a snippet, and marks it invalid at confidence 0.5. *)
Definition preInvalidated (f : Fact) : VerificationItem :=
  {| v_jsonPath := jsonPath f; v_valid := false;
     v_comment := "Source snippet unavailable or file not found.";
     v_adjustedConfidence := Some c_0_5 |}.

Definition batchesHold (P : PayloadItem -> Prop) (bs : list Batch) : Prop :=
  Forall (fun b => Forall P (b_facts b)) bs.

Definition unanchoredFact : Fact :=
  {| jsonPath := "$.business.useCase"; jsonPointer := Some "/business/useCase";
     currentValue := None; proposedValue := Some (VStr "Fraud scoring");
     sourceKind := extracted; repoSources := [];
     confidence := c_0_9; gate := OK; verifierNotes := None |}.

Definition unreadableFact : Fact :=
  {| jsonPath := "$.mlCore.problem"; jsonPointer := Some "/mlCore/problem";
     currentValue := None; proposedValue := Some (VStr "Ranking");
     sourceKind := extracted;
     repoSources := [ {| a_path := "gone.md"; a_startLine := c_1; a_endLine := c_1;
                         a_commit := "abc1234"; a_fingerprint := None;
                         a_kind := Some "docs" |} ];
     confidence := c_0_9; gate := OK; verifierNotes := None |}.

(** A proposal with three facts and a note, and the decision that accepts
    one of the facts. *)
Definition languagesFact : Fact :=
  {| jsonPath := "$.devInsight.codeOverview.languages";
     jsonPointer := Some "/devInsight/codeOverview/languages";
     currentValue := None;
     proposedValue := Some (VArr [VStr "TypeScript"; VStr "Python"]);
     sourceKind := extracted;
     repoSources := [ {| a_path := "package.json"; a_startLine := c_1; a_endLine := c_1;
                         a_commit := "abc1234"; a_fingerprint := None;
                         a_kind := Some "config" |} ];
     confidence := c_0_9; gate := OK; verifierNotes := None |}.

Definition reviewedProposal : Proposal :=
  {| prop_facts := (widgetFacts ++ [storedFact; languagesFact])%list;
     prop_notes := Some [("productOwner", VStr "Pilot planned for the spring.")] |}.

Definition reviewDecisions : list Decision :=
  [ {| dec_jsonPath := "$.business.useCase"; dec_decision := accept;
       dec_editedValue := None; dec_anchors := None |} ].








(** ** Words of a comment *)





(** The facts that have anchors of which none has a readable snippet. *)
Definition unreadable (numberToString : number -> string)
    (snippets : string -> optional string) (f : Fact) : Prop :=
  repoSources f <> []
  /\ filter (snippetAvailable numberToString snippets) (repoSources f) = [].

(* ===================================================================== *)
(** * Line endings of the serialized card: [card/deterministic.ts], lines 82-88 *)
(* ===================================================================== *)

Definition LF : ascii := ascii_of_nat 10.
Definition CR : ascii := ascii_of_nat 13.

(** [input.endsWith("\n") ? input : `${input}\n`]. *)
Definition ensureTrailingNewline (input : string) : string :=
  if endsWith input (String LF EmptyString) then input
  else input ++ String LF EmptyString.

(** [input.replace(/\r\n/g, "\n")]: the matches are found from left to
    right, each search starting after the match before. *)
Fixpoint ensureLf (input : string) : string :=
  match input with
  | String c (String d r as tail) =>
      if Ascii.eqb c CR && Ascii.eqb d LF then String LF (ensureLf r)
      else String c (ensureLf tail)
  | _ => input
  end.

(* ===================================================================== *)
(** * Predicates on confidences, gates and anchors *)
(* ===================================================================== *)

(** A confidence between 0 and 1. *)
Definition inUnitInterval (c : number) : bool := leb zero c && leb c c_1.

(** The gate [g1] asks of the reviewer at least what [g2] asks. *)
Definition asStrictAs (g1 g2 : Gate) : bool :=
  match g1, g2 with
  | Require, _ => true
  | Warn, (Warn | OK) => true
  | OK, OK => true
  | _, _ => false
  end.

(** An anchor as the passes store it: a path that is not empty, one of the
    valid kinds, and a commit that has the shape of a SHA or is the head of
    the run. *)
Definition storedAnchor (headSha : string) (a : Anchor) : bool :=
  truthy (a_path a)
  && match a_kind a with
     | Some k => includes_string VALID_KINDS k
     | None => false
     end
  && (SHA_REGEX_test (a_commit a) || String.eqb (a_commit a) headSha).

(* ===================================================================== *)
(** * The cut of the extraction pass: [extractor.ts], lines 192-200 *)
(* ===================================================================== *)

(** [SAFETY_LIMITS.maxFacts] of [constants.ts]. *)
Definition MAX_FACTS : nat := 1000.

(** [if (mergedFacts.length > SAFETY_LIMITS.maxFacts) mergedFacts =
    mergedFacts.slice(0, SAFETY_LIMITS.maxFacts)]. *)
Definition trimFacts (mergedFacts : list Fact) : list Fact :=
  if (MAX_FACTS <? List.length mergedFacts)%nat then firstn MAX_FACTS mergedFacts
  else mergedFacts.

(* ===================================================================== *)
(** * Examples for the passes *)
(* ===================================================================== *)

(** The changelog fact of the deterministic baseline of the example run. *)
Definition changelogFact : Fact :=
  {| jsonPath := "$.provenance.changelog[0]";
     jsonPointer := Some "/provenance/changelog/0";
     currentValue := None;
     proposedValue := Some (VObj [("summary", VStr "one changed file")]);
     sourceKind := extracted;
     repoSources := [ {| a_path := "README.md"; a_startLine := c_1; a_endLine := c_1;
                         a_commit := "abc1234"; a_fingerprint := None;
                         a_kind := None |} ];
     confidence := c_0_9; gate := OK; verifierNotes := None |}.

(** A response of the service about a path that no fact has. *)
Definition strayPatch : RawFactPayload :=
  {| r_jsonPath := Some "$.mlCore.training"; r_jsonPointer := None;
     r_proposedValue := Some (VStr "nightly"); r_currentValue := None;
     r_repoSources := None; r_confidence := Some c_0_9;
     r_gate := None; r_verifierNotes := None; r_sourceKind := None |}.

(** A candidate of the extraction pass at a new path, with one anchor. *)
Definition problemCandidate : RawFactPayload :=
  {| r_jsonPath := Some "$.mlCore.problem"; r_jsonPointer := None;
     r_proposedValue := Some (VStr "Ranking"); r_currentValue := None;
     r_repoSources :=
       Some [ {| ra_path := Some "docs/model.md"; ra_startLine := None;
                 ra_endLine := None; ra_commit := None; ra_kind := None |} ];
     r_confidence := Some (of_decimal 17 (-1));
     r_gate := None; r_verifierNotes := None; r_sourceKind := None |}.

(** ** Examples for the verification pass *)

(** Two facts that quote the same line of the README. *)
Definition sharedAnchor : PayloadAnchor :=
  {| pa_path := "README.md"; pa_lines := "1-1"; pa_anchorId := "README.md:1-1" |}.

Definition firstItem : PayloadItem :=
  {| p_jsonPath := "$.business.useCase"; p_value := Some (VStr "Fraud scoring");
     p_anchors := [sharedAnchor] |}.

Definition secondItem : PayloadItem :=
  {| p_jsonPath := "$.mlCore.problem"; p_value := Some (VStr "Ranking");
     p_anchors := [sharedAnchor] |}.

(** A serialization of 7500 characters for every item, which counts as
    3000 tokens. *)
Definition longText (_ : PayloadItem) : string :=
  String.concat "" (List.repeat "0123456789" 750).

Definition readmeSnippets (id : string) : optional string :=
  if String.eqb id "README.md:1-1" then Some "# Widget Service" else None.

(** The state of the batching loop after the first item. *)
Definition afterFirstItem : BatchState :=
  batchStep readmeSnippets longText
    {| batches := []; currentBatchFacts := []; currentBatchSnippets := [];
       currentTokens := O |}
    firstItem.

(** ** Examples for the apply engine *)

(** The decisions of a reviewer who first rejects a fact and then edits
    it. *)
Definition rejection : Decision :=
  {| dec_jsonPath := "$.mlCore.problem"; dec_decision := reject;
     dec_editedValue := None; dec_anchors := None |}.

Definition correction : Decision :=
  {| dec_jsonPath := "$.mlCore.problem"; dec_decision := edit;
     dec_editedValue := Some (VStr "Learning to rank"); dec_anchors := None |}.

(** A validator that refuses a title in the card, and the outcome of the
    speculative loop under it for the reviewed proposal. *)
Definition refuseTitle (card : value) : list string :=
  match getValueAtPointer card "/meta/title" with
  | Some (VStr _) => ["/meta/title"]
  | _ => []
  end.

Definition candidateFacts : list Fact :=
  filterFacts (List.map repairRedactedPointer (prop_facts reviewedProposal)) [].

Definition strictOutcome : list Operation * list Fact :=
  Eval vm_compute in
    match speculativeLoop noBrackets refuseTitle MAX_LOOPS reviewedProposal []
            (VObj (createEmptyCard "2025-11-09T10:05:00.000Z")) [] candidateFacts with
    | Ok r => r
    | Throw _ => ([], [])
    end.

(** The patch of the reviewed proposal for a card without sections. *)
Definition reviewedPatch : list Operation :=
  Eval vm_compute in
    match filterPatchByDecisions noBrackets reviewedProposal candidateFacts (VObj [])
            reviewDecisions with
    | Ok operations => operations
    | Throw _ => []
    end.

(** The field metadata after the review of the stored fact, where there
    was none. *)
Definition reviewedMeta : list value * bool :=
  Eval vm_compute in
    match fold_result (updateFieldMeta (prop_facts reviewedProposal))
            (reviewDecisions ++ [correction]) ([VObj [("path", VStr "$.meta.title")]], false)
    with
    | Ok r => r
    | Throw _ => ([], false)
    end.

(* ===================================================================== *)
(** * Predicates on the provenance index *)
(* ===================================================================== *)

(** No anchor of the list equals, for [anchorEquals], one that follows
    it. *)
Fixpoint distinctAnchors (l : list Anchor) : bool :=
  match l with
  | [] => true
  | a :: r => negb (existsb (fun later => anchorEquals a later) r) && distinctAnchors r
  end.

(* ===================================================================== *)
(** * Examples for the canonicalizer *)
(* ===================================================================== *)

(** Three risks, not in the order of the register. *)
Definition someRisks : list value :=
  [VObj [("item", VStr "Model drift"); ("likelihood", num 6 (-1)); ("impact", num 9 (-1))];
   VObj [("item", VStr "Insufficient tests"); ("likelihood", num 2 (-1));
         ("impact", num 6 (-1))];
   VObj [("item", VStr "Data leak"); ("likelihood", num 6 (-1)); ("impact", num 9 (-1))]].

Definition canonicalRisks : value :=
  Eval vm_compute in
    match ScriptsCard.normalizeCard exampleHost (VArr someRisks)
            ["governance"; "riskRegister"] with
    | Ok out => out
    | Throw _ => VNull
    end.

(* ===================================================================== *)
(** * Tactics *)
(* ===================================================================== *)

(** The cases of a comparison of Numbers. *)
Ltac number_cases :=
  repeat match goal with
         | x : number |- _ => destruct x
         | x : spec_float |- _ => destruct x
         end;
  repeat match goal with s : bool |- _ => destruct s end;
  simpl in *; try reflexivity; try discriminate;
  change (PosDef.Pos.compare_cont Eq) with Pos.compare in *;
  repeat match goal with
         | H : context [Z.compare ?a ?b] |- _ => destruct (Z.compare_spec a b); subst
         | |- context [Z.compare ?a ?b] => destruct (Z.compare_spec a b); subst
         end;
  repeat match goal with
         | H : context [Pos.compare ?a ?b] |- _ => destruct (Pos.compare_spec a b); subst
         | |- context [Pos.compare ?a ?b] => destruct (Pos.compare_spec a b); subst
         end;
  simpl in *; try reflexivity; try discriminate; try lia.

(** The branches of [mergeCandidate]. *)
Ltac merge_cases m c path existing Edet Eget :=
  unfold mergeCandidate;
  destruct (r_jsonPath c) as [path|]; [|try assumption];
  [destruct (negb (truthy path)); [try assumption|];
   destruct (isDeterministicOnly path) eqn:Edet; [try assumption|];
   destruct (JsMap.get m path) as [existing|] eqn:Eget;
   [|match goal with
     | |- context [if negb (truthy ?p) then _ else _] =>
         destruct (negb (truthy p)); [try assumption|]
     end;
     destruct (normalizeAnchors (orElse (r_repoSources c) []) _) eqn:Eanchors;
     [try assumption|]]].

(* ===================================================================== *)
(** * Two runs of the apply engine *)
(* ===================================================================== *)







(** The facts for which [main()] builds operations. *)
Definition acceptedFacts (proposal : Proposal) (decisions : list Decision) : list Fact :=
  filterFacts (List.map repairRedactedPointer (prop_facts proposal)) decisions.








(** ** The document while the patch of a run is applied *)















(* ===================================================================== *)
(** * Properties of the containers *)
(* ===================================================================== *)

Section SortFacts.
Context {A : Type}.
Variable before : A -> A -> bool.

Lemma insert_stable_perm (x : A) (l : list A) :
  Permutation (x :: l) (insert_stable before x l).
Proof.
  induction l as [|y t IH]; simpl.
  - apply Permutation_refl.
  - destruct (before y x).
    + eapply Permutation_trans; [apply perm_swap|].
      apply perm_skip. exact IH.
    + apply Permutation_refl.
Qed.

Lemma sort_stable_perm (l : list A) : Permutation l (sort_stable before l).
Proof.
  induction l as [|x t IH]; simpl.
  - apply perm_nil.
  - eapply Permutation_trans; [apply perm_skip; exact IH|].
    apply insert_stable_perm.
Qed.

Lemma sort_stable_Forall (P : A -> Prop) (l : list A) :
  Forall P l -> Forall P (sort_stable before l).
Proof.
  intros H. eapply Permutation_Forall; [apply sort_stable_perm | exact H].
Qed.

Lemma sort_stable_singleton (x : A) : sort_stable before [x] = [x].
Proof. reflexivity. Qed.
End SortFacts.

Lemma js_sort_Forall {A : Type} (cmp : A -> A -> number) (P : A -> Prop) (l : list A) :
  Forall P l -> Forall P (js_sort cmp l).
Proof. apply sort_stable_Forall. Qed.

Lemma js_sort_In {A : Type} (cmp : A -> A -> number) (x : A) (l : list A) :
  In x l <-> In x (js_sort cmp l).
Proof.
  split; apply Permutation_in.
  - apply sort_stable_perm.
  - apply Permutation_sym, sort_stable_perm.
Qed.

Section MapFacts.
Context {V : Type}.
Variable P : V -> Prop.

Lemma set_Forall (m : JsMap.t) (k : string) (v : V) :
  Forall P (JsMap.values m) -> P v -> Forall P (JsMap.values (JsMap.set m k v)).
Proof.
  unfold JsMap.values. induction m as [|[k' v'] r IH]; simpl; intros Hm Hv.
  - constructor; [exact Hv | constructor].
  - inversion Hm; subst. destruct (String.eqb k' k); simpl.
    + constructor; assumption.
    + constructor; [assumption | apply IH; assumption].
Qed.

Lemma get_Forall (m : JsMap.t) (k : string) (v : V) :
  Forall P (JsMap.values m) -> JsMap.get m k = Some v -> P v.
Proof.
  unfold JsMap.values. induction m as [|[k' v'] r IH]; simpl; intros Hm Hg.
  - discriminate.
  - inversion Hm; subst. destruct (String.eqb k' k).
    + injection Hg as <-. assumption.
    + apply IH; assumption.
Qed.

Lemma get_set_same (m : JsMap.t) (k : string) (v : V) :
  JsMap.get (JsMap.set m k v) k = Some v.
Proof.
  induction m as [|[k' v'] r IH]; simpl.
  - rewrite String.eqb_refl. reflexivity.
  - destruct (String.eqb k' k) eqn:E; simpl; rewrite E; [reflexivity | exact IH].
Qed.

Lemma get_set_other (m : JsMap.t) (k k' : string) (v : V) :
  k <> k' -> JsMap.get (JsMap.set m k v) k' = JsMap.get m k'.
Proof.
  intros Hne. induction m as [|[k0 v0] r IH]; simpl.
  - destruct (String.eqb k k') eqn:E; [apply String.eqb_eq in E; contradiction | reflexivity].
  - destruct (String.eqb k0 k) eqn:E; simpl.
    + apply String.eqb_eq in E. subst k0.
      destruct (String.eqb k k') eqn:E'; [apply String.eqb_eq in E'; contradiction | reflexivity].
    + destruct (String.eqb k0 k'); [reflexivity | exact IH].
Qed.
End MapFacts.

Lemma firstn_Forall {A : Type} (P : A -> Prop) (n : nat) (l : list A) :
  Forall P l -> Forall P (firstn n l).
Proof.
  revert l. induction n as [|n IH]; intros l H; simpl; [constructor|].
  destruct l; [constructor|]. inversion H; subst. constructor; auto.
Qed.

Lemma fold_left_invariant {A B : Type} (I : A -> Prop) (f : A -> B -> A) (l : list B) (a : A) :
  I a -> (forall x b, I x -> I (f x b)) -> I (fold_left f l a).
Proof.
  intros Ha Hstep. revert a Ha.
  induction l as [|b t IH]; simpl; intros a Ha; [exact Ha | apply IH, Hstep, Ha].
Qed.

(* ===================================================================== *)
(** * The anchor invariant *)
(* ===================================================================== *)

Lemma addFact_anchored (head : string) (facts : list Fact) (d : DraftFact) :
  Forall anchored facts -> Forall anchored (addFact head facts d).
Proof.
  intros H. unfold addFact. destruct (d_anchors d) as [[|a r]|] eqn:E; try exact H.
  apply Forall_app. split; [exact H|].
  constructor; [|constructor]. unfold anchored, toFact; simpl. rewrite E. simpl. discriminate.
Qed.

Lemma addFact_without_anchors (head : string) (facts : list Fact) (d : DraftFact) :
  d_anchors d = None \/ d_anchors d = Some [] -> addFact head facts d = facts.
Proof. intros [E|E]; unfold addFact; rewrite E; reflexivity. Qed.

Lemma buildChangelogFacts_anchored baseline context now changedFiles :
  Forall anchored (buildChangelogFacts baseline context now changedFiles).
Proof.
  unfold buildChangelogFacts. destruct changedFiles as [|p r]; constructor; [|constructor].
  unfold anchored; simpl. discriminate.
Qed.

Lemma buildFacts_anchored baseline context now changedFiles :
  Forall anchored (buildFacts baseline context now changedFiles).
Proof.
  unfold buildFacts. apply Forall_app. split.
  - apply fold_left_invariant; [constructor | intros; apply addFact_anchored; assumption].
  - apply buildChangelogFacts_anchored.
Qed.

Lemma baselineMap_anchored (facts : list Fact) :
  Forall anchored facts -> Forall anchored (JsMap.values (baselineMap facts)).
Proof.
  intros H. unfold baselineMap.
  assert (G : forall m, Forall anchored (JsMap.values m) ->
            Forall anchored (JsMap.values
              (fold_left (fun m f => JsMap.set m (jsonPath f) (copyFact f)) facts m))).
  { induction H as [|f t Hf Ht IH]; simpl; intros m Hm; [exact Hm|].
    apply IH. apply set_Forall; assumption. }
  apply G. constructor.
Qed.

Lemma normalizeAnchors_nonempty_cases (l : list RawAnchor) (head : string) :
  normalizeAnchors l head = [] \/ normalizeAnchors l head <> [].
Proof. destruct (normalizeAnchors l head); [left; reflexivity | right; discriminate]. Qed.

Lemma mergeCandidate_anchored (head : string) (m : JsMap.t) (c : RawFactPayload) :
  Forall anchored (JsMap.values m) ->
  Forall anchored (JsMap.values (mergeCandidate head m c)).
Proof.
  intros Hm. unfold mergeCandidate.
  destruct (r_jsonPath c) as [path|]; [|exact Hm].
  destruct (negb (truthy path)); [exact Hm|].
  destruct (isDeterministicOnly path); [exact Hm|].
  destruct (JsMap.get m path) as [existing|] eqn:G.
  - apply set_Forall; [exact Hm|].
    unfold anchored; simpl.
    destruct (normalizeAnchors (orElse (r_repoSources c) []) head) eqn:E.
    + exact (get_Forall anchored m path existing Hm G).
    + discriminate.
  - match goal with |- context [if negb (truthy ?p) then _ else _] =>
      destruct (negb (truthy p)) end; [exact Hm|].
    destruct (normalizeAnchors (orElse (r_repoSources c) []) head) eqn:E; [exact Hm|].
    apply set_Forall; [exact Hm|]. unfold anchored; simpl. discriminate.
Qed.

Lemma mergeFacts_anchored lc (raw : list RawFactPayload) (base : list Fact) (head : string) :
  Forall anchored base -> Forall anchored (mergeFacts lc raw base head).
Proof.
  intros H. unfold mergeFacts. destruct raw as [|c r]; [exact H|].
  apply js_sort_Forall.
  apply fold_left_invariant.
  - apply baselineMap_anchored, H.
  - intros; apply mergeCandidate_anchored; assumption.
Qed.

Lemma reconcilePatch_anchored (head : string) (m : JsMap.t) (p : RawFactPayload) :
  Forall anchored (JsMap.values m) ->
  Forall anchored (JsMap.values (reconcilePatch head m p)).
Proof.
  intros Hm. unfold reconcilePatch.
  destruct (r_jsonPath p) as [path|]; [|exact Hm].
  destruct (negb (truthy path)); [exact Hm|].
  destruct (JsMap.get m path) as [existing|] eqn:G; [|exact Hm].
  apply set_Forall; [exact Hm|].
  unfold anchored; simpl.
  destruct (r_repoSources p) as [[|a r]|].
  - exact (get_Forall anchored m path existing Hm G).
  - simpl. discriminate.
  - exact (get_Forall anchored m path existing Hm G).
Qed.

Lemma reconcileFacts_anchored lc (base : list Fact) (patches : list RawFactPayload)
    (head : string) :
  Forall anchored base -> Forall anchored (reconcileFacts lc base patches head).
Proof.
  intros H. unfold reconcileFacts. apply js_sort_Forall.
  apply fold_left_invariant.
  - apply baselineMap_anchored, H.
  - intros; apply reconcilePatch_anchored; assumption.
Qed.

Lemma applyVerification_repoSources minC f v :
  repoSources (applyVerification minC f v) = repoSources f.
Proof. unfold applyVerification. destruct (_ && _); reflexivity. Qed.

Lemma verifyFact_repoSources minC vs f :
  repoSources (verifyFact minC vs f) = repoSources f.
Proof.
  unfold verifyFact. destruct (find _ vs); [apply applyVerification_repoSources | reflexivity].
Qed.

Lemma runVerifierPass_anchored nts sn st inv minC (facts : list Fact) :
  Forall anchored facts ->
  Forall anchored (vr_facts (runVerifierPass nts sn st inv minC facts)).
Proof.
  intros H. unfold runVerifierPass.
  destruct (filter _ facts); [exact H|].
  destruct (prevalidate nts sn _) as [ws pre]. simpl.
  apply Forall_map. eapply Forall_impl; [|exact H].
  intros x Hx. unfold anchored in *. rewrite verifyFact_repoSources. exact Hx.
Qed.

(* ===================================================================== *)
(** * Properties of the fact pipeline *)
(* ===================================================================== *)

(** C3. Every fact of the proposal carries at least one anchor: the facts
    of the deterministic baseline, merged with any response of the
    extraction pass, trimmed, reconciled with any response of the reasoning
    pass and verified, are all anchored. In the merge a candidate at a new
    path whose normalized anchors are empty leaves the map as it is; at an
    existing path the anchors of the candidate replace the existing ones
    exactly when they are not empty after normalization; and a baseline rule
    without evidence anchors adds no fact. *)
Theorem anchor_invariant :
  forall lc baseline context now changedFiles raw head maxFacts patches
         nts sn st inv minC,
    let base := buildFacts baseline context now changedFiles in
    let extractedFacts := firstn maxFacts (mergeFacts lc raw base head) in
    let reasoned := reconcileFacts lc extractedFacts patches head in
    Forall anchored (vr_facts (runVerifierPass nts sn st inv minC reasoned))
    /\ (forall m c path,
          r_jsonPath c = Some path -> JsMap.get m path = None ->
          normalizeAnchors (orElse (r_repoSources c) []) head = [] ->
          mergeCandidate head m c = m)
    /\ (forall m c path existing,
          r_jsonPath c = Some path -> truthy path = true ->
          isDeterministicOnly path = false ->
          JsMap.get m path = Some existing ->
          exists merged,
            JsMap.get (mergeCandidate head m c) path = Some merged
            /\ repoSources merged =
               match normalizeAnchors (orElse (r_repoSources c) []) head with
               | [] => repoSources existing
               | a :: r => a :: r
               end)
    /\ (forall facts d,
          d_anchors d = None \/ d_anchors d = Some [] ->
          addFact (headSha context) facts d = facts).
Proof.
  intros lc baseline context now changedFiles raw head maxFacts patches
         nts sn st inv minC base extractedFacts reasoned.
  split; [|split; [|split]].
  - apply runVerifierPass_anchored. subst reasoned.
    apply reconcileFacts_anchored. subst extractedFacts.
    apply firstn_Forall. apply mergeFacts_anchored. subst base.
    apply buildFacts_anchored.
  - intros m c path Hp Hg Hn. unfold mergeCandidate. rewrite Hp.
    destruct (negb (truthy path)); [reflexivity|].
    destruct (isDeterministicOnly path); [reflexivity|].
    rewrite Hg. rewrite Hn.
    match goal with |- (if ?b then _ else _) = _ => destruct b end; reflexivity.
  - intros m c path existing Hp Ht Hd Hg. unfold mergeCandidate.
    rewrite Hp, Ht, Hd, Hg. simpl negb. cbv iota.
    eexists. split; [apply get_set_same|]. simpl.
    destruct (normalizeAnchors (orElse (r_repoSources c) []) head); reflexivity.
  - intros facts d H. apply addFact_without_anchors. exact H.
Qed.

Lemma applyVerification_confidence minC f v :
  confidence (applyVerification minC f v) =
  match v_adjustedConfidence v with
  | Some adjusted => if ltb adjusted (confidence f) then adjusted else confidence f
  | None => confidence f
  end.
Proof. unfold applyVerification. destruct (_ && _); reflexivity. Qed.

Lemma applyVerification_notRaised minC f v : notRaised f (applyVerification minC f v).
Proof.
  unfold notRaised. rewrite applyVerification_confidence.
  destruct (v_adjustedConfidence v) as [a|]; [|left; reflexivity].
  destruct (ltb a (confidence f)) eqn:E; [right; exact E | left; reflexivity].
Qed.

Lemma verifyFact_notRaised minC vs f : notRaised f (verifyFact minC vs f).
Proof.
  unfold verifyFact. destruct (find _ vs).
  - apply applyVerification_notRaised.
  - left; reflexivity.
Qed.

Lemma Forall2_map_right {A B : Type} (R : A -> B -> Prop) (g : A -> B) (l : list A) :
  (forall x, R x (g x)) -> Forall2 R l (List.map g l).
Proof. intros H. induction l; simpl; constructor; auto. Qed.

(** C4. Verification never raises a confidence: the reply matched to a fact
    leaves its confidence or lowers it, and so does the whole pass, fact by
    fact. *)
Theorem confidence_monotone_under_verification :
  forall nts sn st inv minC facts,
    (forall f v, notRaised f (applyVerification minC f v))
    /\ Forall2 notRaised facts (vr_facts (runVerifierPass nts sn st inv minC facts)).
Proof.
  intros nts sn st inv minC facts. split.
  - intros f v. apply applyVerification_notRaised.
  - unfold runVerifierPass. destruct (filter _ facts) eqn:E.
    + simpl. clear E. induction facts; constructor; [left; reflexivity | assumption].
    + destruct (prevalidate nts sn _) as [ws pre]. simpl.
      apply Forall2_map_right. intros x. apply verifyFact_notRaised.
Qed.


(** ** The keywords of a comment *)















(** C6. The reasoning pass stores the confidence of a patch as it comes:
    proposed 1.7, the reconciled fact has confidence 1.7, above 1, where
    the extraction pass, through [normalizeConfidence], stores 1. *)
Theorem reasoner_stores_unclamped_confidence :
  forall lc,
    List.map confidence (reconcileFacts lc [storedFact] [overconfidentPatch] "abc1234")
    = [of_decimal 17 (-1)]
    /\ gtb (of_decimal 17 (-1)) c_1 = true
    /\ List.map confidence (mergeFacts lc [overconfidentPatch] [storedFact] "abc1234")
       = [c_1].
Proof. intros lc. repeat split. Qed.

(** C7. The extraction pass discards a candidate at a deterministic-only
    path, and the reasoning pass does not: on the facts of the baseline, a
    patch at [$.provenance.changelog[0]] replaces the proposed value of the
    changelog fact in the reconciled facts, while the merge of the same
    candidate leaves every fact of the baseline in place. *)
Theorem reasoner_overrides_deterministic_only_path :
  forall lc,
    isDeterministicOnly "$.provenance.changelog[0]" = true
    /\ Exists (proposesAt "$.provenance.changelog[0]" (VStr "rewritten history"))
         (reconcileFacts lc baselineFactsOfRun [tamperingPatch] "abc1234")
    /\ ~ Exists (proposesAt "$.provenance.changelog[0]" (VStr "rewritten history"))
           (mergeFacts lc [tamperingPatch] baselineFactsOfRun "abc1234")
    /\ (forall f, In f baselineFactsOfRun ->
                  In f (mergeFacts lc [tamperingPatch] baselineFactsOfRun "abc1234")).
Proof.
  intros lc. split; [reflexivity|]. split; [|split].
  - apply Exists_exists.
    unfold reconcileFacts.
    set (vals := JsMap.values _).
    vm_compute in vals.
    match eval unfold vals in vals with
    | [_; ?f] => exists f
    end.
    split.
    + apply js_sort_In. subst vals. right. left. reflexivity.
    + split; reflexivity.
  - intros H. apply Exists_exists in H. destruct H as [f [Hin [Hp Hv]]].
    unfold mergeFacts in Hin. cbv iota in Hin.
    apply js_sort_In in Hin.
    vm_compute in Hin.
    destruct Hin as [<- | [<- | []]]; vm_compute in Hv; discriminate.
  - intros f Hin. unfold mergeFacts. cbv iota. apply js_sort_In.
    vm_compute in Hin. vm_compute.
    destruct Hin as [<- | [<- | []]]; [left | right; left]; reflexivity.
Qed.

(* ===================================================================== *)
(** * What the verification pass submits *)
(* ===================================================================== *)

Section VerifierRequests.
Variable numberToString : number -> string.
Variable snippets : string -> optional string.
Variable stringifyItem : PayloadItem -> string.

Lemma filter_nonempty {A : Type} (p : A -> bool) (l : list A) :
  filter p l <> [] -> l <> [].
Proof. destruct l; [intros H; exact H | discriminate]. Qed.

Lemma prevalidate_anchored (l : list Fact) :
  Forall anchored (fst (prevalidate numberToString snippets l)).
Proof.
  induction l as [|f t IH]; simpl; [constructor|].
  destruct (prevalidate numberToString snippets t) as [ws pre]. simpl in IH.
  destruct (filter _ (repoSources f)) as [|a r] eqn:E; [exact IH|].
  destruct (MAX_ANCHORS_PER_FACT <? _)%nat; simpl; constructor; try exact IH.
  - unfold anchored. simpl. discriminate.
  - unfold anchored. apply (filter_nonempty (snippetAvailable numberToString snippets)).
    rewrite E. discriminate.
Qed.

Lemma prevalidate_local (l : list Fact) (v : VerificationItem) :
  In v (snd (prevalidate numberToString snippets l)) <->
  exists f, In f l
            /\ filter (snippetAvailable numberToString snippets) (repoSources f) = []
            /\ v = preInvalidated f.
Proof.
  induction l as [|f t IH]; simpl.
  - split; [intros [] | intros [f [[] _]]].
  - destruct (prevalidate numberToString snippets t) as [ws pre]. simpl in IH.
    destruct (filter _ (repoSources f)) as [|a r] eqn:E.
    + simpl. split.
      * intros [<- | Hin].
        -- exists f. repeat split; auto.
        -- apply IH in Hin. destruct Hin as [g [Hg Hrest]]. exists g. split; auto.
      * intros [g [[<- | Hg] [Hf Hv]]].
        -- left. symmetry. exact Hv.
        -- right. apply IH. exists g. auto.
    + assert (G : In v pre <->
                  exists g, In g (f :: t)
                    /\ filter (snippetAvailable numberToString snippets) (repoSources g) = []
                    /\ v = preInvalidated g).
      { rewrite IH. split.
        - intros [g [Hg Hrest]]. exists g. split; [right; exact Hg | exact Hrest].
        - intros [g [[<- | Hg] [Hf Hv]]].
          + rewrite E in Hf. discriminate.
          + exists g. auto. }
      destruct (MAX_ANCHORS_PER_FACT <? _)%nat; simpl; exact G.
Qed.

Lemma batchStep_holds (P : PayloadItem -> Prop) (st : BatchState) (item : PayloadItem) :
  batchesHold P (batches st) -> Forall P (currentBatchFacts st) -> P item ->
  batchesHold P (batches (batchStep snippets stringifyItem st item))
  /\ Forall P (currentBatchFacts (batchStep snippets stringifyItem st item)).
Proof.
  intros Hb Hc Hi. unfold batchStep.
  destruct (collectNewSnippets snippets _ _ _) as [ns tokens].
  destruct (_ && _); simpl.
  - split.
    + apply Forall_app. split; [exact Hb|]. constructor; [exact Hc | constructor].
    + constructor; [exact Hi | constructor].
  - split; [exact Hb|]. apply Forall_app. split; [exact Hc|].
    constructor; [exact Hi | constructor].
Qed.

Lemma makeBatches_holds (P : PayloadItem -> Prop) (items : list PayloadItem) :
  Forall P items -> batchesHold P (makeBatches snippets stringifyItem items).
Proof.
  intros H. unfold makeBatches.
  assert (G : forall st,
             batchesHold P (batches st) -> Forall P (currentBatchFacts st) ->
             batchesHold P (batches (fold_left (batchStep snippets stringifyItem) items st))
             /\ Forall P (currentBatchFacts (fold_left (batchStep snippets stringifyItem) items st))).
  { induction H as [|i t Hi Ht IH]; simpl; intros st Hb Hc; [split; assumption|].
    destruct (batchStep_holds P st i Hb Hc Hi) as [Hb' Hc'].
    apply IH; assumption. }
  destruct (G {| batches := []; currentBatchFacts := []; currentBatchSnippets := [];
                 currentTokens := O |}) as [Hb Hc]; try constructor.
  destruct (nonEmpty _); [|exact Hb].
  apply Forall_app. split; [exact Hb|]. constructor; [exact Hc | constructor].
Qed.

Lemma toPayload_anchors (f : Fact) :
  anchored f -> p_anchors (toPayload numberToString f) <> [].
Proof.
  unfold anchored, toPayload. simpl. destruct (repoSources f); simpl.
  - intros H. contradiction H. reflexivity.
  - intros _. discriminate.
Qed.

End VerifierRequests.

Lemma find_none_of_absent (vs : list VerificationItem) (path : string) :
  (forall v, In v vs -> v_jsonPath v <> path) ->
  find (fun v => String.eqb (v_jsonPath v) path) vs = None.
Proof.
  induction vs as [|v t IH]; simpl; intros H; [reflexivity|].
  destruct (String.eqb (v_jsonPath v) path) eqn:E.
  - apply String.eqb_eq in E. exfalso. apply (H v); [left; reflexivity | exact E].
  - apply IH. intros w Hw. apply H. right. exact Hw.
Qed.

(** C8, as stated, fails: a fact without anchors is not marked invalid; the
    pass returns it as it came, gate [OK] included, and records no
    verification for it. *)
Lemma unanchored_fact_is_not_invalidated :
  ~ (forall nts sn st inv minC facts f,
       In f facts -> repoSources f = [] ->
       exists v, In v (vr_verifications (runVerifierPass nts sn st inv minC facts))
                 /\ v_jsonPath v = jsonPath f /\ v_valid v = false).
Proof.
  intros H.
  destruct (H (fun _ => "1") (fun _ => None) (fun _ => "") (fun _ _ => []) c_0_65
              [unanchoredFact] unanchoredFact) as [v [Hin _]].
  - left. reflexivity.
  - reflexivity.
  - exact Hin.
Qed.

Lemma prevalidate_origin (nts : number -> string) (sn : string -> optional string)
    (l : list Fact) :
  Forall (fun w => anchored w /\ exists f, In f l /\ jsonPath w = jsonPath f)
         (fst (prevalidate nts sn l)).
Proof.
  induction l as [|f t IH]; simpl; [constructor|].
  destruct (prevalidate nts sn t) as [ws pre]. simpl in IH.
  assert (Hrest : Forall (fun w => anchored w
                                   /\ exists g, In g (f :: t) /\ jsonPath w = jsonPath g) ws).
  { eapply Forall_impl; [|exact IH]. intros w [Hw [g [Hg Hp]]].
    split; [exact Hw|]. exists g. split; [right; exact Hg | exact Hp]. }
  destruct (filter _ (repoSources f)) as [|a r] eqn:E; [exact Hrest|].
  destruct (MAX_ANCHORS_PER_FACT <? _)%nat; simpl; constructor; try exact Hrest.
  - split; [unfold anchored; simpl; discriminate|].
    exists f. split; [left|]; reflexivity.
  - split.
    + unfold anchored. apply (filter_nonempty (snippetAvailable nts sn)).
      rewrite E. discriminate.
    + exists f. split; [left|]; reflexivity.
Qed.

Lemma filter_anchored (facts : list Fact) (f : Fact) :
  In f (filter (fun f => nonEmpty (repoSources f)) facts)
  <-> In f facts /\ repoSources f <> [].
Proof.
  rewrite filter_In. split; intros [Hin Hne]; split; try exact Hin.
  - destruct (repoSources f); [discriminate Hne | discriminate].
  - destruct (repoSources f); [contradiction | reflexivity].
Qed.

Lemma toPayload_origin (nts : number -> string) (facts : list Fact) (w : Fact) :
  anchored w /\ (exists f, In f facts /\ jsonPath w = jsonPath f) ->
  p_anchors (toPayload nts w) <> []
  /\ exists f, In f facts /\ p_jsonPath (toPayload nts w) = jsonPath f.
Proof.
  intros [Hw Hf]. split; [now apply toPayload_anchors | exact Hf].
Qed.

Lemma find_app_absent (vs ws : list VerificationItem) (path : string) :
  (forall v, In v vs -> v_jsonPath v <> path) ->
  find (fun v => String.eqb (v_jsonPath v) path) (vs ++ ws)
  = find (fun v => String.eqb (v_jsonPath v) path) ws.
Proof.
  induction vs as [|v t IH]; simpl; intros H; [reflexivity|].
  destruct (String.eqb (v_jsonPath v) path) eqn:E.
  - apply String.eqb_eq in E. exfalso. apply (H v); [left; reflexivity | exact E].
  - apply IH. intros w Hw. apply H. right. exact Hw.
Qed.

(** C8, amended. A fact without anchors is left out of the verification:
    every item of every chunk submitted to the service carries anchors and
    stems from an input fact that has anchors, and the pass produces no
    verification of its own for it. The verifications are those that the
    pass produces itself, followed by the replies of the service, and the
    former are exactly those of the input facts that have anchors of which
    none has a readable snippet (verdict negative, confidence 0.5). Each
    fact meets the first verification that names its path; a fact without
    anchors whose path neither a reply of the service nor such an
    unreadable fact names is returned unchanged. *)
Theorem unanchored_facts_bypass_verification :
  forall nts sn st inv minC facts,
    let r := runVerifierPass nts sn st inv minC facts in
    Forall (fun b =>
              Forall (fun item =>
                        p_anchors item <> []
                        /\ exists f, In f facts /\ repoSources f <> []
                                     /\ p_jsonPath item = jsonPath f)
                     (b_facts b))
           (vr_requests r)
    /\ (exists localVerifications,
          vr_verifications r = (localVerifications ++ submit inv 0 (vr_requests r))%list
          /\ forall v, In v localVerifications <->
                       exists f, In f facts /\ unreadable nts sn f /\ v = preInvalidated f)
    /\ vr_facts r = List.map (verifyFact minC (vr_verifications r)) facts
    /\ (forall f, In f facts -> repoSources f = [] ->
          (forall g, In g facts -> unreadable nts sn g -> jsonPath g <> jsonPath f) ->
          (forall v, In v (submit inv 0 (vr_requests r)) -> v_jsonPath v <> jsonPath f) ->
          verifyFact minC (vr_verifications r) f = f /\ In f (vr_facts r)).
Proof.
  intros nts sn st inv minC facts r.
  assert (Hmain :
    Forall (fun b =>
              Forall (fun item =>
                        p_anchors item <> []
                        /\ exists f, In f facts /\ repoSources f <> []
                                     /\ p_jsonPath item = jsonPath f)
                     (b_facts b))
           (vr_requests r)
    /\ (exists localVerifications,
          vr_verifications r = (localVerifications ++ submit inv 0 (vr_requests r))%list
          /\ forall v, In v localVerifications <->
                       exists f, In f facts /\ unreadable nts sn f /\ v = preInvalidated f)
    /\ vr_facts r = List.map (verifyFact minC (vr_verifications r)) facts).
  { subst r. unfold runVerifierPass.
    destruct (filter (fun f => nonEmpty (repoSources f)) facts) as [|g l] eqn:E.
    - simpl. split; [constructor|]. split.
      + exists []. split; [reflexivity|]. intros v. split; [intros []|].
        intros [f [Hin [[Hne _] _]]].
        assert (Hf : In f (filter (fun f => nonEmpty (repoSources f)) facts))
          by (apply filter_anchored; split; assumption).
        rewrite E in Hf. exact Hf.
      + clear. induction facts as [|f t IH]; simpl; [reflexivity|]. now rewrite <- IH.
    - rewrite <- E. clear E g l. pose proof (filter_anchored facts) as Hanchored.
      pose proof (prevalidate_origin nts sn
                    (filter (fun f => nonEmpty (repoSources f)) facts)) as Hws.
      pose proof (prevalidate_local nts sn
                    (filter (fun f => nonEmpty (repoSources f)) facts)) as Hpre.
      destruct (prevalidate nts sn _) as [ws pre]. simpl in *.
      split; [|split].
      + apply makeBatches_holds. apply Forall_map.
        eapply Forall_impl; [|exact Hws]. intros w Hw.
        destruct (toPayload_origin nts _ w Hw) as [Ha [f [Hf Hp]]].
        split; [exact Ha|]. apply Hanchored in Hf. destruct Hf as [Hin Hne].
        exists f. repeat split; assumption.
      + exists pre. split; [reflexivity|]. intros v. rewrite Hpre. split.
        * intros [f [Hf [Hnone Hv]]]. apply Hanchored in Hf. destruct Hf as [Hin Hne].
          exists f. unfold unreadable. repeat split; assumption.
        * intros [f [Hin [[Hne Hnone] Hv]]]. exists f. repeat split; try assumption.
          apply Hanchored. split; assumption.
      + reflexivity. }
  destruct Hmain as [Hreq [[pre [Hlocal Hpre]] Hfacts]].
  split; [exact Hreq|]. split; [exists pre; split; assumption|]. split; [exact Hfacts|].
  intros f Hin Hnone Hothers Hreplies.
  assert (Hsame : verifyFact minC (vr_verifications r) f = f).
  { unfold verifyFact. rewrite Hlocal, find_app_absent.
    - now rewrite find_none_of_absent.
    - intros v Hv. apply Hpre in Hv. destruct Hv as [g [Hg [Hu ->]]].
      now apply Hothers. }
  split; [exact Hsame|]. rewrite Hfacts. apply in_map_iff. exists f. split; assumption.
Qed.

Lemma unanchored_facts_bypass_verification_witness :
  let r := runVerifierPass (fun _ => "1") (fun _ => None) (fun _ => "") (fun _ _ => [])
             c_0_65 [unanchoredFact; unreadableFact] in
  vr_verifications r = [preInvalidated unreadableFact]
  /\ vr_requests r = []
  /\ In unanchoredFact (vr_facts r).
Proof.
  pose proof (unanchored_facts_bypass_verification
                (fun _ => "1") (fun _ => None) (fun _ => "") (fun _ _ => [])
                c_0_65 [unanchoredFact; unreadableFact]) as [_ [_ [_ H]]].
  split; [reflexivity|]. split; [reflexivity|].
  apply (H unanchoredFact).
  - left. reflexivity.
  - reflexivity.
  - intros g Hg [Hne _]. destruct Hg as [<- | [<- | []]];
      [contradiction Hne; reflexivity | discriminate].
  - intros v [].
Defined.

Lemma anchor_invariant_witness :
  mergeCandidate "abc1234" [] overconfidentPatch = []
  /\ (exists merged,
        JsMap.get (mergeCandidate "abc1234" [("$.business.useCase", storedFact)]
                     overconfidentPatch) "$.business.useCase" = Some merged
        /\ repoSources merged = repoSources storedFact)
  /\ addFact "abc1234" [storedFact]
       {| d_jsonPath := "$.meta.title"; d_jsonPointer := "/meta/title";
          d_proposedValue := Some (VStr "T"); d_currentValue := None;
          d_anchors := None; d_confidence := c_0_95; d_sourceKind := extracted;
          d_gate := None; d_verifierNotes := None |} = [storedFact].
Proof.
  pose proof (anchor_invariant String.compare (VObj []) readmeInsights "" [] []
                "abc1234" 10%nat [] (fun _ => "1") (fun _ => None) (fun _ => "")
                (fun _ _ => []) c_0_65) as [_ [H2 [H3 H4]]].
  split; [|split].
  - apply (H2 [] overconfidentPatch "$.business.useCase"); reflexivity.
  - apply (H3 [("$.business.useCase", storedFact)] overconfidentPatch
              "$.business.useCase" storedFact); reflexivity.
  - apply H4. left. reflexivity.
Defined.

(* ===================================================================== *)
(** * Properties of the canonicalizers *)
(* ===================================================================== *)

(** C1. The canonicalizer is not idempotent on the largest Number: rounded
    to three significant digits it reads 1.80e+308, which
    [Number.parseFloat] turns into [Infinity]; the first pass returns
    [Infinity], a second pass turns it into [null]. Both files do so, on
    every host. *)
Theorem canonicalizer_overflow_breaks_idempotence :
  forall h,
    ScriptsCard.normalizeCard h (VNum MAX_VALUE) [] = Ok (VNum Infinity)
    /\ normalizeTwice (ScriptsCard.normalizeCard h) (VNum MAX_VALUE) = Ok VNull
    /\ LibCard.normalizeCard h (VNum MAX_VALUE) [] = Ok (VNum Infinity)
    /\ normalizeTwice (LibCard.normalizeCard h) (VNum MAX_VALUE) = Ok VNull
    /\ isFinite MAX_VALUE = true.
Proof. intros h. repeat split. Qed.

(** Induction on documents, the elements of an array and the values of an
    object taken as smaller. *)
Section ValueInduction.
Variable P : value -> Prop.
Hypothesis HNull : P VNull.
Hypothesis HBool : forall b, P (VBool b).
Hypothesis HNum : forall n, P (VNum n).
Hypothesis HStr : forall s, P (VStr s).
Hypothesis HArr : forall items, Forall P items -> P (VArr items).
Hypothesis HObj : forall props, Forall (fun kv => P (snd kv)) props -> P (VObj props).

Fixpoint value_induction (v : value) : P v :=
  match v with
  | VNull => HNull
  | VBool b => HBool b
  | VNum n => HNum n
  | VStr s => HStr s
  | VArr items =>
      HArr items
        ((fix go (l : list value) : Forall P l :=
            match l with
            | [] => Forall_nil P
            | x :: t => Forall_cons x (value_induction x) (go t)
            end) items)
  | VObj props =>
      HObj props
        ((fix go (l : list (string * value)) : Forall (fun kv => P (snd kv)) l :=
            match l with
            | [] => Forall_nil _
            | kv :: t => Forall_cons kv (value_induction (snd kv)) (go t)
            end) props)
  end.
End ValueInduction.

Lemma result_bool_eqb_eq (a b : result bool) : result_bool_eqb a b = true -> a = b.
Proof.
  destruct a as [x|[]], b as [y|[]]; simpl; try discriminate; try reflexivity.
  intros H. apply Bool.eqb_prop in H. subst. reflexivity.
Qed.

Lemma result_string_eqb_eq (a b : result value) : result_string_eqb a b = true -> a = b.
Proof.
  destruct a as [[]|[]], b as [[]|[]]; simpl; try discriminate; try reflexivity.
  intros H. apply String.eqb_eq in H. subst. reflexivity.
Qed.

Section SortAgreement.
Context {A : Type}.
Variables c1 c2 : A -> A -> result number.

Lemma insert_result_In (c : A -> A -> result number) (x : A) (l r : list A) :
  insert_result c x l = Ok r -> forall y, In y r -> y = x \/ In y l.
Proof.
  revert r. induction l as [|z t IH]; simpl; intros r H y Hy.
  - injection H as <-. destruct Hy as [<-|[]]. left. reflexivity.
  - destruct (sortsBefore c z x) as [[|]|e]; simpl in H; try discriminate.
    + destruct (insert_result c x t) as [r'|e]; simpl in H; try discriminate.
      injection H as <-. destruct Hy as [<-|Hy].
      * right. left. reflexivity.
      * destruct (IH r' eq_refl y Hy) as [->|Hin]; [left; reflexivity | right; right; exact Hin].
    + injection H as <-. destruct Hy as [<-|Hy]; [left; reflexivity | right; exact Hy].
Qed.

Lemma sort_result_In (c : A -> A -> result number) (l r : list A) :
  sort_result c l = Ok r -> forall y, In y r -> In y l.
Proof.
  revert r. induction l as [|x t IH]; simpl; intros r H y Hy.
  - injection H as <-. exact Hy.
  - destruct (sort_result c t) as [r'|e]; simpl in H; try discriminate.
    destruct (insert_result_In c x r' r H y Hy) as [->|Hin].
    + left. reflexivity.
    + right. apply (IH r' eq_refl). exact Hin.
Qed.

Lemma insert_result_agree (x : A) (l : list A) :
  (forall y, In y l -> sortsBefore c1 y x = sortsBefore c2 y x) ->
  insert_result c1 x l = insert_result c2 x l.
Proof.
  induction l as [|z t IH]; simpl; intros H; [reflexivity|].
  rewrite (H z (or_introl eq_refl)).
  rewrite IH; [reflexivity|]. intros y Hy. apply H. right. exact Hy.
Qed.

Lemma sort_result_agree (l : list A) :
  (forall a b, In a l -> In b l -> sortsBefore c1 a b = sortsBefore c2 a b) ->
  sort_result c1 l = sort_result c2 l.
Proof.
  induction l as [|x t IH]; simpl; intros H; [reflexivity|].
  rewrite <- IH by (intros a b Ha Hb; apply H; right; assumption).
  destruct (sort_result c1 t) as [r|e] eqn:E; simpl; [|reflexivity].
  apply insert_result_agree. intros y Hy. apply H.
  - right. apply (sort_result_In c1 t r E). exact Hy.
  - left. reflexivity.
Qed.
End SortAgreement.

Lemma comparatorsAgree_spec c1 c2 (l : list value) :
  comparatorsAgree c1 c2 l = true ->
  forall a b, In a l -> In b l -> sortsBefore c1 a b = sortsBefore c2 a b.
Proof.
  unfold comparatorsAgree. intros H a b Ha Hb.
  rewrite forallb_forall in H. specialize (H a Ha).
  rewrite forallb_forall in H. apply result_bool_eqb_eq. apply H. exact Hb.
Qed.

Lemma sortNormalized_agree (h : Host) (pathKey : string) (normalized : list value) :
  sortersAgree h pathKey normalized = true ->
  sortNormalized h (lookupSorter (Lib.ARRAY_SORTERS h) pathKey) normalized
  = sortNormalized h (lookupSorter (Scripts.arraySorters h) pathKey) normalized.
Proof.
  unfold sortersAgree, lookupSorter.
  destruct (JsMap.get (Lib.ARRAY_SORTERS h) pathKey) as [c1|];
    destruct (JsMap.get (Scripts.arraySorters h) pathKey) as [c2|];
    try discriminate; [|reflexivity].
  intros H. simpl.
  rewrite (sort_result_agree c1 c2 normalized (comparatorsAgree_spec c1 c2 normalized H)).
  reflexivity.
Qed.

Lemma mapi_result_ext {A B : Type} (f g : nat -> A -> result B) (l : list A) :
  forall i,
    Forall (fun x => forall j, f j x = g j x) l ->
    mapi_result f i l = mapi_result g i l.
Proof.
  induction l as [|x t IH]; simpl; intros i H; [reflexivity|].
  inversion H; subst. rewrite H2. rewrite (IH (S i)); [reflexivity | assumption].
Qed.

(** C10, as stated, fails on every host: the time stamp with an offset,
    taken from the test of the scripts, is rewritten by
    [scripts/src/card/deterministic.ts] and left alone by
    [lib/card/deterministic.ts]. *)
Lemma canonicalizers_differ_on_offset_timestamp :
  ~ (exists h, forall d,
       LibCard.normalizeCard h d [] = ScriptsCard.normalizeCard h d []).
Proof.
  intros [h H]. specialize (H (VStr offsetTimestamp)). vm_compute in H. discriminate.
Qed.

(** The orderings differ as well: two risks without likelihood keep their
    order in the one file and are ordered by impact in the other. *)
Lemma canonicalizers_differ_on_unrated_risks :
  forall h,
    LibCard.normalizeCard h unratedRisks [] <> ScriptsCard.normalizeCard h unratedRisks [].
Proof. intros h H. vm_compute in H. discriminate. Qed.

Lemma normalized_elements_agree (h : Host) (items : list value) (path : list string) :
  Forall (fun d => forall p, agreeable h d p = true ->
                   LibCard.normalizeCard h d p = ScriptsCard.normalizeCard h d p) items ->
  forall i,
    forallbi (fun index item => agreeable h item (path ++ [nat_to_string index])%list)
      i items = true ->
    mapi_result (fun index item =>
                   LibCard.normalizeCard h item (path ++ [nat_to_string index])%list) i items
    = mapi_result (fun index item =>
                     ScriptsCard.normalizeCard h item (path ++ [nat_to_string index])%list)
        i items.
Proof.
  induction 1 as [|x t Hx Ht IH]; simpl; intros i H; [reflexivity|].
  apply andb_true_iff in H. destruct H as [H1 H2].
  rewrite (Hx _ H1). rewrite (IH (S i) H2). reflexivity.
Qed.

Lemma normalized_entries_agree (h : Host) (props : list (string * value))
    (path : list string) :
  Forall (fun kv => forall p, agreeable h (snd kv) p = true ->
                    LibCard.normalizeCard h (snd kv) p
                    = ScriptsCard.normalizeCard h (snd kv) p) props ->
  forallb_entries (fun key child => agreeable h child (path ++ [key])%list) props = true ->
  map_entries_result (fun key v => LibCard.normalizeCard h v (path ++ [key])%list) props
  = map_entries_result (fun key v => ScriptsCard.normalizeCard h v (path ++ [key])%list)
      props.
Proof.
  induction 1 as [|[k x] t Hx Ht IH]; simpl; intros H; [reflexivity|].
  apply andb_true_iff in H. destruct H as [H1 H2].
  simpl in Hx. rewrite (Hx _ H1). rewrite (IH H2). reflexivity.
Qed.

(** C10, amended. The two canonicalizers return equal results, or throw the
    same exception, on every document that gives them no occasion to
    differ: a document in which the two timestamp detectors do the same to
    each string, and in which the comparators that the two tables register
    for the path of an array order the canonical elements of that array
    alike. Objects, numbers, booleans, [null], the paths and the arrays
    without a registered comparator are treated alike by both. *)
Theorem canonicalizers_agree_where_detectors_and_comparators_agree :
  forall h d path,
    agreeable h d path = true ->
    LibCard.normalizeCard h d path = ScriptsCard.normalizeCard h d path.
Proof.
  intros h d. induction d as [| b | n | s | items IH | props IH] using value_induction;
    intros path H; try reflexivity.
  - simpl in *. apply result_string_eqb_eq. exact H.
  - simpl in H. apply andb_true_iff in H. destruct H as [H1 H2].
    simpl.
    rewrite (normalized_elements_agree h items path IH O H1).
    destruct (mapi_result _ O items) as [normalized|e]; simpl; [|reflexivity].
    apply sortNormalized_agree. exact H2.
  - simpl in H. simpl.
    rewrite (normalized_entries_agree h props path IH H). reflexivity.
Qed.

Lemma canonicalizers_agree_where_detectors_and_comparators_agree_witness :
  LibCard.normalizeCard exampleHost testCard []
  = ScriptsCard.normalizeCard exampleHost testCard [].
Proof.
  apply (canonicalizers_agree_where_detectors_and_comparators_agree exampleHost testCard []).
  vm_compute. reflexivity.
Defined.

(** Where the two detectors do the same: on a string in the format of
    [ISO_REGEX] with the separator [T] that is a date, which both rewrite,
    and on a string outside that format that is no date, or has no [T],
    which both leave. *)
Lemma detectorsAgree_on_time_stamps (h : Host) (s : string) (t : Z) :
  ISO_REGEX_test s = true -> includesT s = true -> Date_parse h s = Some t ->
  detectorsAgree h s = true.
Proof.
  intros Hregex HT Hparse.
  unfold detectorsAgree, LibCard.normalizeString, ScriptsCard.normalizeString,
    newDate_toISOString.
  rewrite Hregex, Hparse, HT. simpl. apply String.eqb_refl.
Qed.

Lemma detectorsAgree_on_other_strings (h : Host) (s : string) :
  ISO_REGEX_test s = false -> Date_parse h s = None \/ includesT s = false ->
  detectorsAgree h s = true.
Proof.
  intros Hregex H.
  unfold detectorsAgree, LibCard.normalizeString, ScriptsCard.normalizeString.
  rewrite Hregex. destruct H as [H|H].
  - rewrite H. simpl. apply String.eqb_refl.
  - rewrite H. destruct (Date_parse h s); simpl; apply String.eqb_refl.
Qed.

(* ===================================================================== *)
(** * The apply engine *)
(* ===================================================================== *)

(** ** Equality of documents *)



(** ** The properties of an object *)

Lemma distinct_NoDup (keys : list string) : distinct keys = true -> NoDup keys.
Proof.
  induction keys as [|k r IH]; simpl; intros H.
  - constructor.
  - apply andb_prop in H as [Hk Hr]. constructor.
    + intros Hin. unfold includes_string in Hk.
      apply negb_true_iff in Hk.
      assert (existsb (String.eqb k) r = true) as E.
      { apply existsb_exists. exists k. split; [exact Hin | apply String.eqb_refl]. }
      congruence.
    + apply IH, Hr.
Qed.

Lemma lookup_prop_In (l : list (string * value)) (k : string) (v : value) :
  lookup_prop l k = Some v -> In (k, v) l.
Proof.
  induction l as [|[k' v'] r IH]; simpl; [discriminate|].
  destruct (String.eqb k' k) eqn:E.
  - apply String.eqb_eq in E. intros [= <-]. left. now subst.
  - intros H. right. apply IH, H.
Qed.

Lemma lookup_prop_None (l : list (string * value)) (k : string) :
  lookup_prop l k = None <-> ~ In k (List.map fst l).
Proof.
  induction l as [|[k' v'] r IH]; simpl.
  - split; [intros _ [] | reflexivity].
  - destruct (String.eqb k' k) eqn:E.
    + apply String.eqb_eq in E. split; [discriminate|]. intros H. exfalso. apply H. now left.
    + apply String.eqb_neq in E. rewrite IH. split.
      * intros H [H1|H1]; [congruence | now apply H].
      * intros H H1. apply H. now right.
Qed.

Lemma In_lookup_prop (l : list (string * value)) (k : string) (v : value) :
  NoDup (List.map fst l) -> In (k, v) l -> lookup_prop l k = Some v.
Proof.
  induction l as [|[k' v'] r IH]; simpl; [intros _ []|].
  intros Hnd [H|H].
  - injection H as -> ->. now rewrite String.eqb_refl.
  - inversion Hnd as [|? ? Hnot Hr]; subst.
    destruct (String.eqb k' k) eqn:E.
    + apply String.eqb_eq in E. subst. exfalso. apply Hnot.
      apply in_map_iff. exists (k, v). split; [reflexivity | exact H].
    + apply IH; assumption.
Qed.

Lemma hasProperty_lookup (l : list (string * value)) (k : string) :
  hasProperty l k = isSome (lookup_prop l k).
Proof.
  unfold hasProperty. induction l as [|[k' v'] r IH]; simpl; [reflexivity|].
  destruct (String.eqb k' k); simpl; [reflexivity | exact IH].
Qed.

Lemma replaceProperty_keys (l : list (string * value)) (k : string) (v : value) :
  List.map fst (replaceProperty l k v) = List.map fst l.
Proof.
  induction l as [|[k' v'] r IH]; simpl; [reflexivity|].
  destruct (String.eqb k' k); simpl; [reflexivity | now rewrite IH].
Qed.

Lemma replaceProperty_same (l : list (string * value)) (k : string) (v : value) :
  lookup_prop l k = Some v -> replaceProperty l k v = l.
Proof.
  induction l as [|[k' v'] r IH]; simpl; [reflexivity|].
  destruct (String.eqb k' k).
  - now intros [= ->].
  - intros H. now rewrite IH.
Qed.

Lemma lookup_replaceProperty_isSome (l : list (string * value)) (k k' : string)
    (v : value) :
  isSome (lookup_prop (replaceProperty l k v) k') = isSome (lookup_prop l k').
Proof.
  rewrite <- !hasProperty_lookup.
  induction l as [|[k1 v1] r IH]; simpl; [reflexivity|].
  destruct (String.eqb k1 k); simpl; [reflexivity | now rewrite IH].
Qed.

Lemma insertProperty_In (l : list (string * value)) (k : string) (v : value)
    (x : string * value) :
  In x (insertProperty l k v) <-> x = (k, v) \/ In x l.
Proof.
  induction l as [|[k' v'] r IH].
  - simpl. destruct (propertyIndex k); simpl; intuition.
  - simpl. destruct (propertyIndex k) as [n|].
    + destruct (propertyIndex k') as [n'|].
      * destruct (n' <? n)%N; simpl; [rewrite IH|]; intuition.
      * simpl. intuition.
    + change (In x (((k', v') :: r) ++ [(k, v)])%list <-> x = (k, v) \/ In x ((k', v') :: r)).
      rewrite in_app_iff. simpl. intuition.
Qed.

Lemma insertProperty_keys_perm (l : list (string * value)) (k : string) (v : value) :
  Permutation (k :: List.map fst l) (List.map fst (insertProperty l k v)).
Proof.
  induction l as [|[k' v'] r IH].
  - simpl. destruct (propertyIndex k); simpl; apply Permutation_refl.
  - simpl. destruct (propertyIndex k) as [n|].
    + destruct (propertyIndex k') as [n'|].
      * destruct (n' <? n)%N; simpl; [|apply Permutation_refl].
        eapply Permutation_trans; [apply perm_swap|]. apply perm_skip, IH.
      * simpl. apply Permutation_refl.
    + change (Permutation ([k] ++ List.map fst ((k', v') :: r))
                (List.map fst (((k', v') :: r) ++ [(k, v)])))%list.
      rewrite map_app. apply Permutation_app_comm.
Qed.

Lemma setProperty_In (l : list (string * value)) (k : string) (v : value)
    (x : string * value) :
  In x (setProperty l k v) -> x = (k, v) \/ In x l.
Proof.
  unfold setProperty. destruct (hasProperty l k).
  - induction l as [|[k' v'] r IH]; simpl; [intros []|].
    destruct (String.eqb k' k) eqn:E; simpl.
    + apply String.eqb_eq in E. subst. intuition.
    + intuition.
  - apply insertProperty_In.
Qed.

Lemma setProperty_NoDup (l : list (string * value)) (k : string) (v : value) :
  NoDup (List.map fst l) -> NoDup (List.map fst (setProperty l k v)).
Proof.
  intros Hnd. unfold setProperty. destruct (hasProperty l k) eqn:E.
  - now rewrite replaceProperty_keys.
  - eapply Permutation_NoDup; [apply insertProperty_keys_perm|].
    constructor; [|exact Hnd].
    rewrite hasProperty_lookup in E. apply lookup_prop_None.
    destruct (lookup_prop l k); [discriminate | reflexivity].
Qed.

Lemma fold_setProperty_NoDup (entries acc : list (string * value)) :
  NoDup (List.map fst acc) ->
  NoDup (List.map fst
           (fold_left (fun props kv => setProperty props (fst kv) (snd kv)) entries acc)).
Proof.
  revert acc. induction entries as [|[k v] r IH]; simpl; intros acc H; [exact H|].
  apply IH, setProperty_NoDup, H.
Qed.

Lemma fold_setProperty_In (entries acc : list (string * value)) (x : string * value) :
  In x (fold_left (fun props kv => setProperty props (fst kv) (snd kv)) entries acc) ->
  In x entries \/ In x acc.
Proof.
  revert acc. induction entries as [|[k v] r IH]; simpl; intros acc H; [now right|].
  apply IH in H as [H|H]; [now left; right|].
  apply setProperty_In in H as [H|H]; [left; left; now symmetry | now right].
Qed.

(** ** Replacing the value of a property *)

Lemma setAll_keys (k : string) (w : value) (l : list (string * value)) :
  List.map fst (setAll k w l) = List.map fst l.
Proof.
  unfold setAll. rewrite map_map. apply map_ext. intros [k' v']. simpl.
  now destruct (String.eqb k' k).
Qed.

Lemma setAll_absent (k : string) (w : value) (l : list (string * value)) :
  ~ In k (List.map fst l) -> setAll k w l = l.
Proof.
  induction l as [|[k' v'] r IH]; simpl; intros H; [reflexivity|].
  destruct (String.eqb k' k) eqn:E.
  - apply String.eqb_eq in E. exfalso. apply H. now left.
  - f_equal. apply IH. intros Hin. apply H. now right.
Qed.

Lemma replaceProperty_setAll (k : string) (w : value) (l : list (string * value)) :
  NoDup (List.map fst l) -> replaceProperty l k w = setAll k w l.
Proof.
  induction l as [|[k' v'] r IH]; simpl; intros Hnd; [reflexivity|].
  inversion Hnd as [|? ? Hnot Hr]; subst.
  destruct (String.eqb k' k) eqn:E.
  - apply String.eqb_eq in E. subst. f_equal. symmetry. now apply setAll_absent.
  - f_equal. apply IH, Hr.
Qed.

Section StableSortOfImages.
Context {A : Type}.
Variable before : A -> A -> bool.
Variable g : A -> A.
Hypothesis before_g : forall a b, before (g a) (g b) = before a b.

Lemma insert_stable_map (x : A) (l : list A) :
  insert_stable before (g x) (List.map g l) = List.map g (insert_stable before x l).
Proof.
  induction l as [|y t IH]; simpl; [reflexivity|].
  rewrite before_g. destruct (before y x); simpl; [now rewrite IH | reflexivity].
Qed.

Lemma sort_stable_map (l : list A) :
  sort_stable before (List.map g l) = List.map g (sort_stable before l).
Proof.
  induction l as [|x t IH]; simpl; [reflexivity|].
  rewrite IH. apply insert_stable_map.
Qed.

End StableSortOfImages.

Lemma sortEntries_setAll (h : Host) (k : string) (w : value)
    (l : list (string * value)) :
  sortEntries h (setAll k w l) = setAll k w (sortEntries h l).
Proof.
  unfold sortEntries, js_sort, setAll. apply sort_stable_map.
  intros [ka va] [kb vb]. simpl.
  destruct (String.eqb ka k), (String.eqb kb k); reflexivity.
Qed.

Lemma hasProperty_setAll (k : string) (w : value) (l : list (string * value))
    (k' : string) :
  hasProperty (setAll k w l) k' = hasProperty l k'.
Proof.
  induction l as [|[k1 v1] r IH]; simpl; [reflexivity|].
  rewrite IH. now destruct (String.eqb k1 k).
Qed.

Lemma replaceProperty_in_setAll (k : string) (w : value) (l : list (string * value))
    (k' : string) (v' : value) :
  replaceProperty (setAll k w l) k' (if String.eqb k' k then w else v')
  = setAll k w (replaceProperty l k' v').
Proof.
  induction l as [|[k1 v1] r IH]; simpl; [reflexivity|].
  destruct (String.eqb k1 k') eqn:E1.
  - apply String.eqb_eq in E1. subst k1.
    destruct (String.eqb k' k) eqn:E; simpl; rewrite ?String.eqb_refl, ?E; simpl;
      rewrite ?E; reflexivity.
  - destruct (String.eqb k1 k) eqn:E; simpl; rewrite E1; simpl; rewrite ?E;
      now rewrite IH.
Qed.

Lemma insertProperty_last (l : list (string * value)) (k : string) (v : value) :
  propertyIndex k = None -> insertProperty l k v = (l ++ [(k, v)])%list.
Proof. intros H. destruct l as [|[k' v'] r]; simpl; now rewrite H. Qed.

Lemma insertProperty_in_setAll (k : string) (w : value) (l : list (string * value))
    (k' : string) (v' : value) :
  insertProperty (setAll k w l) k' (if String.eqb k' k then w else v')
  = setAll k w (insertProperty l k' v').
Proof.
  assert (forall v0, (if String.eqb k' k then (k', w) else (k', v0))
                     = (k', if String.eqb k' k then w else v0)) as Hnew.
  { intros v0. now destruct (String.eqb k' k). }
  destruct (propertyIndex k') as [n|] eqn:En;
    [|rewrite !insertProperty_last by exact En; unfold setAll; rewrite map_app; simpl;
      now rewrite Hnew].
  induction l as [|[k1 v1] r IH].
  - simpl. rewrite En. simpl. now rewrite Hnew.
  - simpl. rewrite En.
    + assert (fst (if String.eqb k1 k then (k1, w) else (k1, v1)) = k1) as Hk
        by now destruct (String.eqb k1 k).
      destruct (if String.eqb k1 k then (k1, w) else (k1, v1)) as [k2 v2] eqn:E2.
      simpl in Hk. subst k2.
      destruct (propertyIndex k1) as [n'|].
      * destruct (n' <? n)%N; simpl.
        -- rewrite IH. now rewrite <- E2.
        -- now rewrite Hnew, <- E2.
      * simpl. now rewrite Hnew, <- E2.
Qed.

Lemma setProperty_in_setAll (k : string) (w : value) (l : list (string * value))
    (k' : string) (v' : value) :
  setProperty (setAll k w l) k' (if String.eqb k' k then w else v')
  = setAll k w (setProperty l k' v').
Proof.
  unfold setProperty. rewrite hasProperty_setAll.
  destruct (hasProperty l k').
  - apply replaceProperty_in_setAll.
  - apply insertProperty_in_setAll.
Qed.

Lemma fold_setProperty_setAll (k : string) (w : value)
    (entries acc : list (string * value)) :
  fold_left (fun props kv => setProperty props (fst kv) (snd kv))
            (setAll k w entries) (setAll k w acc)
  = setAll k w (fold_left (fun props kv => setProperty props (fst kv) (snd kv))
                          entries acc).
Proof.
  revert acc. induction entries as [|[k' v'] r IH]; simpl; intros acc; [reflexivity|].
  rewrite <- IH. f_equal.
  destruct (String.eqb k' k) eqn:E; simpl.
  - rewrite <- (setProperty_in_setAll k w acc k' v'). now rewrite E.
  - rewrite <- (setProperty_in_setAll k w acc k' v'). now rewrite E.
Qed.

(** The object built from sorted entries, one of which gets another
    value. *)
Lemma fromEntries_replaceProperty (h : Host) (entries ys : list (string * value))
    (k : string) (w : value) :
  NoDup (List.map fst entries) ->
  fromEntries (sortEntries h entries) = VObj ys ->
  fromEntries (sortEntries h (replaceProperty entries k w))
  = VObj (replaceProperty ys k w).
Proof.
  intros Hnd Hys. rewrite (replaceProperty_setAll k w entries Hnd).
  rewrite sortEntries_setAll. unfold fromEntries in *.
  injection Hys as Hys.
  change (@nil (string * value)) with (setAll k w []) at 1.
  rewrite fold_setProperty_setAll, Hys. f_equal. symmetry.
  apply replaceProperty_setAll. rewrite <- Hys.
  apply fold_setProperty_NoDup. constructor.
Qed.

(** ** The canonical form of an object *)

Section EntriesOfAnObject.
Variable f : string -> value -> result value.

Lemma map_entries_keys (l es : list (string * value)) :
  map_entries_result f l = Ok es -> List.map fst es = List.map fst l.
Proof.
  revert es. induction l as [|[k x] r IH]; simpl; intros es.
  - now intros [= <-].
  - destruct (f k x) as [y|e]; simpl; [|discriminate].
    destruct (map_entries_result f r) as [es'|e]; simpl; [|discriminate].
    intros [= <-]. simpl. f_equal. now apply IH.
Qed.

Lemma map_entries_In (l es : list (string * value)) (k : string) (w : value) :
  map_entries_result f l = Ok es -> In (k, w) es ->
  exists x, In (k, x) l /\ f k x = Ok w.
Proof.
  revert es. induction l as [|[k' x] r IH]; simpl; intros es.
  - intros [= <-] [].
  - destruct (f k' x) as [y|e] eqn:Ey; simpl; [|discriminate].
    destruct (map_entries_result f r) as [es'|e]; simpl; [|discriminate].
    intros [= <-] [H|H].
    + injection H as -> ->. exists x. split; [now left | exact Ey].
    + destruct (IH es' eq_refl H) as [x' [Hin Hx']]. exists x'. split; [now right | exact Hx'].
Qed.

Lemma map_entries_replace (l es : list (string * value)) (k : string) (x' : value) :
  map_entries_result f l = Ok es ->
  isSome (lookup_prop l k) = true ->
  map_entries_result f (replaceProperty l k x')
  = (w <- f k x' ;; Ok (replaceProperty es k w)).
Proof.
  revert es. induction l as [|[k' x] r IH]; simpl; intros es; [discriminate 2|].
  destruct (f k' x) as [y|e] eqn:Ey; simpl; [|discriminate].
  destruct (map_entries_result f r) as [es'|e] eqn:Er; simpl; [|discriminate].
  intros [= <-]. simpl. destruct (String.eqb k' k) eqn:E.
  - intros _. apply String.eqb_eq in E. subst k'. simpl.
    rewrite Er. destruct (f k x'); reflexivity.
  - intros H. simpl. rewrite Ey. simpl. rewrite (IH es' eq_refl H).
    destruct (f k x'); reflexivity.
Qed.

End EntriesOfAnObject.

Lemma normalizeCard_object_inv (h : Host) (d : value) (path : list string)
    (ys : list (string * value)) :
  ScriptsCard.normalizeCard h d path = Ok (VObj ys) ->
  exists ps entries,
    d = VObj ps
    /\ map_entries_result
         (fun key child => ScriptsCard.normalizeCard h child (path ++ [key])%list) ps
       = Ok entries
    /\ fromEntries (sortEntries h entries) = VObj ys.
Proof.
  destruct d as [| b | n | s | items | ps]; simpl; try discriminate.
  - unfold normalizeNumber. destruct (negb (isFinite n)); [discriminate|].
    destruct (eqb n zero); discriminate.
  - unfold ScriptsCard.normalizeString. destruct (Date_parse h s); [|discriminate].
    destruct (includesT s); discriminate.
  - destruct (mapi_result _ 0 items) as [normalized|e]; simpl; [|discriminate].
    unfold sortNormalized.
    destruct (lookupSorter _ _) as [c|name|]; simpl; try discriminate.
    + destruct (sort_result c normalized); simpl; discriminate.
    + destruct (h_sortWithInherited h name normalized); simpl; discriminate.
  - destruct (map_entries_result _ ps) as [entries|e] eqn:E; simpl; [|discriminate].
    intros H. exists ps, entries. split; [reflexivity|]. split; [exact E|].
    congruence.
Qed.

(** The canonical form of an object, one member of which gets another
    value: that of the object, with the canonical form of the value. *)
Lemma normalizeCard_replaceProperty (h : Host) (ps ys : list (string * value))
    (path : list string) (k : string) (x' : value) :
  NoDup (List.map fst ps) ->
  ScriptsCard.normalizeCard h (VObj ps) path = Ok (VObj ys) ->
  isSome (lookup_prop ps k) = true ->
  ScriptsCard.normalizeCard h (VObj (replaceProperty ps k x')) path
  = (w <- ScriptsCard.normalizeCard h x' (path ++ [k])%list ;;
     Ok (VObj (replaceProperty ys k w))).
Proof.
  intros Hnd HN Hk. apply normalizeCard_object_inv in HN as (ps' & entries & Hps & He & Hys).
  injection Hps as <-. simpl.
  rewrite (map_entries_replace _ ps entries k x' He Hk).
  destruct (ScriptsCard.normalizeCard h x' (path ++ [k])%list) as [w|e]; simpl;
    [|reflexivity].
  f_equal. apply fromEntries_replaceProperty; [|exact Hys].
  now rewrite (map_entries_keys _ ps entries He).
Qed.

(** A member of the canonical form is the canonical form of the member. *)
Lemma normalizeCard_member (h : Host) (ps ys : list (string * value))
    (path : list string) (k : string) (cy : value) :
  NoDup (List.map fst ps) ->
  ScriptsCard.normalizeCard h (VObj ps) path = Ok (VObj ys) ->
  lookup_prop ys k = Some cy ->
  exists x, lookup_prop ps k = Some x
            /\ ScriptsCard.normalizeCard h x (path ++ [k])%list = Ok cy.
Proof.
  intros Hnd HN Hk. apply normalizeCard_object_inv in HN as (ps' & entries & Hps & He & Hys).
  injection Hps as <-.
  apply lookup_prop_In in Hk.
  unfold fromEntries in Hys. injection Hys as Hys. rewrite <- Hys in Hk.
  apply fold_setProperty_In in Hk as [Hk|[]].
  unfold sortEntries in Hk. apply js_sort_In in Hk.
  destruct (map_entries_In _ ps entries k cy He Hk) as [x [Hin Hx]].
  exists x. split; [|exact Hx]. now apply In_lookup_prop.
Qed.

(** ** Writing a member that the canonical card holds *)

Lemma wellFormed_members (l : list (string * value)) :
  (fix go (l : list (string * value)) : bool :=
     match l with
     | [] => true
     | (_, x) :: t => wellFormed x && go t
     end) l = true <->
  (forall k x, In (k, x) l -> wellFormed x = true).
Proof.
  induction l as [|[k x] r IH].
  - split; [intros _ ? ? [] | reflexivity].
  - rewrite andb_true_iff, IH. split.
    + intros [Hx Hr] k' x' [H|H]; [now injection H as -> -> | eapply Hr, H].
    + intros H. split; [apply (H k x); now left|].
      intros k' x' Hin. apply (H k' x'). now right.
Qed.

Lemma wellFormed_object (ps : list (string * value)) :
  wellFormed (VObj ps) = true <->
  NoDup (List.map fst ps) /\ (forall k x, In (k, x) ps -> wellFormed x = true).
Proof.
  simpl. rewrite andb_true_iff, wellFormed_members. split.
  - intros [H1 H2]. split; [now apply distinct_NoDup | exact H2].
  - intros [H1 H2]. split; [|exact H2].
    clear H2. induction H1 as [|k r Hnot _ IH]; simpl; [reflexivity|].
    rewrite IH, andb_true_r. apply negb_true_iff.
    destruct (includes_string r k) eqn:E; [|reflexivity].
    unfold includes_string in E. apply existsb_exists in E as [k' [Hin Hk]].
    apply String.eqb_eq in Hk. now subst.
Qed.

Lemma replaceProperty_In (l : list (string * value)) (k : string) (v : value)
    (x : string * value) :
  In x (replaceProperty l k v) -> x = (k, v) \/ In x l.
Proof.
  induction l as [|[k' v'] r IH]; simpl; [intros []|].
  destruct (String.eqb k' k) eqn:E; simpl.
  - apply String.eqb_eq in E. subst. intuition.
  - intuition.
Qed.

Lemma wellFormed_replaceProperty (ps : list (string * value)) (k : string) (x : value) :
  wellFormed (VObj ps) = true -> wellFormed x = true ->
  wellFormed (VObj (replaceProperty ps k x)) = true.
Proof.
  rewrite !wellFormed_object. intros [Hnd Hall] Hx. split.
  - now rewrite replaceProperty_keys.
  - intros k' x' Hin. apply replaceProperty_In in Hin as [H|H].
    + now injection H as -> ->.
    + eapply Hall, H.
Qed.

(** The operation [add] on a member that the canonical form of the
    document holds, in an object reached through objects: the member is
    replaced in place, and the canonical form of the document changes in
    that member alone. *)
Lemma addAt_in_place (h : Host) (v : value) (key : string) :
  forall (parents : list string) (doc canon : value) (path : list string),
    wellFormed doc = true ->
    ScriptsCard.normalizeCard h doc path = Ok canon ->
    isSome (resolveMember canon parents key) = true ->
    exists doc',
      addAt doc parents key v = Applied doc'
      /\ (wellFormed v = true -> wellFormed doc' = true)
      /\ ScriptsCard.normalizeCard h doc' path
         = (w <- ScriptsCard.normalizeCard h v (path ++ parents ++ [key])%list ;;
            Ok (writeMember canon parents key w)).
Proof.
  induction parents as [|t rest IH]; intros doc canon path Hwf HN Hres.
  - destruct canon as [| | | | |ys]; try discriminate Hres. simpl in Hres.
    destruct (normalizeCard_object_inv h doc path ys HN) as (ps & _ & -> & _).
    pose proof (proj1 (wellFormed_object ps) Hwf) as [Hnd _].
    destruct (lookup_prop ys key) as [held|] eqn:Eheld; [|discriminate].
    destruct (normalizeCard_member h ps ys path key held Hnd HN Eheld) as (x & Hx & _).
    exists (VObj (replaceProperty ps key v)). split; [|split].
    + simpl. now rewrite hasProperty_lookup, Hx.
    + intros Hv. now apply wellFormed_replaceProperty.
    + simpl. apply normalizeCard_replaceProperty; [exact Hnd | exact HN |].
      now rewrite Hx.
  - destruct canon as [| | | | |ys]; try discriminate Hres. simpl in Hres.
    destruct (normalizeCard_object_inv h doc path ys HN) as (ps & _ & -> & _).
    pose proof (proj1 (wellFormed_object ps) Hwf) as [Hnd Hall].
    destruct (lookup_prop ys t) as [cy|] eqn:Ecy; [|discriminate].
    destruct (normalizeCard_member h ps ys path t cy Hnd HN Ecy) as (child & Hchild & HNc).
    assert (wellFormed child = true) as Hwfc.
    { apply (Hall t). now apply lookup_prop_In. }
    destruct (IH child cy (path ++ [t])%list Hwfc HNc Hres) as (child' & Hadd & Hwf' & HN').
    exists (VObj (replaceProperty ps t child')). split; [|split].
    + simpl. rewrite Hchild, Hadd. reflexivity.
    + intros Hv. apply wellFormed_replaceProperty; [exact Hwf | now apply Hwf'].
    + rewrite (normalizeCard_replaceProperty h ps ys path t child' Hnd HN)
        by now rewrite Hchild.
      rewrite HN'. rewrite <- app_assoc. simpl.
      destruct (ScriptsCard.normalizeCard h v (path ++ t :: rest ++ [key])%list);
        simpl; [|reflexivity].
      now rewrite Ecy.
Qed.

Lemma writeMember_held (parents : list string) (key : string) :
  forall (canon held : value),
    resolveMember canon parents key = Some held ->
    writeMember canon parents key held = canon.
Proof.
  induction parents as [|t rest IH]; intros canon held H;
    destruct canon as [| | | | |ys]; try discriminate H; simpl in *.
  - now rewrite replaceProperty_same.
  - destruct (lookup_prop ys t) as [cy|] eqn:E; [|reflexivity].
    rewrite (IH cy held H). now rewrite replaceProperty_same.
Qed.

(** ** The operations that write what the card holds *)

Lemma normalizeString_ok (h : Host) (s : string) :
  exists s', ScriptsCard.normalizeString h s = Ok (VStr s').
Proof.
  unfold ScriptsCard.normalizeString. destruct (Date_parse h s); [|now exists s].
  destruct (includesT s); eexists; reflexivity.
Qed.



Section SettledOperations.
Variable h : Host.
Variable canon : value.



End SettledOperations.

Lemma applyPatch_app (a b : list Operation) :
  forall doc,
    applyPatch doc (a ++ b)
    = (r <- applyPatch doc a ;;
       r' <- applyPatch (fst r) b ;;
       Ok (fst r', (snd r ++ snd r')%list)).
Proof.
  induction a as [|op rest IH]; intros doc; simpl.
  - destruct (applyPatch doc b) as [[d f]|e]; reflexivity.
  - destruct (applyOperation doc op) as [doc'| |]; [| |reflexivity];
      rewrite IH.
    + destruct (applyPatch doc' rest) as [[d f]|e]; simpl; [|reflexivity].
      destruct (applyPatch d b) as [[d' f']|e]; reflexivity.
    + destruct (applyPatch doc rest) as [[d f]|e]; simpl; [|reflexivity].
      destruct (applyPatch d b) as [[d' f']|e]; reflexivity.
Qed.

(** The operations that close the patch, on a document of canonical form
    [canon]. *)
Lemma closingOperations_restamp (h : Host) (proposal : Proposal) (applyNow : string)
    (doc canon : value) :
  wellFormed doc = true ->
  ScriptsCard.normalizeCard h doc [] = Ok canon ->
  isSome (resolveMember canon ["provenance"] "lastGeneratedAt") = true ->
  isSome (resolveMember canon [] "stakeholderNotes") = true ->
  exists doc' flags,
    applyPatch doc (closingOperations proposal applyNow) = Ok (doc', flags)
    /\ existsb (fun refused : bool => refused) flags = false
    /\ ScriptsCard.normalizeCard h doc' [] = restamped h proposal canon applyNow.
Proof.
  intros Hwf HN Hstamp Hnotes.
  destruct (addAt_in_place h (VStr applyNow) "lastGeneratedAt" ["provenance"] doc canon []
              Hwf HN Hstamp) as (doc1 & Hadd1 & Hwf1 & HN1).
  specialize (Hwf1 eq_refl). unfold restamped.
  change (ScriptsCard.normalizeCard h (VStr applyNow)
            ([] ++ ["provenance"] ++ ["lastGeneratedAt"])%list)
    with (ScriptsCard.normalizeString h applyNow) in HN1.
  change (ScriptsCard.normalizeCard h (VStr applyNow) ["provenance"; "lastGeneratedAt"])
    with (ScriptsCard.normalizeString h applyNow).
  destruct (normalizeString_ok h applyNow) as [stamp Hs]. rewrite Hs in HN1 |- *.
  cbn [bind] in HN1 |- *.
  assert (applyOperation doc
            {| op_path := "/provenance/lastGeneratedAt";
               op_value := Some (VStr applyNow) |} = Applied doc1) as Hop1.
  { unfold applyOperation.
    change (pointerOf "/provenance/lastGeneratedAt")
      with (Some ["provenance"; "lastGeneratedAt"]).
    exact Hadd1. }
  unfold closingOperations.
  set (stamped := writeMember canon ["provenance"] "lastGeneratedAt" (VStr stamp)) in *.
  destruct (prop_notes proposal) as [[|n notes]|].
  - exists doc1, [false]. cbn [applyPatch]. rewrite Hop1. cbn. auto.
  - assert (isSome (resolveMember stamped [] "stakeholderNotes") = true) as Hnotes'.
    { unfold stamped. destruct canon as [| | | | |ys]; try discriminate Hnotes.
      simpl in *. destruct (lookup_prop ys "provenance"); [|exact Hnotes].
      now rewrite lookup_replaceProperty_isSome. }
    destruct (addAt_in_place h (VObj (n :: notes)) "stakeholderNotes" [] doc1 stamped []
                Hwf1 HN1 Hnotes') as (doc2 & Hadd2 & _ & HN2).
    exists doc2, [false; false]. cbn [applyPatch]. rewrite Hop1.
    assert (applyOperation doc1
              {| op_path := "/stakeholderNotes";
                 op_value := Some (VObj (n :: notes)) |} = Applied doc2) as Hop2.
    { unfold applyOperation.
      change (pointerOf "/stakeholderNotes") with (Some ["stakeholderNotes"]).
      exact Hadd2. }
    rewrite Hop2. cbn. split; [reflexivity|]. split; [reflexivity|].
    exact HN2.
  - exists doc1, [false]. cbn [applyPatch]. rewrite Hop1. cbn. auto.
Qed.

(** ** The patch of a run on a card that holds the facts *)


Section SettledRun.
Variable stringToPath : string -> list string.
Variable validate : value -> list string.
Variable h : Host.
Variables card canon : value.









End SettledRun.

(** ** The provenance index of a second run *)

Lemma lookup_app_absent (l : list (string * value)) (k k' : string) (v : value) :
  lookup_prop l k = None ->
  lookup_prop (l ++ [(k, v)]) k' = if String.eqb k k' then Some v else lookup_prop l k'.
Proof.
  induction l as [|[k1 v1] r IH]; simpl; [reflexivity|].
  destruct (String.eqb k1 k) eqn:E1; [discriminate|]. intros H.
  rewrite (IH H). destruct (String.eqb k1 k') eqn:E2; [|reflexivity].
  apply String.eqb_eq in E2. subst k1. now rewrite String.eqb_sym, E1.
Qed.

Lemma lookup_insertProperty (l : list (string * value)) (k k' : string) (v : value) :
  lookup_prop l k = None ->
  lookup_prop (insertProperty l k v) k'
  = if String.eqb k k' then Some v else lookup_prop l k'.
Proof.
  destruct (propertyIndex k) as [n|] eqn:En;
    [|intros H; rewrite insertProperty_last by exact En; now apply lookup_app_absent].
  induction l as [|[k1 v1] r IH]; intros H.
  - simpl. now rewrite En.
  - simpl in H. destruct (String.eqb k1 k) eqn:E1; [discriminate|].
    simpl. rewrite En.
    destruct (propertyIndex k1) as [n'|]; [destruct (n' <? n)%N|]; simpl;
      try reflexivity.
    rewrite (IH H). destruct (String.eqb k1 k') eqn:E2; [|reflexivity].
    apply String.eqb_eq in E2. subst k1. now rewrite String.eqb_sym, E1.
Qed.

Lemma lookup_replaceProperty (l : list (string * value)) (k k' : string) (v : value) :
  isSome (lookup_prop l k) = true ->
  lookup_prop (replaceProperty l k v) k'
  = if String.eqb k k' then Some v else lookup_prop l k'.
Proof.
  induction l as [|[k1 v1] r IH]; simpl; [discriminate|].
  destruct (String.eqb k1 k) eqn:E1; simpl.
  - intros _. apply String.eqb_eq in E1. subst k1. now destruct (String.eqb k k').
  - intros H. rewrite (IH H). destruct (String.eqb k1 k') eqn:E2; [|reflexivity].
    apply String.eqb_eq in E2. subst k1. now rewrite String.eqb_sym, E1.
Qed.

Lemma lookup_setProperty (l : list (string * value)) (k k' : string) (v : value) :
  lookup_prop (setProperty l k v) k'
  = if String.eqb k k' then Some v else lookup_prop l k'.
Proof.
  unfold setProperty. rewrite hasProperty_lookup.
  destruct (lookup_prop l k) eqn:E; simpl.
  - apply lookup_replaceProperty. now rewrite E.
  - now apply lookup_insertProperty.
Qed.

Lemma fold_setProperty_absent (entries : list (string * value)) (k : string) :
  forall acc,
    ~ In k (List.map fst entries) ->
    lookup_prop
      (fold_left (fun props kv => setProperty props (fst kv) (snd kv)) entries acc) k
    = lookup_prop acc k.
Proof.
  induction entries as [|[k1 v1] r IH]; intros acc Hnot; [reflexivity|].
  simpl. rewrite IH by (intros Hin; apply Hnot; now right).
  rewrite lookup_setProperty. destruct (String.eqb k1 k) eqn:E; [|reflexivity].
  apply String.eqb_eq in E. exfalso. apply Hnot. now left.
Qed.

Lemma fold_setProperty_lookup (entries : list (string * value)) (k : string) (w : value) :
  forall acc,
    NoDup (List.map fst entries) -> In (k, w) entries ->
    lookup_prop
      (fold_left (fun props kv => setProperty props (fst kv) (snd kv)) entries acc) k
    = Some w.
Proof.
  induction entries as [|[k1 v1] r IH]; intros acc Hnd Hin; [destruct Hin|].
  inversion Hnd as [|? ? Hnot Hr]; subst. simpl. destruct Hin as [H|H].
  - injection H as -> ->. rewrite fold_setProperty_absent by exact Hnot.
    now rewrite lookup_setProperty, String.eqb_refl.
  - now apply IH.
Qed.

Lemma map_entries_lookup (f : string -> value -> result value)
    (l es : list (string * value)) (k : string) (x : value) :
  map_entries_result f l = Ok es -> lookup_prop l k = Some x ->
  exists w, f k x = Ok w /\ In (k, w) es.
Proof.
  revert es. induction l as [|[k' x'] r IH]; simpl; intros es; [discriminate 2|].
  destruct (f k' x') as [y|e] eqn:Ey; simpl; [|discriminate].
  destruct (map_entries_result f r) as [es'|e]; simpl; [|discriminate].
  intros [= <-]. destruct (String.eqb k' k) eqn:E.
  - apply String.eqb_eq in E. subst k'. intros [= <-]. exists y. split; [exact Ey | now left].
  - intros H. destruct (IH es' eq_refl H) as [w [Hw Hin]]. exists w. split; [exact Hw | now right].
Qed.

(** The canonical form of a member is a member of the canonical form. *)
Lemma normalizeCard_lookup (h : Host) (ps ys : list (string * value))
    (path : list string) (k : string) (x : value) :
  NoDup (List.map fst ps) ->
  ScriptsCard.normalizeCard h (VObj ps) path = Ok (VObj ys) ->
  lookup_prop ps k = Some x ->
  exists w, ScriptsCard.normalizeCard h x (path ++ [k])%list = Ok w
            /\ lookup_prop ys k = Some w.
Proof.
  intros Hnd HN Hk. apply normalizeCard_object_inv in HN as (ps' & entries & Hps & He & Hys).
  injection Hps as <-.
  destruct (map_entries_lookup _ ps entries k x He Hk) as [w [Hw Hin]].
  exists w. split; [exact Hw|].
  unfold fromEntries in Hys. injection Hys as <-.
  apply fold_setProperty_lookup.
  - unfold sortEntries, js_sort.
    eapply Permutation_NoDup; [apply Permutation_map, sort_stable_perm|].
    now rewrite (map_entries_keys _ ps entries He).
  - unfold sortEntries. now apply js_sort_In.
Qed.















(** With the time stamp of the card, and without notes, the run writes
    the canonical card itself. *)
Lemma restamped_at_the_same_time (h : Host) (proposal : Proposal) (canon : value)
    (applyNow : string) (stamp : value) :
  prop_notes proposal = None ->
  ScriptsCard.normalizeString h applyNow = Ok stamp ->
  resolveMember canon ["provenance"] "lastGeneratedAt" = Some stamp ->
  restamped h proposal canon applyNow = Ok canon.
Proof.
  intros Hnotes Hstamp Hheld. unfold restamped.
  change (ScriptsCard.normalizeCard h (VStr applyNow) ["provenance"; "lastGeneratedAt"])
    with (ScriptsCard.normalizeString h applyNow).
  rewrite Hstamp, Hnotes. cbn [bind]. f_equal. now apply writeMember_held.
Qed.

(** ** Scenario A *)

(** C9, as stated, fails: for the README titled "Widget Service" no fact at
    [$.meta.title] proposes that title, and the card written does not hold
    it. *)
Lemma readme_title_is_not_proposed :
  (forall f, In f widgetFacts -> jsonPath f = "$.meta.title" ->
             proposedValue f <> Some (VStr "Widget Service"))
  /\ (forall card, widgetRun "2025-11-09T10:05:01.000Z" = Ok card ->
                   getValueAtPointer card "/meta/title" <> Some (VStr "Widget Service")).
Proof.
  split.
  - intros f Hin _. vm_compute in Hin. destruct Hin as [<-|[]]. discriminate.
  - intros card H. vm_compute in H. injection H as <-. vm_compute. discriminate.
Qed.

(** C9, amended. On the card [{}] and a README titled "Widget Service",
    the deterministic pass alone yields one fact, at [$.meta.title], with
    one anchor, the line of the title, and the gate [OK]; the value it
    proposes is the fixed title "ML System Card (GitHub-native, PR-first)",
    not the title of the README. The apply engine, with no decision and a
    schema that accepts the card, merges it at any time of the run: the
    card written holds the fixed title in [meta.title]. *)
Theorem deterministic_title_fact_is_applied :
  exists f a,
    widgetFacts = [f]
    /\ jsonPath f = "$.meta.title"
    /\ repoSources f = [a]
    /\ a_path a = "README.md" /\ a_startLine a = c_1 /\ a_endLine a = c_1
    /\ gate f = OK
    /\ proposedValue f = Some (VStr FIXED_TITLE)
    /\ forall applyNow, exists card,
         widgetRun applyNow = Ok card
         /\ getValueAtPointer card "/meta/title" = Some (VStr FIXED_TITLE).
Proof.
  eexists. eexists. split; [vm_compute; reflexivity|].
  repeat (split; [reflexivity|]).
  intros applyNow. unfold widgetRun, applyMain.
  destruct (prepareCard "2025-11-09T10:05:00.000Z" (VObj [])) as [[current regenerated]|e]
    eqn:Eprepare; vm_compute in Eprepare; [|discriminate Eprepare].
  injection Eprepare as <- <-. cbn [bind fst snd].
  destruct (ScriptsCard.normalizeCard exampleHost _ []) as [onDisk|e] eqn:EonDisk;
    vm_compute in EonDisk; [|discriminate EonDisk].
  injection EonDisk as <-. cbn [bind fst snd].
  destruct (speculativeLoop _ _ _ _ _ _ _ _) as [[patch facts]|e] eqn:Eloop;
    vm_compute in Eloop; [|discriminate Eloop].
  injection Eloop as <- <-. cbn [bind fst snd].
  unfold applyPatchAndWriteCard. rewrite applyPatch_app.
  destruct (applyPatch (jsonClone _) [_]) as [[doc flags]|e] eqn:Epatch;
    vm_compute in Epatch; [|discriminate Epatch].
  injection Epatch as <- <-. cbn [bind fst snd].
  match goal with
  | |- context [applyPatch ?doc (closingOperations _ _)] =>
      destruct (ScriptsCard.normalizeCard exampleHost doc []) as [canon|e] eqn:Ecanon;
        [|vm_compute in Ecanon; discriminate Ecanon];
      pose proof Ecanon as Hcanon; vm_compute in Ecanon; injection Ecanon as <-;
      destruct (closingOperations_restamp exampleHost widgetProposal applyNow doc _
                  eq_refl Hcanon eq_refl eq_refl) as (doc' & flags' & -> & Hflags & HN)
  end.
  cbn [bind fst snd app existsb orb]. rewrite Hflags.
  unfold restamped in HN.
  change (ScriptsCard.normalizeCard exampleHost (VStr applyNow)
            ["provenance"; "lastGeneratedAt"])
    with (ScriptsCard.normalizeString exampleHost applyNow) in HN.
  destruct (normalizeString_ok exampleHost applyNow) as [stamp Hstamp].
  rewrite Hstamp in HN. cbn [bind widgetProposal prop_notes] in HN.
  eexists. split; [exact HN|]. vm_compute. reflexivity.
Qed.

(* ===================================================================== *)
(** * The card that a first run writes *)
(* ===================================================================== *)

(** ** Members reached through objects *)






(** ** The operation [add] in an object reached through objects *)




(** ** The operations of a patch that write members of objects *)










(** ** What the canonicalizer and the copy through JSON keep *)

Section SortingWithResult.
Context {A : Type}.
Variable comparefn : A -> A -> result number.

Lemma insert_result_perm (x : A) (l r : list A) :
  insert_result comparefn x l = Ok r -> Permutation (x :: l) r.
Proof.
  revert r. induction l as [|y t IH]; simpl; intros r H.
  - injection H as <-. apply Permutation_refl.
  - destruct (sortsBefore comparefn y x) as [[]|e]; simpl in H; try discriminate.
    + destruct (insert_result comparefn x t) as [r'|e]; simpl in H; [|discriminate].
      injection H as <-.
      eapply Permutation_trans; [apply perm_swap|]. apply perm_skip. now apply IH.
    + injection H as <-. apply Permutation_refl.
Qed.

Lemma sort_result_perm (l r : list A) :
  sort_result comparefn l = Ok r -> Permutation l r.
Proof.
  revert r. induction l as [|x t IH]; simpl; intros r H.
  - injection H as <-. apply perm_nil.
  - destruct (sort_result comparefn t) as [r'|e]; simpl in H; [|discriminate].
    eapply Permutation_trans; [apply perm_skip, IH; reflexivity|].
    now apply insert_result_perm.
Qed.
End SortingWithResult.











(** ** The canonical form is a value of JavaScript *)






(** ** The patch of a run whose facts write members of objects *)









(** ** The field metadata of a run *)











(** ** A loop that prunes no fact *)




(** ** The card in memory and the card on disk *)




(** ** The writes of a run *)












(** ** The field metadata through the canonicalizer *)



(** ** The document that a first run canonicalizes *)







(** ** The card that the first run writes holds the facts *)





(* ===================================================================== *)
(** * Two runs with the same proposal and the same decisions *)
(* ===================================================================== *)



(* ===================================================================== *)
(** * Further properties of the passes, the canonicalizer and the apply engine *)
(* ===================================================================== *)

(** ** The order of Numbers *)

Lemma leb_of_not_ltb (a b : number) :
  isNaN a = false -> isNaN b = false -> ltb a b = false -> leb b a = true.
Proof.
  unfold leb, ltb, SFleb, SFltb, SFcompare, isNaN. intros Ha Hb H. number_cases.
Qed.

Lemma leb_trans (a b c : number) :
  leb a b = true -> leb b c = true -> leb a c = true.
Proof.
  unfold leb, SFleb, SFcompare. intros H1 H2. number_cases.
Qed.

(* ===================================================================== *)
(** * The extraction pass *)
(* ===================================================================== *)

Lemma isFinite_not_NaN (x : number) : isFinite x = true -> isNaN x = false.
Proof. destruct x; simpl; congruence. Qed.

Lemma normalizeConfidence_range (v : optional number) (fallback : number) :
  inUnitInterval fallback = true ->
  inUnitInterval (normalizeConfidence v fallback) = true.
Proof.
  intros Hf. unfold normalizeConfidence.
  destruct v as [x|]; [|exact Hf].
  destruct (isFinite x) eqn:Efin; [|exact Hf].
  destruct (ltb x zero) eqn:Elt; [reflexivity|].
  unfold gtb. fold (ltb c_1 x). destruct (ltb c_1 x) eqn:Egt; [reflexivity|].
  unfold inUnitInterval. apply andb_true_intro. split.
  - apply leb_of_not_ltb; [now apply isFinite_not_NaN | reflexivity | exact Elt].
  - apply leb_of_not_ltb; [reflexivity | now apply isFinite_not_NaN | exact Egt].
Qed.

(** X1. [normalizeConfidence] of [extractor.ts] returns a confidence
    between 0 and 1 whenever its fallback is one, whatever the candidate
    value is: missing, [NaN], infinite, negative or above 1. *)
Theorem normalizeConfidence_stays_in_unit_interval
    (v : optional number) (fallback : number) :
  inUnitInterval fallback = true ->
  inUnitInterval (normalizeConfidence v fallback) = true.
Proof. apply normalizeConfidence_range. Qed.

Lemma normalizeConfidence_stays_in_unit_interval_witness :
  inUnitInterval c_0_75 = true
  /\ inUnitInterval (normalizeConfidence (Some (of_decimal 17 (-1))) c_0_75) = true.
Proof.
  split; [reflexivity|].
  apply (normalizeConfidence_stays_in_unit_interval (Some (of_decimal 17 (-1))) c_0_75).
  reflexivity.
Defined.

(** X2. [computeGate] of [extractor.ts] is monotone: of two confidences
    the lower one never gets the more lenient gate. *)
Theorem computeGate_is_monotone (a b : number) :
  leb a b = true -> asStrictAs (computeGate a) (computeGate b) = true.
Proof.
  intros Hab. unfold computeGate, geb.
  fold (leb c_0_8 a). fold (leb c_0_8 b). fold (leb c_0_65 a). fold (leb c_0_65 b).
  destruct (leb c_0_8 a) eqn:E1.
  - now rewrite (leb_trans _ _ _ E1 Hab).
  - destruct (leb c_0_65 a) eqn:E2.
    + rewrite (leb_trans _ _ _ E2 Hab). now destruct (leb c_0_8 b).
    + reflexivity.
Qed.

Lemma computeGate_is_monotone_witness :
  leb c_0_65 c_0_9 = true
  /\ asStrictAs (computeGate c_0_65) (computeGate c_0_9) = true.
Proof.
  split; [reflexivity|].
  apply (computeGate_is_monotone c_0_65 c_0_9). reflexivity.
Defined.

Lemma normalizeAnchor_stored (head : string) (anchor : RawAnchor) :
  truthy (a_path (normalizeAnchor head anchor)) = true ->
  storedAnchor head (normalizeAnchor head anchor) = true.
Proof.
  unfold storedAnchor. intros ->. unfold normalizeAnchor. cbn [a_kind a_commit andb].
  apply andb_true_intro. split.
  - assert (K : includes_string VALID_KINDS (kindFromPath (ra_path anchor)) = true).
    { unfold kindFromPath. destruct (ra_path anchor) as [q|]; [|reflexivity].
      destruct (endsWith q ".md"); [reflexivity|].
      destruct (endsWith q ".json" || endsWith q ".yaml"); reflexivity. }
    destruct (ra_kind anchor) as [k|]; [|exact K].
    destruct (includes_string VALID_KINDS k) eqn:E; [exact E | exact K].
  - destruct (SHA_REGEX_test (orElse (ra_commit anchor) head)) eqn:E.
    + now rewrite E.
    + rewrite String.eqb_refl. apply orb_true_r.
Qed.

Lemma truthy_length (s : string) : (0 <? String.length s)%nat = truthy s.
Proof. destruct s; reflexivity. Qed.

Lemma normalizeAnchors_stored (anchors : list RawAnchor) (headSha : string) :
  forallb (storedAnchor headSha) (normalizeAnchors anchors headSha) = true.
Proof.
  apply forallb_forall. intros a Ha. unfold normalizeAnchors in Ha.
  apply filter_In in Ha. destruct Ha as [Ha Hp].
  apply in_map_iff in Ha. destruct Ha as [raw [<- _]].
  apply normalizeAnchor_stored. now rewrite <- truthy_length.
Qed.

(** X3. Every anchor that [normalizeAnchors] of [extractor.ts] returns has
    a path that is not empty, one of the six valid kinds, and a commit that
    has the shape of a SHA or is the head of the run; and the function
    returns no more anchors than it is given. *)
Theorem normalizeAnchors_returns_stored_anchors
    (anchors : list RawAnchor) (headSha : string) :
  forallb (storedAnchor headSha) (normalizeAnchors anchors headSha) = true
  /\ (List.length (normalizeAnchors anchors headSha) <= List.length anchors)%nat.
Proof.
  split; [apply normalizeAnchors_stored|].
  unfold normalizeAnchors.
  eapply Nat.le_trans; [apply filter_length_le|].
  rewrite length_map. apply filter_length_le.
Qed.

(** ** The entries of a [Map] *)

Section MapEntryFacts.
Context {V : Type}.

Lemma set_entries (Q : string * V -> Prop) (m : JsMap.t) (k : string) (v : V) :
  Forall Q m -> Q (k, v) -> Forall Q (JsMap.set m k v).
Proof.
  induction m as [|[k' v'] r IH]; simpl; intros Hm Hq.
  - constructor; [exact Hq | constructor].
  - inversion Hm; subst. destruct (String.eqb k' k) eqn:E.
    + apply String.eqb_eq in E. subst k'. constructor; assumption.
    + constructor; [assumption | apply IH; assumption].
Qed.

Lemma get_In (m : JsMap.t) (k : string) (v : V) :
  JsMap.get m k = Some v -> In (k, v) m.
Proof.
  induction m as [|[k' v'] r IH]; simpl; intros H; [discriminate|].
  destruct (String.eqb k' k) eqn:E.
  - apply String.eqb_eq in E. injection H as <-. subst k'. now left.
  - right. now apply IH.
Qed.

Lemma get_absent (m : JsMap.t) (k : string) :
  ~ In k (JsMap.keys m) -> JsMap.get (V := V) m k = None.
Proof.
  unfold JsMap.keys. induction m as [|[k' v'] r IH]; simpl; intros H; [reflexivity|].
  destruct (String.eqb k' k) eqn:E.
  - apply String.eqb_eq in E. exfalso. apply H. now left.
  - apply IH. intros Hin. apply H. now right.
Qed.

Lemma get_present (m : JsMap.t) (k : string) :
  In k (JsMap.keys m) -> exists v : V, JsMap.get m k = Some v.
Proof.
  unfold JsMap.keys. induction m as [|[k' v'] r IH]; simpl; intros H; [contradiction|].
  destruct (String.eqb k' k) eqn:E; [now exists v'|].
  destruct H as [H|H]; [|now apply IH].
  subst k'. rewrite String.eqb_refl in E. discriminate.
Qed.

Lemma set_keys_present (m : JsMap.t) (k : string) (v v0 : V) :
  JsMap.get m k = Some v0 -> JsMap.keys (JsMap.set m k v) = JsMap.keys m.
Proof.
  unfold JsMap.keys. induction m as [|[k' v'] r IH]; simpl; intros H; [discriminate|].
  destruct (String.eqb k' k) eqn:E; simpl; [reflexivity|].
  f_equal. now apply IH.
Qed.

Lemma set_keys_absent (m : JsMap.t) (k : string) (v : V) :
  JsMap.get m k = None -> JsMap.keys (JsMap.set m k v) = (JsMap.keys m ++ [k])%list.
Proof.
  unfold JsMap.keys. induction m as [|[k' v'] r IH]; simpl; intros H; [reflexivity|].
  destruct (String.eqb k' k) eqn:E; simpl; [discriminate|].
  f_equal. now apply IH.
Qed.

Lemma set_keys_In (m : JsMap.t) (k k' : string) (v : V) :
  In k' (JsMap.keys m) -> In k' (JsMap.keys (JsMap.set m k v)).
Proof.
  intros H. destruct (JsMap.get m k) as [v0|] eqn:E.
  - now rewrite (set_keys_present _ _ _ _ E).
  - rewrite (set_keys_absent _ _ _ E). apply in_or_app. now left.
Qed.

Lemma set_keys_same (m : JsMap.t) (k : string) (v : V) :
  In k (JsMap.keys (JsMap.set m k v)).
Proof.
  destruct (JsMap.get m k) as [v0|] eqn:E.
  - rewrite (set_keys_present _ _ _ _ E).
    apply get_In in E. unfold JsMap.keys. apply in_map_iff. now exists (k, v0).
  - rewrite (set_keys_absent _ _ _ E). apply in_or_app. right. now left.
Qed.

Lemma get_None_absent (m : JsMap.t) (k : string) :
  JsMap.get (V := V) m k = None -> ~ In k (JsMap.keys m).
Proof.
  intros H Hin. apply get_present in Hin. destruct Hin as [v Hv]. congruence.
Qed.

Lemma set_keys_NoDup (m : JsMap.t) (k : string) (v : V) :
  NoDup (JsMap.keys m) -> NoDup (JsMap.keys (JsMap.set m k v)).
Proof.
  intros H. destruct (JsMap.get m k) as [v0|] eqn:E.
  - now rewrite (set_keys_present _ _ _ _ E).
  - rewrite (set_keys_absent _ _ _ E).
    apply NoDup_app; [exact H | repeat constructor; intros [] | ].
    intros x Hx [<-|[]]. now apply (get_None_absent _ _ E).
Qed.

Lemma entry_of_key (m : JsMap.t) (k : string) :
  In k (JsMap.keys m) -> exists v : V, In (k, v) m.
Proof.
  unfold JsMap.keys. intros H. apply in_map_iff in H.
  destruct H as [[k' v] [<- H]]. now exists v.
Qed.

Lemma entry_of_value (m : JsMap.t) (v : V) :
  In v (JsMap.values m) -> exists k, In (k, v) m.
Proof.
  unfold JsMap.values. intros H. apply in_map_iff in H.
  destruct H as [[k v'] [<- H]]. now exists k.
Qed.

End MapEntryFacts.

Lemma fold_left_invariant_In {A B : Type} (I : A -> Prop) (f : A -> B -> A)
    (l : list B) (a : A) :
  I a -> (forall x b, In b l -> I x -> I (f x b)) -> I (fold_left f l a).
Proof.
  revert a. induction l as [|b t IH]; simpl; intros a Ha Hstep; [exact Ha|].
  apply IH; [apply Hstep; [now left | exact Ha]|].
  intros x b' Hb. apply Hstep. now right.
Qed.

(** ** [mergeFacts] *)

(** In the map of the facts an entry is filed under the path of its fact,
    and an entry at a deterministic-only path is a baseline fact. *)
Lemma baselineMap_entries (base : list Fact) :
  Forall (fun kv : string * Fact => jsonPath (snd kv) = fst kv /\ In (snd kv) base)
         (baselineMap base).
Proof.
  unfold baselineMap.
  apply fold_left_invariant_In with
    (I := fun m : JsMap.t =>
            Forall (fun kv : string * Fact =>
                      jsonPath (snd kv) = fst kv /\ In (snd kv) base) m).
  - constructor.
  - intros m b Hb Hm. apply set_entries; [exact Hm|]. split; [reflexivity | exact Hb].
Qed.

Lemma baselineMap_NoDup (base : list Fact) : NoDup (JsMap.keys (baselineMap base)).
Proof.
  unfold baselineMap. apply fold_left_invariant.
  - constructor.
  - intros m b Hm. now apply set_keys_NoDup.
Qed.

Lemma baselineMap_keys (base : list Fact) (b : Fact) :
  In b base -> In (jsonPath b) (JsMap.keys (baselineMap base)).
Proof.
  unfold baselineMap.
  assert (G : forall l (acc : JsMap.t (V := Fact)),
             In (jsonPath b) (JsMap.keys acc) \/ In b l ->
             In (jsonPath b)
                (JsMap.keys (fold_left (fun m f => JsMap.set m (jsonPath f) (copyFact f))
                                       l acc))).
  { induction l as [|x t IH]; simpl; intros acc [H|H]; try assumption; try contradiction.
    - apply IH. left. now apply set_keys_In.
    - apply IH. destruct H as [<-|H]; [left; apply set_keys_same | now right]. }
  intros H. apply G. now right.
Qed.

Lemma mergeCandidate_entries (head : string) (base : list Fact) (m : JsMap.t)
    (c : RawFactPayload) :
  Forall (fun kv : string * Fact =>
            jsonPath (snd kv) = fst kv
            /\ (isDeterministicOnly (fst kv) = true -> In (snd kv) base)) m ->
  Forall (fun kv : string * Fact =>
            jsonPath (snd kv) = fst kv
            /\ (isDeterministicOnly (fst kv) = true -> In (snd kv) base))
         (mergeCandidate head m c).
Proof.
  intros Hm. merge_cases m c path existing Edet Eget.
  - apply set_entries; [exact Hm|]. simpl. split; [|congruence].
    apply get_In in Eget. rewrite Forall_forall in Hm. apply (Hm _ Eget).
  - apply set_entries; [exact Hm|]. simpl. split; [reflexivity | congruence].
Qed.

Lemma mergeCandidate_NoDup (head : string) (m : JsMap.t) (c : RawFactPayload) :
  NoDup (JsMap.keys m) -> NoDup (JsMap.keys (mergeCandidate head m c)).
Proof.
  intros Hm. merge_cases m c path existing Edet Eget; now apply set_keys_NoDup.
Qed.

Lemma mergeCandidate_keys (head : string) (m : JsMap.t) (c : RawFactPayload) (k : string) :
  In k (JsMap.keys m) -> In k (JsMap.keys (mergeCandidate head m c)).
Proof.
  intros Hm. merge_cases m c path existing Edet Eget; now apply set_keys_In.
Qed.

Lemma mergeCandidate_confidence (head : string) (m : JsMap.t) (c : RawFactPayload) :
  Forall (fun f => inUnitInterval (confidence f) = true) (JsMap.values m) ->
  Forall (fun f => inUnitInterval (confidence f) = true)
         (JsMap.values (mergeCandidate head m c)).
Proof.
  intros Hm. merge_cases m c path existing Edet Eget.
  - apply set_Forall; [exact Hm|]. simpl. apply normalizeConfidence_range.
    apply (get_Forall (fun f => inUnitInterval (confidence f) = true) _ _ _ Hm Eget).
  - apply set_Forall; [exact Hm|]. simpl. now apply normalizeConfidence_range.
Qed.

Lemma values_paths (m : JsMap.t (V := Fact)) :
  Forall (fun kv : string * Fact => jsonPath (snd kv) = fst kv) m ->
  List.map jsonPath (JsMap.values m) = JsMap.keys m.
Proof.
  unfold JsMap.values, JsMap.keys. rewrite map_map.
  intros H. apply map_ext_Forall. exact H.
Qed.

Lemma merged_entries (head : string) (raw : list RawFactPayload) (base : list Fact) :
  Forall (fun kv : string * Fact =>
            jsonPath (snd kv) = fst kv
            /\ (isDeterministicOnly (fst kv) = true -> In (snd kv) base))
         (fold_left (mergeCandidate head) raw (baselineMap base)).
Proof.
  apply fold_left_invariant.
  - eapply Forall_impl; [|apply baselineMap_entries]. intros kv [H1 H2]. now split.
  - intros m c. apply mergeCandidate_entries.
Qed.

(** X4. The extraction pass never creates or changes a fact at a
    deterministic-only path (change history, time stamps, bookkeeping of
    the assistant): a fact that [mergeFacts] returns at such a path is one
    of the baseline facts, as it was. *)
Theorem mergeFacts_keeps_deterministic_only_facts
    (lc : string -> string -> comparison) (raw : list RawFactPayload)
    (base : list Fact) (head : string) (f : Fact) :
  In f (mergeFacts lc raw base head) ->
  isDeterministicOnly (jsonPath f) = true ->
  In f base.
Proof.
  unfold mergeFacts. destruct raw as [|c raw]; [tauto|].
  intros Hin Hdet. apply js_sort_In in Hin.
  apply entry_of_value in Hin. destruct Hin as [k Hin].
  pose proof (merged_entries head (c :: raw) base) as H.
  rewrite Forall_forall in H. destruct (H _ Hin) as [Hk Hb].
  simpl in Hk, Hb. apply Hb. now rewrite <- Hk.
Qed.

Lemma mergeFacts_keeps_deterministic_only_facts_witness :
  In changelogFact
     (mergeFacts String.compare [tamperingPatch; problemCandidate]
                 [changelogFact; storedFact] "abc1234")
  /\ isDeterministicOnly (jsonPath changelogFact) = true
  /\ In changelogFact [changelogFact; storedFact].
Proof.
  split; [vm_compute; tauto|]. split; [reflexivity|].
  apply (mergeFacts_keeps_deterministic_only_facts String.compare
           [tamperingPatch; problemCandidate] [changelogFact; storedFact] "abc1234").
  - vm_compute. tauto.
  - reflexivity.
Defined.

Lemma merged_NoDup (head : string) (raw : list RawFactPayload) (base : list Fact) :
  NoDup (JsMap.keys (fold_left (mergeCandidate head) raw (baselineMap base))).
Proof.
  apply fold_left_invariant; [apply baselineMap_NoDup|].
  intros m c. apply mergeCandidate_NoDup.
Qed.

Lemma merged_paths (head : string) (raw : list RawFactPayload) (base : list Fact) :
  List.map jsonPath
    (JsMap.values (fold_left (mergeCandidate head) raw (baselineMap base)))
  = JsMap.keys (fold_left (mergeCandidate head) raw (baselineMap base)).
Proof.
  apply values_paths. eapply Forall_impl; [|apply merged_entries].
  intros kv [H _]. exact H.
Qed.

(** X5. When the service returned candidates, no two facts that
    [mergeFacts] of [extractor.ts] returns have the same path: the
    candidates and the baseline facts at one path are merged into one
    fact. *)
Theorem mergeFacts_returns_one_fact_per_path
    (lc : string -> string -> comparison) (raw : list RawFactPayload)
    (base : list Fact) (head : string) :
  nonEmpty raw = true ->
  NoDup (List.map jsonPath (mergeFacts lc raw base head)).
Proof.
  intros Hraw. unfold mergeFacts. destruct raw as [|c raw]; [discriminate|].
  eapply Permutation_NoDup.
  - apply Permutation_map. apply sort_stable_perm.
  - rewrite merged_paths. apply merged_NoDup.
Qed.

Lemma mergeFacts_returns_one_fact_per_path_witness :
  nonEmpty [overconfidentPatch; problemCandidate] = true
  /\ NoDup (List.map jsonPath
              (mergeFacts String.compare [overconfidentPatch; problemCandidate]
                          [storedFact; changelogFact; storedFact] "abc1234")).
Proof.
  split; [reflexivity|].
  apply (mergeFacts_returns_one_fact_per_path String.compare
           [overconfidentPatch; problemCandidate]
           [storedFact; changelogFact; storedFact] "abc1234").
  reflexivity.
Defined.

(** X6. The extraction pass stores clamped confidences: when the
    confidences of the baseline facts lie between 0 and 1, so do those of
    all the facts that [mergeFacts] returns, whatever confidences the
    candidates carry. *)
Theorem mergeFacts_stores_clamped_confidences
    (lc : string -> string -> comparison) (raw : list RawFactPayload)
    (base : list Fact) (head : string) :
  forallb (fun f => inUnitInterval (confidence f)) base = true ->
  forallb (fun f => inUnitInterval (confidence f)) (mergeFacts lc raw base head) = true.
Proof.
  intros Hbase. unfold mergeFacts. destruct raw as [|c raw]; [exact Hbase|].
  apply forallb_forall. apply Forall_forall. apply js_sort_Forall.
  apply fold_left_invariant with
    (I := fun m : JsMap.t =>
            Forall (fun f => inUnitInterval (confidence f) = true) (JsMap.values m)).
  - rewrite forallb_forall in Hbase.
    assert (H := baselineMap_entries base).
    unfold JsMap.values. apply Forall_forall. intros f Hf.
    apply in_map_iff in Hf. destruct Hf as [kv [<- Hkv]].
    rewrite Forall_forall in H. apply Hbase. apply (H _ Hkv).
  - intros m x. apply mergeCandidate_confidence.
Qed.

Lemma mergeFacts_stores_clamped_confidences_witness :
  forallb (fun f => inUnitInterval (confidence f)) [changelogFact; storedFact] = true
  /\ forallb (fun f => inUnitInterval (confidence f))
       (mergeFacts String.compare [overconfidentPatch; problemCandidate]
                   [changelogFact; storedFact] "abc1234") = true.
Proof.
  split; [reflexivity|].
  apply (mergeFacts_stores_clamped_confidences String.compare
           [overconfidentPatch; problemCandidate] [changelogFact; storedFact] "abc1234").
  reflexivity.
Defined.

(** X7. [mergeFacts] loses no baseline path: for every baseline fact it
    returns a fact at the path of that fact. The cut that the pass applies
    to the merge afterwards keeps such a fact as long as the merge holds
    no more than [MAX_FACTS] facts. *)
Theorem mergeFacts_keeps_every_baseline_path
    (lc : string -> string -> comparison) (raw : list RawFactPayload)
    (base : list Fact) (head : string) (b : Fact) :
  In b base ->
  (exists f, In f (mergeFacts lc raw base head) /\ jsonPath f = jsonPath b)
  /\ ((List.length (mergeFacts lc raw base head) <= MAX_FACTS)%nat ->
      exists f, In f (trimFacts (mergeFacts lc raw base head))
                /\ jsonPath f = jsonPath b).
Proof.
  intros Hb.
  assert (Hmerge : exists f, In f (mergeFacts lc raw base head)
                             /\ jsonPath f = jsonPath b).
  { unfold mergeFacts. destruct raw as [|c raw]; [now exists b|].
    assert (Hk : In (jsonPath b)
                    (JsMap.keys (fold_left (mergeCandidate head) (c :: raw)
                                           (baselineMap base)))).
    { apply fold_left_invariant with
        (I := fun m : JsMap.t (V := Fact) => In (jsonPath b) (JsMap.keys m)).
      - now apply baselineMap_keys.
      - intros m x. apply mergeCandidate_keys. }
    rewrite <- merged_paths in Hk. apply in_map_iff in Hk.
    destruct Hk as [f [Hp Hf]]. exists f. split; [|exact Hp].
    apply js_sort_In. exact Hf. }
  split; [exact Hmerge|].
  intros Hlen. unfold trimFacts.
  destruct (MAX_FACTS <? List.length (mergeFacts lc raw base head))%nat eqn:E;
    [|exact Hmerge].
  apply Nat.ltb_lt in E. lia.
Qed.

Lemma mergeFacts_keeps_every_baseline_path_witness :
  In storedFact [changelogFact; storedFact]
  /\ exists f,
       In f (trimFacts (mergeFacts String.compare [overconfidentPatch; problemCandidate]
                                   [changelogFact; storedFact] "abc1234"))
       /\ jsonPath f = jsonPath storedFact.
Proof.
  split; [simpl; tauto|].
  apply (mergeFacts_keeps_every_baseline_path String.compare
           [overconfidentPatch; problemCandidate] [changelogFact; storedFact]
           "abc1234" storedFact).
  - simpl. tauto.
  - vm_compute. lia.
Defined.

(* ===================================================================== *)
(** * The reasoning pass *)
(* ===================================================================== *)

Section StableSortOfProjections.
Context {A B : Type}.
Variable before : A -> A -> bool.
Variable before' : B -> B -> bool.
Variable g : A -> B.
Hypothesis before_g : forall a b, before' (g a) (g b) = before a b.

Lemma insert_stable_projection (x : A) (l : list A) :
  List.map g (insert_stable before x l) = insert_stable before' (g x) (List.map g l).
Proof.
  induction l as [|y t IH]; simpl; [reflexivity|].
  rewrite before_g. destruct (before y x); simpl; [now rewrite IH | reflexivity].
Qed.

Lemma sort_stable_projection (l : list A) :
  List.map g (sort_stable before l) = sort_stable before' (List.map g l).
Proof.
  induction l as [|x t IH]; simpl; [reflexivity|].
  now rewrite insert_stable_projection, IH.
Qed.
End StableSortOfProjections.

Lemma sorted_paths (lc : string -> string -> comparison) (l : list Fact) :
  List.map jsonPath (js_sort (byJsonPath lc) l)
  = js_sort (fun a b => number_of_comparison (lc a b)) (List.map jsonPath l).
Proof.
  unfold js_sort. apply sort_stable_projection. reflexivity.
Qed.

Lemma reconcilePatch_entries (head : string) (base : list Fact) (m : JsMap.t)
    (p : RawFactPayload) :
  Forall (fun kv : string * Fact =>
            jsonPath (snd kv) = fst kv
            /\ exists b, In b base /\ jsonPath b = fst kv
                         /\ sourceKind b = sourceKind (snd kv)
                         /\ currentValue b = currentValue (snd kv)) m ->
  Forall (fun kv : string * Fact =>
            jsonPath (snd kv) = fst kv
            /\ exists b, In b base /\ jsonPath b = fst kv
                         /\ sourceKind b = sourceKind (snd kv)
                         /\ currentValue b = currentValue (snd kv))
         (reconcilePatch head m p).
Proof.
  intros Hm. unfold reconcilePatch.
  destruct (r_jsonPath p) as [path|]; [|exact Hm].
  destruct (negb (truthy path)); [exact Hm|].
  destruct (JsMap.get m path) as [existing|] eqn:Eget; [|exact Hm].
  apply set_entries; [exact Hm|]. cbn [fst snd jsonPath sourceKind currentValue].
  apply get_In in Eget. rewrite Forall_forall in Hm. apply (Hm _ Eget).
Qed.

Lemma reconcilePatch_keys (head : string) (m : JsMap.t) (p : RawFactPayload) :
  JsMap.keys (reconcilePatch head m p) = JsMap.keys m.
Proof.
  unfold reconcilePatch.
  destruct (r_jsonPath p) as [path|]; [|reflexivity].
  destruct (negb (truthy path)); [reflexivity|].
  destruct (JsMap.get m path) as [existing|] eqn:Eget; [|reflexivity].
  eapply set_keys_present. exact Eget.
Qed.

Lemma reconciled_entries (head : string) (patches : list RawFactPayload)
    (base : list Fact) :
  Forall (fun kv : string * Fact =>
            jsonPath (snd kv) = fst kv
            /\ exists b, In b base /\ jsonPath b = fst kv
                         /\ sourceKind b = sourceKind (snd kv)
                         /\ currentValue b = currentValue (snd kv))
         (fold_left (reconcilePatch head) patches (baselineMap base)).
Proof.
  apply fold_left_invariant.
  - eapply Forall_impl; [|apply baselineMap_entries].
    intros kv [H1 H2]. split; [exact H1|]. exists (snd kv). now repeat split.
  - intros m p. apply reconcilePatch_entries.
Qed.

Lemma reconciled_keys (head : string) (patches : list RawFactPayload) (base : list Fact) :
  JsMap.keys (fold_left (reconcilePatch head) patches (baselineMap base))
  = JsMap.keys (baselineMap base).
Proof.
  apply fold_left_invariant with
    (I := fun m : JsMap.t (V := Fact) => JsMap.keys m = JsMap.keys (baselineMap base)).
  - reflexivity.
  - intros m p Hm. now rewrite reconcilePatch_keys.
Qed.

(** X8. A fact that [reconcileFacts] of [reasoner.ts] returns stems from a
    base fact at the same path, and has its source kind and its current
    value: a patch of the service changes neither. *)
Theorem reconcileFacts_keeps_source_kind_and_current_value
    (lc : string -> string -> comparison) (base : list Fact)
    (patches : list RawFactPayload) (head : string) (f : Fact) :
  In f (reconcileFacts lc base patches head) ->
  exists b, In b base /\ jsonPath b = jsonPath f
            /\ sourceKind b = sourceKind f /\ currentValue b = currentValue f.
Proof.
  unfold reconcileFacts. intros Hin. apply js_sort_In in Hin.
  apply entry_of_value in Hin. destruct Hin as [k Hin].
  pose proof (reconciled_entries head patches base) as H.
  rewrite Forall_forall in H. destruct (H _ Hin) as [Hk [b Hb]].
  simpl in Hk, Hb. exists b. now rewrite Hk.
Qed.

Lemma reconcileFacts_keeps_source_kind_and_current_value_witness :
  In {| jsonPath := "$.business.useCase"; jsonPointer := Some "/business/useCase";
        currentValue := None; proposedValue := Some (VStr "Fraud scoring");
        sourceKind := extracted; repoSources := repoSources storedFact;
        confidence := of_decimal 17 (-1); gate := OK; verifierNotes := None |}
     (reconcileFacts String.compare [storedFact] [overconfidentPatch] "abc1234")
  /\ exists b, In b [storedFact] /\ jsonPath b = "$.business.useCase"
               /\ sourceKind b = extracted /\ currentValue b = None.
Proof.
  split; [vm_compute; tauto|].
  apply (reconcileFacts_keeps_source_kind_and_current_value String.compare
           [storedFact] [overconfidentPatch] "abc1234"
           {| jsonPath := "$.business.useCase"; jsonPointer := Some "/business/useCase";
              currentValue := None; proposedValue := Some (VStr "Fraud scoring");
              sourceKind := extracted; repoSources := repoSources storedFact;
              confidence := of_decimal 17 (-1); gate := OK; verifierNotes := None |}).
  vm_compute. tauto.
Defined.

(** X9. The patches of the service neither add nor remove a fact: the
    facts that [reconcileFacts] returns have, in the same order, the paths
    of the facts that it returns without patches, and no two of them share
    a path. *)
Theorem reconcileFacts_keeps_the_paths
    (lc : string -> string -> comparison) (base : list Fact)
    (patches : list RawFactPayload) (head : string) :
  List.map jsonPath (reconcileFacts lc base patches head)
  = List.map jsonPath (reconcileFacts lc base [] head)
  /\ NoDup (List.map jsonPath (reconcileFacts lc base patches head)).
Proof.
  assert (P : forall ps,
             List.map jsonPath
               (JsMap.values (fold_left (reconcilePatch head) ps (baselineMap base)))
             = JsMap.keys (baselineMap base)).
  { intros ps. rewrite values_paths; [apply reconciled_keys|].
    eapply Forall_impl; [|apply reconciled_entries]. intros kv [H _]. exact H. }
  unfold reconcileFacts. split.
  - rewrite !sorted_paths. now rewrite !P.
  - eapply Permutation_NoDup.
    + apply Permutation_map. apply sort_stable_perm.
    + rewrite P. apply baselineMap_NoDup.
Qed.

Lemma reconcilePatch_unknown (head : string) (m : JsMap.t) (p : RawFactPayload) :
  match r_jsonPath p with
  | Some path => negb (includes_string (JsMap.keys m) path)
  | None => true
  end = true ->
  reconcilePatch head m p = m.
Proof.
  unfold reconcilePatch. destruct (r_jsonPath p) as [path|]; [|reflexivity].
  intros H. destruct (negb (truthy path)); [reflexivity|].
  rewrite get_absent; [reflexivity|].
  intros Hin. apply negb_true_iff in H. unfold includes_string in H.
  assert (K : existsb (String.eqb path) (JsMap.keys m) = true).
  { apply existsb_exists. exists path. split; [exact Hin | apply String.eqb_refl]. }
  congruence.
Qed.

Lemma baselineMap_key_paths (base : list Fact) (k : string) :
  In k (JsMap.keys (baselineMap base)) -> In k (List.map jsonPath base).
Proof.
  intros H. apply entry_of_key in H. destruct H as [v Hv].
  pose proof (baselineMap_entries base) as E. rewrite Forall_forall in E.
  destruct (E _ Hv) as [Hp Hb]. simpl in Hp, Hb. subst k.
  now apply in_map.
Qed.

(** X10. A patch of the service at a path that no base fact has is
    ignored: [reconcileFacts] returns what it returns without the
    patches. *)
Theorem reconcileFacts_ignores_patches_at_unknown_paths
    (lc : string -> string -> comparison) (base : list Fact)
    (patches : list RawFactPayload) (head : string) :
  forallb
    (fun p => match r_jsonPath p with
              | Some path => negb (includes_string (List.map jsonPath base) path)
              | None => true
              end) patches = true ->
  reconcileFacts lc base patches head = reconcileFacts lc base [] head.
Proof.
  intros H. unfold reconcileFacts. f_equal. f_equal. simpl.
  induction patches as [|p t IH]; [reflexivity|].
  simpl in H. apply andb_true_iff in H. destruct H as [Hp Ht].
  simpl. rewrite reconcilePatch_unknown; [now apply IH|].
  destruct (r_jsonPath p) as [path|]; [|reflexivity].
  apply negb_true_iff. apply negb_true_iff in Hp.
  destruct (includes_string (JsMap.keys (baselineMap base)) path) eqn:E; [|reflexivity].
  unfold includes_string in E. apply existsb_exists in E.
  destruct E as [k [Hk Ek]]. apply String.eqb_eq in Ek. subst k.
  apply baselineMap_key_paths in Hk.
  assert (K : includes_string (List.map jsonPath base) path = true).
  { unfold includes_string. apply existsb_exists. exists path.
    split; [exact Hk | apply String.eqb_refl]. }
  congruence.
Qed.

Lemma reconcileFacts_ignores_patches_at_unknown_paths_witness :
  forallb
    (fun p => match r_jsonPath p with
              | Some path =>
                  negb (includes_string (List.map jsonPath [changelogFact; storedFact]) path)
              | None => true
              end) [strayPatch; emptyPayload] = true
  /\ reconcileFacts String.compare [changelogFact; storedFact] [strayPatch; emptyPayload]
                    "abc1234"
     = reconcileFacts String.compare [changelogFact; storedFact] [] "abc1234".
Proof.
  split; [reflexivity|].
  apply (reconcileFacts_ignores_patches_at_unknown_paths String.compare
           [changelogFact; storedFact] [strayPatch; emptyPayload] "abc1234").
  reflexivity.
Defined.

(* ===================================================================== *)
(** * The verification pass *)
(* ===================================================================== *)

Lemma applyVerification_frame (minC : number) (f : Fact) (v : VerificationItem) :
  jsonPath (applyVerification minC f v) = jsonPath f
  /\ jsonPointer (applyVerification minC f v) = jsonPointer f
  /\ currentValue (applyVerification minC f v) = currentValue f
  /\ proposedValue (applyVerification minC f v) = proposedValue f
  /\ sourceKind (applyVerification minC f v) = sourceKind f
  /\ repoSources (applyVerification minC f v) = repoSources f.
Proof. unfold applyVerification. destruct (_ && _); simpl; now repeat split. Qed.

Lemma applyVerification_gate (minC : number) (f : Fact) (v : VerificationItem) :
  gate (applyVerification minC f v) = OK -> gate f = OK.
Proof.
  unfold applyVerification. destruct (_ && _); simpl; [tauto|].
  destruct (ltb _ minC); discriminate.
Qed.

Lemma applyVerification_gates (minC : number) (f : Fact) (v : VerificationItem) :
  gate (applyVerification minC f v) = gate f
  \/ gate (applyVerification minC f v)
     = downgradedGate minC (confidence (applyVerification minC f v)).
Proof.
  unfold applyVerification, downgradedGate. destruct (_ && _); simpl; [now left | now right].
Qed.

Section VerifierPassFacts.
Variable numberToString : number -> string.
Variable snippets : string -> optional string.
Variable stringifyItem : PayloadItem -> string.
Variable invokeChatCompletion : nat -> Batch -> list VerificationItem.
Variable minConfidence : number.

Lemma runVerifierPass_facts (R : Fact -> Fact -> Prop) (facts : list Fact) :
  (forall f, R f f) ->
  (forall f v, R f (applyVerification minConfidence f v)) ->
  Forall2 R facts
    (vr_facts (runVerifierPass numberToString snippets stringifyItem
                 invokeChatCompletion minConfidence facts)).
Proof.
  intros Hrefl Happly. unfold runVerifierPass. destruct (filter _ facts) eqn:E.
  - simpl. clear E. induction facts; constructor; [apply Hrefl | assumption].
  - destruct (prevalidate numberToString snippets _) as [ws pre]. simpl.
    apply Forall2_map_right. intros x. unfold verifyFact.
    destruct (find _ _); [apply Happly | apply Hrefl].
Qed.

(** X11. The verification pass returns the facts it is given, one for
    one and in their order, and changes at most their confidence, gate and
    notes: path, pointer, values, source kind and anchors are as before,
    also for a fact whose anchors were capped for the request. *)
Theorem runVerifierPass_changes_only_the_verdict (facts : list Fact) :
  Forall2
    (fun before after =>
       jsonPath after = jsonPath before
       /\ jsonPointer after = jsonPointer before
       /\ currentValue after = currentValue before
       /\ proposedValue after = proposedValue before
       /\ sourceKind after = sourceKind before
       /\ repoSources after = repoSources before)
    facts
    (vr_facts (runVerifierPass numberToString snippets stringifyItem
                 invokeChatCompletion minConfidence facts)).
Proof.
  apply runVerifierPass_facts.
  - intros f. now repeat split.
  - intros f v. apply applyVerification_frame.
Qed.

(** X12. The verification pass turns no gate into [OK]: a fact whose gate
    is [OK] after the pass had the gate [OK] before it. The gate of a fact
    returned is the gate it came with, or the gate that a failed
    verification sets, whatever the gate was: [Require] when the
    confidence it leaves with is below the minimum of the run, [Warn]
    otherwise. *)
Theorem runVerifierPass_never_promotes_to_OK (facts : list Fact) :
  Forall2
    (fun before after =>
       (gate after = OK -> gate before = OK)
       /\ (gate after = gate before
           \/ gate after = downgradedGate minConfidence (confidence after)))
    facts
    (vr_facts (runVerifierPass numberToString snippets stringifyItem
                 invokeChatCompletion minConfidence facts)).
Proof.
  apply runVerifierPass_facts.
  - intros f. split; [tauto | now left].
  - intros f v. split; [apply applyVerification_gate | apply applyVerification_gates].
Qed.

(** ** The batches *)

Lemma batchStep_items (st : BatchState) (item : PayloadItem) :
  (List.concat (List.map b_facts (batches (batchStep snippets stringifyItem st item)))
   ++ currentBatchFacts (batchStep snippets stringifyItem st item))%list
  = ((List.concat (List.map b_facts (batches st)) ++ currentBatchFacts st) ++ [item])%list.
Proof.
  unfold batchStep.
  destruct (collectNewSnippets snippets _ _ _) as [ns tokens].
  destruct (_ && _); simpl.
  - rewrite map_app, List.concat_app. simpl. now rewrite !app_nil_r.
  - now rewrite app_assoc.
Qed.

Lemma batchStep_nonempty (st : BatchState) (item : PayloadItem) :
  forallb (fun b => nonEmpty (b_facts b)) (batches st) = true ->
  forallb (fun b => nonEmpty (b_facts b))
          (batches (batchStep snippets stringifyItem st item)) = true
  /\ nonEmpty (currentBatchFacts (batchStep snippets stringifyItem st item)) = true.
Proof.
  intros H. unfold batchStep.
  destruct (collectNewSnippets snippets _ _ _) as [ns tokens].
  destruct (_ && nonEmpty (currentBatchFacts st)) eqn:E; simpl.
  - apply andb_true_iff in E. destruct E as [_ E]. split; [|reflexivity].
    rewrite forallb_app, H. simpl. now rewrite E.
  - split; [exact H|]. now destruct (currentBatchFacts st).
Qed.

(** X13. The batching loop of the verifier puts every fact of the payload
    in exactly one batch and keeps their order: the facts of the batches,
    one batch after the other, are the facts of the payload; and no batch
    is empty. *)
Theorem makeBatches_partitions_the_payload (items : list PayloadItem) :
  List.concat (List.map b_facts (makeBatches snippets stringifyItem items)) = items
  /\ forallb (fun b => nonEmpty (b_facts b)) (makeBatches snippets stringifyItem items)
     = true.
Proof.
  unfold makeBatches.
  assert (G : forall l st,
             forallb (fun b => nonEmpty (b_facts b)) (batches st) = true ->
             (List.concat (List.map b_facts
                        (batches (fold_left (batchStep snippets stringifyItem) l st)))
              ++ currentBatchFacts (fold_left (batchStep snippets stringifyItem) l st))%list
             = ((List.concat (List.map b_facts (batches st)) ++ currentBatchFacts st) ++ l)%list
             /\ forallb (fun b => nonEmpty (b_facts b))
                        (batches (fold_left (batchStep snippets stringifyItem) l st))
                = true).
  { induction l as [|i t IH]; simpl; intros st Hst.
    - now rewrite app_nil_r.
    - destruct (batchStep_nonempty st i Hst) as [Hb _].
      destruct (IH _ Hb) as [H1 H2]. split; [|exact H2].
      rewrite H1, batchStep_items. now rewrite <- (app_assoc _ [i] t). }
  destruct (G items {| batches := []; currentBatchFacts := [];
                       currentBatchSnippets := []; currentTokens := O |} eq_refl)
    as [H1 H2].
  simpl in H1. destruct (nonEmpty (currentBatchFacts _)) eqn:E.
  - split.
    + rewrite map_app, List.concat_app. simpl. now rewrite app_nil_r.
    + rewrite forallb_app, H2. simpl. now rewrite E.
  - split; [|exact H2].
    destruct (currentBatchFacts _); [|discriminate]. now rewrite app_nil_r in H1.
Qed.


Lemma collectNewSnippets_keys (current : JsMap.t) (anchors : list PayloadAnchor)
    (itemTokens : nat) (k : string) :
  truthyOpt (JsMap.get current k) = true ->
  JsMap.get (fst (collectNewSnippets snippets current anchors itemTokens)) k = None.
Proof.
  intros Hk. unfold collectNewSnippets.
  apply fold_left_invariant with
    (I := fun acc : JsMap.t (V := string) * nat => JsMap.get (fst acc) k = None).
  - reflexivity.
  - intros [ns tokens] anchor Hacc. simpl in Hacc.
    destruct (truthyOpt (JsMap.get current (pa_anchorId anchor))) eqn:E; [exact Hacc|].
    simpl. rewrite get_set_other; [exact Hacc|].
    intros H. rewrite H in E. congruence.
Qed.

Lemma assign_absent (target source : JsMap.t (V := string)) (k : string) :
  JsMap.get target k = None -> JsMap.get source k = None ->
  JsMap.get (assign target source) k = None.
Proof.
  unfold assign. revert target.
  induction source as [|[k' v'] r IH]; simpl; intros target Ht Hs; [exact Ht|].
  destruct (String.eqb k' k) eqn:E; [discriminate|].
  apply IH; [|exact Hs]. rewrite get_set_other; [exact Ht|].
  intros ->. rewrite String.eqb_refl in E. discriminate.
Qed.

(** X14. When an item makes the batching loop of the verifier close the
    current batch, the snippets that the item shares with the closed batch
    are not carried over: the new batch holds the item, and names the
    anchor, without holding the snippet of that anchor. *)
Theorem batchStep_drops_shared_snippets_on_flush
    (st : BatchState) (item : PayloadItem) (anchor : PayloadAnchor) :
  (MAX_BATCH_TOKENS
   <? currentTokens st
      + snd (collectNewSnippets snippets (currentBatchSnippets st) (p_anchors item)
               (estimateTokens (stringifyItem item))))%nat = true ->
  nonEmpty (currentBatchFacts st) = true ->
  In anchor (p_anchors item) ->
  truthyOpt (JsMap.get (currentBatchSnippets st) (pa_anchorId anchor)) = true ->
  currentBatchFacts (batchStep snippets stringifyItem st item) = [item]
  /\ JsMap.get (currentBatchSnippets (batchStep snippets stringifyItem st item))
               (pa_anchorId anchor) = None.
Proof.
  intros Hover Hne Hin Hheld. unfold batchStep.
  pose proof (collectNewSnippets_keys (currentBatchSnippets st) (p_anchors item)
                (estimateTokens (stringifyItem item)) (pa_anchorId anchor) Hheld) as Hnew.
  destruct (collectNewSnippets snippets _ _ _) as [ns tokens].
  simpl in Hover, Hnew. rewrite Hover, Hne. simpl. split; [reflexivity|].
  now apply assign_absent.
Qed.

End VerifierPassFacts.

Lemma batchStep_drops_shared_snippets_on_flush_witness :
  (MAX_BATCH_TOKENS
   <? currentTokens afterFirstItem
      + snd (collectNewSnippets readmeSnippets (currentBatchSnippets afterFirstItem)
               (p_anchors secondItem) (estimateTokens (longText secondItem))))%nat = true
  /\ nonEmpty (currentBatchFacts afterFirstItem) = true
  /\ In sharedAnchor (p_anchors secondItem)
  /\ truthyOpt (JsMap.get (currentBatchSnippets afterFirstItem)
                          (pa_anchorId sharedAnchor)) = true
  /\ currentBatchFacts (batchStep readmeSnippets longText afterFirstItem secondItem)
     = [secondItem]
  /\ JsMap.get (currentBatchSnippets
                  (batchStep readmeSnippets longText afterFirstItem secondItem))
               (pa_anchorId sharedAnchor) = None.
Proof.
  split; [vm_compute; reflexivity|]. split; [reflexivity|].
  split; [simpl; tauto|]. split; [reflexivity|].
  apply (batchStep_drops_shared_snippets_on_flush readmeSnippets longText
           afterFirstItem secondItem sharedAnchor).
  - vm_compute. reflexivity.
  - reflexivity.
  - simpl. tauto.
  - reflexivity.
Defined.

(* ===================================================================== *)
(** * The deterministic baseline *)
(* ===================================================================== *)

Lemma baselineDrafts_plain (baseline : value) (context : RepositoryInsights) :
  Forall (fun d => d_gate d = None /\ d_sourceKind d = extracted)
         (baselineDrafts baseline context).
Proof.
  unfold baselineDrafts, when.
  repeat (apply Forall_app; split);
    repeat match goal with
           | |- Forall _ (if ?b then _ else _) => destruct b
           end;
    repeat constructor.
Qed.

Lemma fold_addFact_of_drafts (head : string) (P : Fact -> Prop) (Q : DraftFact -> Prop)
    (drafts : list DraftFact) :
  Forall Q drafts -> (forall d, Q d -> P (toFact d head)) ->
  forall acc, Forall P acc -> Forall P (fold_left (addFact head) drafts acc).
Proof.
  intros HQ HP. induction HQ as [|d t Hd Ht IH]; simpl; intros acc Hacc; [exact Hacc|].
  apply IH. unfold addFact. destruct (d_anchors d) as [[|a r]|]; try exact Hacc.
  apply Forall_app. split; [exact Hacc|]. constructor; [now apply HP | constructor].
Qed.

(** X15. Every fact of the deterministic baseline is of the kind
    [extracted], and each of its anchors carries the head commit of the
    run. *)
Theorem buildFacts_pins_anchors_to_the_head_commit
    (baseline : value) (context : RepositoryInsights) (now : string)
    (changedFiles : list string) :
  Forall (fun f => sourceKind f = extracted
                   /\ Forall (fun a => a_commit a = headSha context) (repoSources f))
         (buildFacts baseline context now changedFiles).
Proof.
  unfold buildFacts. apply Forall_app. split.
  - apply fold_addFact_of_drafts with (Q := fun d => d_gate d = None /\ d_sourceKind d = extracted).
    + apply baselineDrafts_plain.
    + intros d [_ Hk]. split; [exact Hk|]. unfold toFact. cbn [repoSources].
      apply Forall_forall. intros a Ha. apply in_map_iff in Ha.
      destruct Ha as [x [<- _]]. reflexivity.
    + constructor.
  - unfold buildChangelogFacts. destruct changedFiles as [|p r]; constructor; [|constructor].
    split; [reflexivity|]. cbn [repoSources].
    apply Forall_forall. intros a Ha. apply in_map_iff in Ha.
    destruct Ha as [x [<- _]]. reflexivity.
Qed.

(** ** The position of the changelog fact *)

Lemma digits_fuel_value (fuel : nat) :
  forall (n : nat) (acc : string),
    (n < fuel)%nat ->
    digits_value (digits_fuel fuel n acc) O = digits_value acc n.
Proof.
  induction fuel as [|f IH]; intros n acc Hn; [lia|].
  cbn [digits_fuel].
  assert (D : (nat_of_ascii (ascii_of_nat (48 + n mod 10)) - 48 = n mod 10)%nat).
  { rewrite nat_ascii_embedding; [lia|].
    pose proof (Nat.mod_upper_bound n 10). lia. }
  destruct (n <? 10)%nat eqn:E.
  - apply Nat.ltb_lt in E. cbn [digits_value]. rewrite D.
    rewrite Nat.mod_small by exact E. f_equal.
  - apply Nat.ltb_ge in E. rewrite IH.
    + cbn [digits_value]. rewrite D. f_equal.
      pose proof (Nat.div_mod_eq n 10). lia.
    + pose proof (Nat.div_lt n 10). lia.
Qed.

Lemma digits_fuel_digits (fuel : nat) :
  forall (n : nat) (acc : string),
    forallb_string isDigit acc = true ->
    forallb_string isDigit (digits_fuel fuel n acc) = true.
Proof.
  induction fuel as [|f IH]; intros n acc Hacc; [exact Hacc|].
  cbn [digits_fuel].
  assert (D : forallb_string isDigit (String (ascii_of_nat (48 + n mod 10)) acc) = true).
  { cbn [forallb_string]. rewrite Hacc, andb_true_r. unfold isDigit.
    rewrite nat_ascii_embedding by (pose proof (Nat.mod_upper_bound n 10); lia).
    pose proof (Nat.mod_upper_bound n 10).
    apply andb_true_intro. split; apply Nat.leb_le; lia. }
  destruct (n <? 10)%nat; [exact D | now apply IH].
Qed.

Lemma digits_fuel_head (fuel : nat) :
  forall (n : nat) (acc : string),
    (0 < n < fuel)%nat ->
    exists c r, digits_fuel fuel n acc = String c r /\ c <> "0"%char.
Proof.
  induction fuel as [|f IH]; intros n acc Hn; [lia|].
  cbn [digits_fuel]. destruct (n <? 10)%nat eqn:E.
  - apply Nat.ltb_lt in E. exists (ascii_of_nat (48 + n mod 10)), acc.
    split; [reflexivity|]. rewrite Nat.mod_small by exact E.
    intros H. apply (f_equal nat_of_ascii) in H.
    rewrite nat_ascii_embedding in H by lia.
    change (nat_of_ascii "0") with 48%nat in H. lia.
  - apply Nat.ltb_ge in E. apply IH.
    pose proof (Nat.div_lt n 10). 
    assert (1 <= n / 10)%nat by (apply Nat.div_le_lower_bound; lia). lia.
Qed.

(** [String(n)] is read back as the index [n]. *)
Lemma arrayIndex_nat_to_string (n : nat) : arrayIndex (nat_to_string n) = Some n.
Proof.
  destruct n as [|n]; [reflexivity|].
  unfold nat_to_string.
  destruct (digits_fuel_head (S (S n)) (S n) "") as [c [r [E Hc]]]; [lia|].
  pose proof (digits_fuel_value (S (S n)) (S n) "" ltac:(lia)) as V.
  pose proof (digits_fuel_digits (S (S n)) (S n) "" eq_refl) as D.
  rewrite E in *. unfold arrayIndex.
  destruct c as [b0 b1 b2 b3 b4 b5 b6 b7].
  destruct b0, b1, b2, b3, b4, b5, b6, b7; try (exfalso; apply Hc; reflexivity);
    rewrite D; f_equal; exact V.
Qed.

Lemma split_on_digits (s : string) :
  forallb_string isDigit s = true -> split_on "/" s = [s].
Proof.
  induction s as [|c r IH]; [reflexivity|].
  cbn [forallb_string]. intros H. apply andb_true_iff in H. destruct H as [Hc Hr].
  cbn [split_on]. rewrite (IH Hr).
  destruct (Ascii.eqb c "/") eqn:E; [|reflexivity].
  apply Ascii.eqb_eq in E. subst c. discriminate.
Qed.

Lemma unescape_digits (s : string) :
  forallb_string isDigit s = true -> unescapeTilde (unescapeSlash s) = s.
Proof.
  induction s as [|c r IH]; [reflexivity|].
  cbn [forallb_string]. intros H. apply andb_true_iff in H. destruct H as [Hc Hr].
  assert (N : c <> "~"%char) by (intros ->; discriminate).
  assert (U : unescapeSlash (String c r) = String c (unescapeSlash r)).
  { destruct c as [[] [] [] [] [] [] [] []]; try reflexivity. now contradiction N. }
  rewrite U.
  assert (T : unescapeTilde (String c (unescapeSlash r))
              = String c (unescapeTilde (unescapeSlash r))).
  { destruct c as [[] [] [] [] [] [] [] []]; try reflexivity. now contradiction N. }
  rewrite T. now rewrite (IH Hr).
Qed.

Lemma nat_to_string_digits (n : nat) : forallb_string isDigit (nat_to_string n) = true.
Proof. unfold nat_to_string. now apply digits_fuel_digits. Qed.

Lemma changelog_tokens (index : string) :
  forallb_string isDigit index = true ->
  pointerTokens ("/provenance/changelog/" ++ index) = ["provenance"; "changelog"; index].
Proof.
  intros H. unfold pointerTokens.
  change ("/provenance/changelog/" ++ index)
    with (String "/" ("provenance" ++ String "/" ("changelog" ++ String "/" index))).
  cbn [split_on Ascii.eqb Bool.eqb append].
  rewrite (split_on_digits _ H). cbn [tl List.map].
  now rewrite (unescape_digits _ H).
Qed.

Lemma getValueAtTokens_undefined (tokens : list string) :
  getValueAtTokens None tokens = None.
Proof. destruct tokens; reflexivity. Qed.

Lemma getValueAtTokens_app (l1 l2 : list string) :
  forall cursor,
    getValueAtTokens cursor (l1 ++ l2)
    = getValueAtTokens (getValueAtTokens cursor l1) l2.
Proof.
  induction l1 as [|t r IH]; intros cursor; [reflexivity|].
  cbn [app getValueAtTokens].
  destruct cursor as [[]|]; try apply IH; now rewrite getValueAtTokens_undefined.
Qed.

(** X16. For a baseline whose changelog is an array, the changelog fact
    of the deterministic baseline is proposed at the first free index of
    that array: its pointer names the position after the last entry, and
    its current value is undefined. *)
Theorem buildChangelogFacts_targets_the_first_free_index
    (baseline : value) (context : RepositoryInsights) (now : string)
    (changedFiles : list string) (entries : list value) :
  nonEmpty changedFiles = true ->
  getValueAtPointer baseline "/provenance/changelog" = Some (VArr entries) ->
  exists f,
    buildChangelogFacts baseline context now changedFiles = [f]
    /\ jsonPointer f
       = Some ("/provenance/changelog/" ++ nat_to_string (List.length entries))
    /\ option_map pointerTokens (jsonPointer f)
       = Some ["provenance"; "changelog"; nat_to_string (List.length entries)]
    /\ arrayIndex (nat_to_string (List.length entries)) = Some (List.length entries)
    /\ currentValue f = None.
Proof.
  intros Hfiles Hlog. unfold buildChangelogFacts.
  destruct changedFiles as [|p r]; [discriminate|].
  unfold changelogOf. rewrite Hlog.
  eexists. split; [reflexivity|]. cbn [jsonPointer currentValue option_map].
  pose proof (nat_to_string_digits (List.length entries)) as D.
  split; [reflexivity|]. split; [now rewrite changelog_tokens|].
  split; [apply arrayIndex_nat_to_string|].
  unfold getValueAtPointer. rewrite (changelog_tokens _ D).
  change ["provenance"; "changelog"; nat_to_string (List.length entries)]
    with (["provenance"; "changelog"] ++ [nat_to_string (List.length entries)])%list.
  rewrite getValueAtTokens_app.
  change (getValueAtTokens (Some baseline) ["provenance"; "changelog"])
    with (getValueAtPointer baseline "/provenance/changelog").
  rewrite Hlog. cbn [getValueAtTokens getProperty].
  assert (String.eqb (nat_to_string (List.length entries)) "length" = false) as Hname.
  { destruct (String.eqb _ "length") eqn:E; [|reflexivity].
    apply String.eqb_eq in E. rewrite E in D. discriminate D. }
  rewrite Hname, arrayIndex_nat_to_string. apply nth_error_None. lia.
Qed.

Lemma buildChangelogFacts_targets_the_first_free_index_witness :
  nonEmpty ["README.md"] = true
  /\ getValueAtPointer
       (VObj [("provenance", VObj [("changelog", VArr [VStr "first"; VStr "second"])])])
       "/provenance/changelog"
     = Some (VArr [VStr "first"; VStr "second"])
  /\ exists f,
       buildChangelogFacts
         (VObj [("provenance", VObj [("changelog", VArr [VStr "first"; VStr "second"])])])
         readmeInsights "2025-11-09T10:00:00.000Z" ["README.md"] = [f]
       /\ jsonPointer f
          = Some ("/provenance/changelog/"
                  ++ nat_to_string (List.length [VStr "first"; VStr "second"]))
       /\ option_map pointerTokens (jsonPointer f)
          = Some ["provenance"; "changelog";
                  nat_to_string (List.length [VStr "first"; VStr "second"])]
       /\ arrayIndex (nat_to_string (List.length [VStr "first"; VStr "second"]))
          = Some (List.length [VStr "first"; VStr "second"])
       /\ currentValue f = None.
Proof.
  split; [reflexivity|]. split; [reflexivity|].
  apply (buildChangelogFacts_targets_the_first_free_index
           (VObj [("provenance", VObj [("changelog", VArr [VStr "first"; VStr "second"])])])
           readmeInsights "2025-11-09T10:00:00.000Z" ["README.md"]
           [VStr "first"; VStr "second"]).
  - reflexivity.
  - reflexivity.
Defined.

(* ===================================================================== *)
(** * The apply engine *)
(* ===================================================================== *)

(** ** The decisions of the reviewer *)

Lemma fold_set_other {V : Type} (key : V -> string) (l : list V) (k : string) :
  forallb (fun x => negb (String.eqb (key x) k)) l = true ->
  forall m : JsMap.t (V := V),
    JsMap.get (fold_left (fun m d => JsMap.set m (key d) d) l m) k = JsMap.get m k.
Proof.
  induction l as [|x t IH]; simpl; intros H m; [reflexivity|].
  apply andb_true_iff in H. destruct H as [Hx Ht].
  rewrite (IH Ht). apply get_set_other.
  intros E. rewrite E, String.eqb_refl in Hx. discriminate.
Qed.

(** X17. When a path was decided more than once, the last decision
    counts: [decisionByPath] of [filterFacts] finds the decision that no
    later decision for the same path follows. *)
Theorem decisionByPath_finds_the_last_decision
    (earlier later : list Decision) (d : Decision) :
  forallb (fun x => negb (String.eqb (dec_jsonPath x) (dec_jsonPath d))) later = true ->
  decisionByPath (earlier ++ d :: later) (dec_jsonPath d) = Some d.
Proof.
  intros H. unfold decisionByPath. rewrite fold_left_app. cbn [fold_left].
  rewrite (fold_set_other dec_jsonPath later (dec_jsonPath d) H).
  apply get_set_same.
Qed.

Lemma decisionByPath_finds_the_last_decision_witness :
  forallb (fun x => negb (String.eqb (dec_jsonPath x) (dec_jsonPath correction)))
          reviewDecisions = true
  /\ decisionByPath ([rejection] ++ correction :: reviewDecisions)
                    (dec_jsonPath correction) = Some correction.
Proof.
  split; [reflexivity|].
  apply (decisionByPath_finds_the_last_decision [rejection] reviewDecisions correction).
  reflexivity.
Defined.

Lemma filterFacts_each (decisions : list Decision) (x f : Fact) :
  In f match decisionByPath decisions (jsonPath x) with
       | None => if Gate_eqb (gate x) OK then [x] else []
       | Some decision =>
           match dec_decision decision, dec_editedValue decision with
           | reject, _ => []
           | edit, Some edited =>
               [{| jsonPath := jsonPath x; jsonPointer := jsonPointer x;
                   currentValue := currentValue x;
                   proposedValue := Some edited;
                   sourceKind := sourceKind x;
                   repoSources := orElse (dec_anchors decision) (repoSources x);
                   confidence := confidence x; gate := OK;
                   verifierNotes := verifierNotes x |}]
           | _, _ => [x]
           end
       end ->
  jsonPath f = jsonPath x
  /\ match decisionByPath decisions (jsonPath x) with
     | None => gate f = OK
     | Some d =>
         match dec_decision d, dec_editedValue d with
         | reject, _ => False
         | edit, Some edited => gate f = OK /\ proposedValue f = Some edited
         | _, _ => f = x
         end
     end.
Proof.
  destruct (decisionByPath decisions (jsonPath x)) as [d|].
  - destruct (dec_decision d), (dec_editedValue d); simpl; intros H;
      try contradiction; destruct H as [<-|[]]; simpl; auto.
  - destruct (gate x) eqn:G; simpl; intros H; try contradiction.
    destruct H as [<-|[]]. auto.
Qed.

(** X18. What [filterFacts] of [apply.ts] lets through: a fact whose last
    decision is [reject] never; an undecided fact only with the gate [OK];
    a fact decided by [edit] with an edited value carries that value and
    the gate [OK]. *)
Theorem filterFacts_obeys_the_decisions (facts : list Fact) (decisions : list Decision) :
  Forall
    (fun f =>
       match decisionByPath decisions (jsonPath f) with
       | None => gate f = OK
       | Some d =>
           match dec_decision d, dec_editedValue d with
           | reject, _ => False
           | edit, Some edited => gate f = OK /\ proposedValue f = Some edited
           | _, _ => True
           end
       end)
    (filterFacts facts decisions).
Proof.
  apply Forall_forall. intros f Hf. unfold filterFacts in Hf.
  destruct decisions as [|d0 ds].
  - apply filter_In in Hf. destruct Hf as [_ Hg].
    unfold decisionByPath. simpl. now destruct (gate f).
  - apply in_flat_map in Hf. destruct Hf as [x [_ Hx]].
    apply filterFacts_each in Hx. destruct Hx as [Hp Hd]. rewrite Hp.
    destruct (decisionByPath (d0 :: ds) (jsonPath x)) as [d|]; [|exact Hd].
    destruct (dec_decision d), (dec_editedValue d); auto.
Qed.

(** ** The pointer of a path *)

Lemma substring_all (s : string) : String.substring 0 (String.length s) s = s.
Proof. induction s as [|c r IH]; simpl; [reflexivity | now rewrite IH]. Qed.

Lemma split_on_nonempty (sep : ascii) (s : string) : split_on sep s <> [].
Proof.
  destruct s as [|c r]; simpl; [discriminate|].
  destruct (Ascii.eqb c sep); [discriminate|].
  destruct (split_on sep r); discriminate.
Qed.

Lemma concat_cons (sep x : string) (l : list string) :
  l <> [] -> String.concat sep (x :: l) = x ++ sep ++ String.concat sep l.
Proof. destruct l; [congruence | reflexivity]. Qed.

Lemma concat_split_dots (s : string) :
  String.concat "/" (split_on "." s) = dotsToSlashes s.
Proof.
  unfold dotsToSlashes. induction s as [|c r IH]; [reflexivity|].
  cbn [split_on map_string]. destruct (Ascii.eqb c ".") eqn:E.
  - rewrite concat_cons by apply split_on_nonempty. now rewrite IH.
  - pose proof (split_on_nonempty "." r) as N.
    destruct (split_on "." r) as [|h t]; [congruence|].
    destruct t as [|h' t'].
    + simpl in *. now rewrite <- IH.
    + rewrite concat_cons by discriminate.
      rewrite concat_cons in IH by discriminate.
      simpl. now rewrite <- IH.
Qed.

Lemma includes_bracket (s : string) :
  includes s "[" = false ->
  forallb_string (fun c => negb (Ascii.eqb c "[")) s = true.
Proof.
  induction s as [|c r IH]; [reflexivity|].
  cbn [includes forallb_string String.prefix]. intros H.
  apply orb_false_iff in H. destruct H as [Hc Hr].
  rewrite (IH Hr), andb_true_r.
  destruct (Ascii.eqb c "[") eqn:E; [|reflexivity].
  apply Ascii.eqb_eq in E. subst c.
  destruct (ascii_dec "[" "[") as [_|N]; [|now contradiction N].
  destruct r; discriminate.
Qed.

Lemma bracketsToSlashes_fuel_plain (fuel : nat) :
  forall s,
    forallb_string (fun c => negb (Ascii.eqb c "[")) s = true ->
    bracketsToSlashes_fuel fuel s = s.
Proof.
  induction fuel as [|f IH]; intros s H; [reflexivity|].
  destruct s as [|c r]; [reflexivity|].
  cbn [forallb_string] in H. apply andb_true_iff in H. destruct H as [Hc Hr].
  cbn [bracketsToSlashes_fuel]. apply negb_true_iff in Hc. rewrite Hc.
  now rewrite (IH r Hr).
Qed.

Lemma dotsToSlashes_plain (s : string) :
  forallb_string (fun c => negb (Ascii.eqb c "[")) s = true ->
  forallb_string (fun c => negb (Ascii.eqb c "[")) (dotsToSlashes s) = true.
Proof.
  unfold dotsToSlashes. induction s as [|c r IH]; [reflexivity|].
  cbn [forallb_string map_string]. intros H.
  apply andb_true_iff in H. destruct H as [Hc Hr].
  rewrite (IH Hr), andb_true_r.
  destruct (Ascii.eqb c "."); [reflexivity | exact Hc].
Qed.

Lemma startsWith_char (c : ascii) (r : string) (d : ascii) :
  startsWith (String c r) (String d EmptyString) = Ascii.eqb d c.
Proof.
  unfold startsWith. cbn [String.prefix].
  destruct (ascii_dec d c) as [->|N].
  - rewrite Ascii.eqb_refl. now destruct r.
  - symmetry. now apply Ascii.eqb_neq.
Qed.

(** X19. For a path [$.] followed by names separated by dots, without
    brackets, the pointer with which [repairRedactedPointers] of [apply.ts]
    replaces a redacted pointer is the pointer that the extraction pass
    derives from the path. *)
Theorem jsonPathToPointer_agrees_with_derivePointer (rest : string) :
  includes rest "[" = false ->
  startsWith rest "." = false ->
  startsWith rest "/" = false ->
  jsonPathToPointer ("$." ++ rest) = Some (derivePointer ("$." ++ rest)).
Proof.
  intros Hb Hdot Hslash. unfold jsonPathToPointer, derivePointer.
  change ("$." ++ rest) with (String "$" (String "." rest)).
  cbn [truthy String.eqb negb andb stripDollar String.length].
  assert (S2 : startsWith (String "$" (String "." rest)) "$." = true).
  { unfold startsWith. simpl.
    destruct (ascii_dec "$" "$") as [_|N]; [|now contradiction N].
    destruct (ascii_dec "." ".") as [_|N]; [|now contradiction N].
    now destruct rest. }
  rewrite S2.
  replace (S (S (String.length rest)) - 2)%nat with (String.length rest) by lia.
  cbn [String.substring]. rewrite substring_all, concat_split_dots.
  unfold bracketsToSlashes.
  rewrite bracketsToSlashes_fuel_plain
    by (apply dotsToSlashes_plain; now apply includes_bracket).
  assert (P : startsWith (dotsToSlashes rest) "/" = false).
  { destruct rest as [|c r]; [reflexivity|].
    rewrite startsWith_char in Hdot, Hslash.
    unfold dotsToSlashes. cbn [map_string]. rewrite startsWith_char.
    rewrite Ascii.eqb_sym in Hdot. rewrite Hdot.
    exact Hslash. }
  now rewrite P.
Qed.

Lemma jsonPathToPointer_agrees_with_derivePointer_witness :
  includes "devInsight.qualitySignals.complexityHints" "[" = false
  /\ startsWith "devInsight.qualitySignals.complexityHints" "." = false
  /\ startsWith "devInsight.qualitySignals.complexityHints" "/" = false
  /\ jsonPathToPointer ("$." ++ "devInsight.qualitySignals.complexityHints")
     = Some (derivePointer ("$." ++ "devInsight.qualitySignals.complexityHints")).
Proof.
  split; [reflexivity|]. split; [reflexivity|]. split; [reflexivity|].
  apply (jsonPathToPointer_agrees_with_derivePointer
           "devInsight.qualitySignals.complexityHints"); reflexivity.
Defined.

(** ** The field metadata *)

Lemma updateFieldMeta_appends (facts : list Fact) (state state' : list value * bool)
    (decision : Decision) :
  updateFieldMeta facts state decision = Ok state' ->
  exists added,
    fst state' = (fst state ++ added)%list /\ snd state' = snd state || nonEmpty added.
Proof.
  unfold updateFieldMeta.
  destruct (find _ facts) as [fact|].
  - destruct (findMetaIndex _ _ _) as [[i|]|e]; simpl; intros H; try discriminate;
      injection H as <-.
    + exists []. now rewrite app_nil_r, orb_false_r.
    + exists [newMetaItem decision fact]. simpl. now rewrite orb_true_r.
  - intros H. injection H as <-. exists []. now rewrite app_nil_r, orb_false_r.
Qed.

(** X20. For decisions that set no guard, the loop of
    [filterPatchByDecisions] over the decisions only appends to the field
    metadata: the items that the card holds are kept as they are and in
    their place, and the metadata counts as changed exactly when an item
    was appended. *)
Theorem fieldMeta_is_only_appended_to
    (facts : list Fact) (decisions : list Decision) (state state' : list value * bool) :
  fold_result (updateFieldMeta facts) decisions state = Ok state' ->
  exists added,
    fst state' = (fst state ++ added)%list /\ snd state' = snd state || nonEmpty added.
Proof.
  revert state. induction decisions as [|d t IH]; simpl; intros state H.
  - injection H as <-. exists []. now rewrite app_nil_r, orb_false_r.
  - destruct (updateFieldMeta facts state d) as [s1|e] eqn:E; [|discriminate].
    simpl in H. apply updateFieldMeta_appends in E. destruct E as [a1 [E1 E2]].
    apply IH in H. destruct H as [a2 [H1 H2]].
    exists (a1 ++ a2)%list. rewrite H1, E1, H2, E2. split.
    + now rewrite app_assoc.
    + rewrite <- orb_assoc. f_equal. now destruct a1, a2.
Qed.

Lemma fieldMeta_is_only_appended_to_witness :
  fold_result (updateFieldMeta (prop_facts reviewedProposal))
    (reviewDecisions ++ [correction])
    ([VObj [("path", VStr "$.meta.title")]], false)
  = Ok reviewedMeta
  /\ exists added,
       fst reviewedMeta = (fst ([VObj [("path", VStr "$.meta.title")]], false) ++ added)%list
       /\ snd reviewedMeta
          = snd ([VObj [("path", VStr "$.meta.title")]], false) || nonEmpty added.
Proof.
  split; [vm_compute; reflexivity|].
  apply (fieldMeta_is_only_appended_to (prop_facts reviewedProposal)
           (reviewDecisions ++ [correction])
           ([VObj [("path", VStr "$.meta.title")]], false) reviewedMeta).
  vm_compute. reflexivity.
Defined.

(** ** The operations of the patch *)

Lemma Ok_inj {A : Type} (a b : A) : Ok a = Ok b -> a = b.
Proof. intros H. now injection H. Qed.

Lemma factOperations_targets (stringToPath : string -> list string) (card : value)
    (facts : list Fact) (f : Fact) (state : list Operation * list string) :
  In f facts ->
  Forall
    (fun op =>
       (exists g, In g facts /\ jsonPointer g = Some (op_path op)
                  /\ op_value op = proposedValue g)
       \/ (exists g pointer,
              In g facts /\ jsonPointer g = Some pointer
              /\ op_path op = "/" ++ String.concat "/" (removelast (pointerParts pointer))
              /\ (op_value op = Some (VArr []) \/ op_value op = Some (VObj []))))
    (fst state) ->
  Forall
    (fun op =>
       (exists g, In g facts /\ jsonPointer g = Some (op_path op)
                  /\ op_value op = proposedValue g)
       \/ (exists g pointer,
              In g facts /\ jsonPointer g = Some pointer
              /\ op_path op = "/" ++ String.concat "/" (removelast (pointerParts pointer))
              /\ (op_value op = Some (VArr []) \/ op_value op = Some (VObj []))))
    (fst (factOperations stringToPath card state f)).
Proof.
  intros Hf Hstate. destruct state as [operations fixedPaths]. unfold factOperations.
  destruct (jsonPointer f) as [pointer|] eqn:Ep; [|exact Hstate].
  destruct (negb (truthy pointer)); [exact Hstate|].
  assert (Value : Forall
                    (fun op =>
                       (exists g, In g facts /\ jsonPointer g = Some (op_path op)
                                  /\ op_value op = proposedValue g)
                       \/ (exists g pointer,
                              In g facts /\ jsonPointer g = Some pointer
                              /\ op_path op
                                 = "/" ++ String.concat "/" (removelast (pointerParts pointer))
                              /\ (op_value op = Some (VArr [])
                                  \/ op_value op = Some (VObj []))))
                    [{| op_path := pointer; op_value := proposedValue f |}]).
  { constructor; [|constructor]. left. exists f. cbn [op_path op_value]. auto. }
  assert (Init : Forall
                   (fun op =>
                      (exists g, In g facts /\ jsonPointer g = Some (op_path op)
                                 /\ op_value op = proposedValue g)
                      \/ (exists g pointer,
                             In g facts /\ jsonPointer g = Some pointer
                             /\ op_path op
                                = "/" ++ String.concat "/" (removelast (pointerParts pointer))
                             /\ (op_value op = Some (VArr [])
                                 \/ op_value op = Some (VObj []))))
                   [{| op_path := "/" ++ String.concat "/" (removelast (pointerParts pointer));
                       op_value :=
                         Some (if allDigits (last (pointerParts pointer) "")
                                  || String.eqb (last (pointerParts pointer) "") "-"
                               then VArr [] else VObj []) |}]).
  { constructor; [|constructor]. right. exists f, pointer. cbn [op_path op_value].
    repeat split; auto.
    destruct (allDigits _ || _); auto. }
  cbn [fst] in Hstate.
  destruct (1 <? List.length (pointerParts pointer))%nat.
  - destruct (lodashGet stringToPath card _) as [[]|];
      try (cbn [fst]; rewrite app_nil_l; apply Forall_app; split; assumption);
      (destruct (includes_string fixedPaths _); cbn [fst];
       [rewrite app_nil_l; apply Forall_app; split; assumption
       |apply Forall_app; split; [assumption | apply Forall_app; split; assumption]]).
  - cbn [fst]. rewrite app_nil_l. apply Forall_app. split; assumption.
Qed.

(** X21. The patch that [filterPatchByDecisions] of [apply.ts] builds
    writes nowhere else than this: at the pointer of an accepted fact, the
    proposed value of that fact; at the parent of such a pointer, an empty
    array or an empty object; at [/ai], an empty object; and at
    [/ai/fieldMeta]. *)
Theorem filterPatchByDecisions_writes_only_accepted_facts
    (stringToPath : string -> list string) (proposal : Proposal)
    (acceptedFacts : list Fact) (card : value) (decisions : list Decision)
    (patch : list Operation) :
  filterPatchByDecisions stringToPath proposal acceptedFacts card decisions = Ok patch ->
  Forall
    (fun op =>
       (exists f, In f acceptedFacts /\ jsonPointer f = Some (op_path op)
                  /\ op_value op = proposedValue f)
       \/ (exists f pointer,
              In f acceptedFacts /\ jsonPointer f = Some pointer
              /\ op_path op = "/" ++ String.concat "/" (removelast (pointerParts pointer))
              /\ (op_value op = Some (VArr []) \/ op_value op = Some (VObj [])))
       \/ (op_path op = "/ai" /\ op_value op = Some (VObj []))
       \/ op_path op = "/ai/fieldMeta")
    patch.
Proof.
  unfold filterPatchByDecisions. intros H.
  assert (Facts : Forall
                    (fun op =>
                       (exists f, In f acceptedFacts /\ jsonPointer f = Some (op_path op)
                                  /\ op_value op = proposedValue f)
                       \/ (exists f pointer,
                              In f acceptedFacts /\ jsonPointer f = Some pointer
                              /\ op_path op
                                 = "/" ++ String.concat "/" (removelast (pointerParts pointer))
                              /\ (op_value op = Some (VArr [])
                                  \/ op_value op = Some (VObj [])))
                       \/ (op_path op = "/ai" /\ op_value op = Some (VObj []))
                       \/ op_path op = "/ai/fieldMeta")
                    (fst (fold_left (factOperations stringToPath card) acceptedFacts
                                    ([], [])))).
  { eapply Forall_impl;
      [|apply fold_left_invariant_In with
          (I := fun state : list Operation * list string =>
                  Forall
                    (fun op =>
                       (exists g, In g acceptedFacts /\ jsonPointer g = Some (op_path op)
                                  /\ op_value op = proposedValue g)
                       \/ (exists g pointer,
                              In g acceptedFacts /\ jsonPointer g = Some pointer
                              /\ op_path op
                                 = "/" ++ String.concat "/" (removelast (pointerParts pointer))
                              /\ (op_value op = Some (VArr [])
                                  \/ op_value op = Some (VObj []))))
                    (fst state));
        [constructor | intros state f Hf Hs; now apply factOperations_targets]].
    intros op [Hop|Hop]; [left | right; left]; exact Hop. }
  destruct (fold_result _ decisions _) as [[meta changed]|e]; [|discriminate].
  cbn [bind snd fst] in H. destruct changed.
  - apply Ok_inj in H. rewrite <- H.
    apply Forall_app. split; [exact Facts|]. apply Forall_app. split.
    + destruct (propertyOf card "ai") as [ai|];
        [destruct (truthyValue ai); [constructor|]|];
        (constructor; [|constructor]); right; right; left; split; reflexivity.
    + constructor; [|constructor]. right. right. right. reflexivity.
  - apply Ok_inj in H. now rewrite <- H.
Qed.

Lemma filterPatchByDecisions_writes_only_accepted_facts_witness :
  filterPatchByDecisions noBrackets reviewedProposal candidateFacts (VObj [])
    reviewDecisions = Ok reviewedPatch
  /\ Forall
       (fun op =>
          (exists f, In f candidateFacts /\ jsonPointer f = Some (op_path op)
                     /\ op_value op = proposedValue f)
          \/ (exists f pointer,
                 In f candidateFacts /\ jsonPointer f = Some pointer
                 /\ op_path op = "/" ++ String.concat "/" (removelast (pointerParts pointer))
                 /\ (op_value op = Some (VArr []) \/ op_value op = Some (VObj [])))
          \/ (op_path op = "/ai" /\ op_value op = Some (VObj []))
          \/ op_path op = "/ai/fieldMeta")
       reviewedPatch.
Proof.
  split; [vm_compute; reflexivity|].
  apply (filterPatchByDecisions_writes_only_accepted_facts noBrackets reviewedProposal
           candidateFacts (VObj []) reviewDecisions reviewedPatch).
  vm_compute. reflexivity.
Defined.

(** ** The speculative loop *)

Lemma filter_filter {A : Type} (p q : A -> bool) (l : list A) :
  filter p (filter q l) = filter (fun x => q x && p x) l.
Proof.
  induction l as [|x t IH]; simpl; [reflexivity|].
  destruct (q x); simpl; [destruct (p x); now rewrite IH | exact IH].
Qed.

(** X22. The speculative loop of [main()] in [apply.ts] adds no fact and
    keeps the order: the facts that survive it are the filtered facts with
    some left out. *)
Theorem speculativeLoop_only_drops_facts
    (stringToPath : string -> list string) (validate : value -> list string)
    (fuel : nat) (proposal : Proposal) (decisions : list Decision) (card : value)
    (patch : list Operation) (facts : list Fact) (r : list Operation * list Fact) :
  speculativeLoop stringToPath validate fuel proposal decisions card patch facts = Ok r ->
  exists keep : Fact -> bool, snd r = filter keep facts.
Proof.
  assert (All : facts = filter (fun _ => true) facts).
  { clear. induction facts as [|x t IH]; simpl; [reflexivity | now f_equal]. }
  revert patch facts All. induction fuel as [|n IH]; intros patch facts All H.
  - injection H as <-. now exists (fun _ => true).
  - cbn [speculativeLoop] in H.
    destruct (filterPatchByDecisions stringToPath proposal facts card decisions)
      as [patch1|e]; [|discriminate].
    cbn [bind] in H.
    destruct (applyPatch (jsonClone card) patch1) as [[candidate flags]|e];
      [|injection H as <-; now exists (fun _ => true)].
    destruct (validate candidate) as [|bad badPaths];
      [injection H as <-; now exists (fun _ => true)|].
    destruct (filter (isInvalidFact (bad :: badPaths)) facts) as [|f invalid] eqn:Einv;
      [injection H as <-; now exists (fun _ => true)|].
    apply IH in H.
    + destruct H as [keep Hkeep]. rewrite filter_filter in Hkeep. eauto.
    + clear. induction (filter _ facts) as [|x t IHt]; simpl; [reflexivity | now f_equal].
Qed.

Lemma speculativeLoop_only_drops_facts_witness :
  speculativeLoop noBrackets refuseTitle MAX_LOOPS reviewedProposal []
    (VObj (createEmptyCard "2025-11-09T10:05:00.000Z")) [] candidateFacts
  = Ok strictOutcome
  /\ exists keep : Fact -> bool, snd strictOutcome = filter keep candidateFacts.
Proof.
  split; [vm_compute; reflexivity|].
  apply (speculativeLoop_only_drops_facts noBrackets refuseTitle MAX_LOOPS
           reviewedProposal [] (VObj (createEmptyCard "2025-11-09T10:05:00.000Z"))
           [] candidateFacts strictOutcome).
  vm_compute. reflexivity.
Defined.

(** ** The repair of the card *)

Lemma repairSections_lookup (seed : list (string * value)) :
  NoDup (List.map fst seed) ->
  forall (card : list (string * value)) (k : string),
    lookup_prop (fst (repairSections seed card)) k
    = match lookup_prop card k with
      | None | Some VNull =>
          match lookup_prop seed k with
          | Some section => Some section
          | None => lookup_prop card k
          end
      | held => held
      end.
Proof.
  unfold repairSections.
  assert (G : forall flag card k,
             NoDup (List.map fst seed) ->
             lookup_prop
               (fst (fold_left
                       (fun (state : list (string * value) * bool)
                            (section : string * value) =>
                          match lookup_prop (fst state) (fst section) with
                          | None | Some VNull =>
                              (setProperty (fst state) (fst section) (snd section), true)
                          | Some _ => state
                          end)
                       seed (card, flag))) k
             = match lookup_prop card k with
               | None | Some VNull =>
                   match lookup_prop seed k with
                   | Some section => Some section
                   | None => lookup_prop card k
                   end
               | held => held
               end).
  { induction seed as [|[k0 s0] rest IH]; intros flag card k Hnd.
    - simpl. now destruct (lookup_prop card k) as [[]|].
    - inversion Hnd as [|? ? Hnot Hrest]; subst.
      assert (Absent : lookup_prop rest k0 = None) by now apply lookup_prop_None.
      cbn [fold_left fst snd lookup_prop].
      destruct (String.eqb_spec k0 k) as [<-|Hne].
      + destruct (lookup_prop card k0) as [held0|] eqn:E0.
        * destruct held0; rewrite (IH _ _ _ Hrest);
            rewrite ?lookup_setProperty, ?String.eqb_refl, ?E0, ?Absent;
            try reflexivity.
          now destruct s0.
        * rewrite (IH _ _ _ Hrest), lookup_setProperty, String.eqb_refl, Absent.
          now destruct s0.
      + apply String.eqb_neq in Hne.
        destruct (lookup_prop card k0) as [held0|] eqn:E0.
        * destruct held0; rewrite (IH _ _ _ Hrest);
            rewrite ?lookup_setProperty, ?Hne; reflexivity.
        * now rewrite (IH _ _ _ Hrest), lookup_setProperty, Hne. }
  intros Hnd card k. now apply G.
Qed.

Lemma createEmptyCard_keys (seedNow : string) :
  NoDup (List.map fst (createEmptyCard seedNow)).
Proof. apply distinct_NoDup. reflexivity. Qed.

(** X23. The repair of the card in [main()] of [apply.ts] takes from the
    seed exactly the root sections that the card lacks or holds as [null],
    and leaves every other member of the card as it is. *)
Theorem repair_takes_only_the_missing_sections
    (seedNow : string) (card : list (string * value)) (k : string) :
  lookup_prop (fst (repairSections (createEmptyCard seedNow) card)) k
  = match lookup_prop card k with
    | None | Some VNull =>
        match lookup_prop (createEmptyCard seedNow) k with
        | Some section => Some section
        | None => lookup_prop card k
        end
    | held => held
    end.
Proof. apply repairSections_lookup. apply createEmptyCard_keys. Qed.

Lemma repairSections_NoDup (seed card : list (string * value)) :
  NoDup (List.map fst card) ->
  NoDup (List.map fst (fst (repairSections seed card))).
Proof.
  unfold repairSections. intros H.
  apply fold_left_invariant with
    (I := fun state : list (string * value) * bool => NoDup (List.map fst (fst state))).
  - exact H.
  - intros [props flag] [k v] Hs. cbn [fst snd] in *.
    destruct (lookup_prop props k) as [[]|]; cbn [fst]; try exact Hs;
      now apply setProperty_NoDup.
Qed.

Lemma lookup_removeProperty (l : list (string * value)) (k k' : string) :
  NoDup (List.map fst l) ->
  lookup_prop (removeProperty l k) k'
  = if String.eqb k k' then None else lookup_prop l k'.
Proof.
  induction l as [|[k0 v0] r IH]; simpl; intros Hnd.
  - now destruct (String.eqb k k').
  - inversion Hnd as [|? ? Hnot Hr]; subst.
    destruct (String.eqb k0 k) eqn:E0.
    + apply String.eqb_eq in E0. subst k0.
      destruct (String.eqb k k') eqn:E; [|reflexivity].
      apply String.eqb_eq in E. subst k'. now apply lookup_prop_None.
    + simpl. rewrite (IH Hr).
      destruct (String.eqb k0 k') eqn:E; [|reflexivity].
      apply String.eqb_eq in E. subst k'.
      rewrite String.eqb_sym in E0. now rewrite E0.
Qed.

Lemma seed_sections (seedNow key : string) :
  In key (List.map fst (createEmptyCard "")) ->
  exists props, lookup_prop (createEmptyCard seedNow) key = Some (VObj props).
Proof.
  simpl. intros H.
  repeat (destruct H as [<-|H]; [eexists; reflexivity|]). contradiction.
Qed.

(** X24. After the preparation of the card in [main()] of [apply.ts],
    whatever the file held, the card in memory has every root section of
    the seed, none of them [null], and no truthy [$schema]. *)
Theorem prepareCard_restores_the_sections
    (seedNow : string) (loaded : value) (r : value * bool) :
  match loaded with
  | VObj props => distinct (List.map fst props)
  | _ => true
  end = true ->
  prepareCard seedNow loaded = Ok r ->
  sectionsPresent (fst r) = true.
Proof.
  intros Hd H. unfold prepareCard in H.
  destruct loaded as [| | | | |card]; try discriminate;
    try (apply Ok_inj in H; rewrite <- H; reflexivity).
  apply distinct_NoDup in Hd.
  pose proof (repairSections_NoDup (createEmptyCard seedNow) card Hd) as Hnd.
  assert (Sections : forall key,
             In key (List.map fst (createEmptyCard "")) ->
             match lookup_prop (fst (repairSections (createEmptyCard seedNow) card)) key with
             | None | Some VNull => false
             | Some _ => true
             end = true).
  { intros key Hkey. rewrite repairSections_lookup by apply createEmptyCard_keys.
    destruct (seed_sections seedNow key Hkey) as [props ->].
    now destruct (lookup_prop card key) as [[]|]. }
  assert (NotSchema : forall key,
             In key (List.map fst (createEmptyCard "")) -> String.eqb "$schema" key = false).
  { simpl. intros key Hk.
    repeat (destruct Hk as [<-|Hk]; [reflexivity|]). contradiction. }
  revert H Hnd Sections.
  generalize (repairSections (createEmptyCard seedNow) card).
  intros [repaired flag]. cbn [fst snd]. intros H Hnd Sections.
  unfold sectionsPresent.
  destruct (lookup_prop repaired "$schema") as [s|] eqn:Es.
  - destruct (truthyValue s) eqn:Et; apply Ok_inj in H; rewrite <- H; cbn [fst];
      apply andb_true_intro; split.
    + apply forallb_forall. intros key Hkey.
      rewrite (lookup_removeProperty repaired "$schema" key Hnd), (NotSchema key Hkey).
      now apply Sections.
    + now rewrite (lookup_removeProperty repaired "$schema" "$schema" Hnd), String.eqb_refl.
    + apply forallb_forall. exact Sections.
    + now rewrite Es, Et.
  - apply Ok_inj in H. rewrite <- H. cbn [fst].
    apply andb_true_intro. split.
    + apply forallb_forall. exact Sections.
    + now rewrite Es.
Qed.

Lemma prepareCard_restores_the_sections_witness :
  match VObj [("meta", VNull); ("$schema", VStr "card.schema.json")] with
  | VObj props => distinct (List.map fst props)
  | _ => true
  end = true
  /\ prepareCard "2025-11-09T10:05:00.000Z"
       (VObj [("meta", VNull); ("$schema", VStr "card.schema.json")])
     = Ok (VObj (removeProperty
                   (fst (repairSections (createEmptyCard "2025-11-09T10:05:00.000Z")
                           [("meta", VNull); ("$schema", VStr "card.schema.json")]))
                   "$schema"),
           true)
  /\ sectionsPresent
       (fst (VObj (removeProperty
                     (fst (repairSections (createEmptyCard "2025-11-09T10:05:00.000Z")
                             [("meta", VNull); ("$schema", VStr "card.schema.json")]))
                     "$schema"),
             true)) = true.
Proof.
  split; [reflexivity|]. split; [reflexivity|].
  apply (prepareCard_restores_the_sections "2025-11-09T10:05:00.000Z"
           (VObj [("meta", VNull); ("$schema", VStr "card.schema.json")])).
  - reflexivity.
  - reflexivity.
Defined.

(* ===================================================================== *)
(** * The provenance index *)
(* ===================================================================== *)

Lemma distinctAnchors_app (l : list Anchor) (a : Anchor) :
  distinctAnchors (l ++ [a])
  = distinctAnchors l && negb (existsb (fun existing => anchorEquals existing a) l).
Proof.
  induction l as [|x t IH]; simpl; [reflexivity|].
  rewrite IH, existsb_app. simpl. rewrite orb_false_r.
  rewrite !negb_orb.
  destruct (existsb (fun later => anchorEquals x later) t), (anchorEquals x a),
    (distinctAnchors t), (existsb (fun existing => anchorEquals existing a) t);
    reflexivity.
Qed.

Lemma pushNew_invariant (P : list Anchor -> Prop) (Q : Anchor -> Prop)
    (held sanitized : list Anchor) :
  P held -> Forall Q sanitized ->
  (forall l a, P l -> Q a ->
               existsb (fun existing => anchorEquals existing a) l = false ->
               P (l ++ [a])%list) ->
  P (pushNew held sanitized).
Proof.
  unfold pushNew. intros Hheld Hs Hstep. revert held Hheld.
  induction Hs as [|a r Ha Hr IH]; simpl; intros held Hheld; [exact Hheld|].
  apply IH. destruct (existsb _ held) eqn:E; [exact Hheld|]. now apply Hstep.
Qed.

Lemma pushNew_allowed (held sanitized : list Anchor) :
  forallb (fun a => isAnchorAllowed (a_path a)) held = true ->
  forallb (fun a => isAnchorAllowed (a_path a)) sanitized = true ->
  forallb (fun a => isAnchorAllowed (a_path a)) (pushNew held sanitized) = true.
Proof.
  intros Hh Hs.
  apply pushNew_invariant with
    (P := fun l => forallb (fun a => isAnchorAllowed (a_path a)) l = true)
    (Q := fun a => isAnchorAllowed (a_path a) = true).
  - exact Hh.
  - apply Forall_forall. now apply forallb_forall.
  - intros l a Hl Ha _. rewrite forallb_app, Hl. simpl. now rewrite Ha.
Qed.

Lemma pushNew_distinct (held sanitized : list Anchor) :
  distinctAnchors held = true -> distinctAnchors (pushNew held sanitized) = true.
Proof.
  intros Hh.
  apply pushNew_invariant with (P := fun l => distinctAnchors l = true)
                               (Q := fun _ => True).
  - exact Hh.
  - apply Forall_forall. tauto.
  - intros l a Hl _ E. now rewrite distinctAnchors_app, Hl, E.
Qed.

Lemma pushNew_nonEmpty (held sanitized : list Anchor) :
  nonEmpty sanitized = true -> nonEmpty (pushNew held sanitized) = true.
Proof.
  destruct sanitized as [|a r]; [discriminate|]. intros _.
  unfold pushNew. cbn [fold_left].
  assert (G : forall l (acc : list Anchor),
             nonEmpty acc = true ->
             nonEmpty
               (fold_left
                  (fun l anchor =>
                     if existsb (fun existing => anchorEquals existing anchor) l then l
                     else (l ++ [anchor])%list) l acc) = true).
  { induction l as [|x t IH]; simpl; intros acc Hacc; [exact Hacc|].
    apply IH. destruct (existsb _ acc); [exact Hacc | now destruct acc]. }
  apply G. destruct (existsb _ held) eqn:E.
  - destruct held; [discriminate | reflexivity].
  - now destruct held.
Qed.

Lemma indexFact_anchors (facts : list Fact) (fact : Fact)
    (state : JsMap.t (V := list Anchor) * JsMap.t (V := string)) :
  In fact facts ->
  Forall (fun kv : string * list Anchor =>
            nonEmpty (snd kv) = true
            /\ forallb (fun a => isAnchorAllowed (a_path a)) (snd kv) = true
            /\ distinctAnchors (snd kv) = true
            /\ In (fst kv) (List.map jsonPath facts)) (fst state) ->
  Forall (fun kv : string * list Anchor =>
            nonEmpty (snd kv) = true
            /\ forallb (fun a => isAnchorAllowed (a_path a)) (snd kv) = true
            /\ distinctAnchors (snd kv) = true
            /\ In (fst kv) (List.map jsonPath facts)) (fst (indexFact state fact)).
Proof.
  intros Hfact Hstate. unfold indexFact.
  destruct (filter (fun anchor => isAnchorAllowed (a_path anchor)) (repoSources fact))
    as [|a r] eqn:Es.
  - now destruct (sourceKind fact).
  - cbn [fst]. apply set_entries; [exact Hstate|]. cbn [fst snd].
    assert (Allowed : forallb (fun a => isAnchorAllowed (a_path a)) (a :: r) = true).
    { rewrite <- Es. apply forallb_forall. intros x Hx. apply filter_In in Hx. tauto. }
    assert (Held : forallb (fun a => isAnchorAllowed (a_path a))
                     (orElse (JsMap.get (fst state) (jsonPath fact)) []) = true
                   /\ distinctAnchors (orElse (JsMap.get (fst state) (jsonPath fact)) [])
                      = true).
    { destruct (JsMap.get (fst state) (jsonPath fact)) as [held|] eqn:Eg; [|now split].
      apply get_In in Eg. rewrite Forall_forall in Hstate.
      destruct (Hstate _ Eg) as [_ [H1 [H2 _]]]. now split. }
    destruct Held as [H1 H2].
    split; [now apply pushNew_nonEmpty|].
    split; [now apply pushNew_allowed|].
    split; [now apply pushNew_distinct|].
    now apply in_map.
Qed.

(** X25. The loop of [buildAnchorsIndex] in [write_anchors.ts] files
    anchors only under the paths of the facts, and under a path only
    anchors whose file is allowed (none under [.env], [secret.],
    [secrets.] or [id_rsa], in any case of the letters), each of them
    once, and at least one. *)
Theorem buildAnchorsIndex_files_only_allowed_anchors (facts : list Fact) :
  Forall (fun kv : string * list Anchor =>
            nonEmpty (snd kv) = true
            /\ forallb (fun a => isAnchorAllowed (a_path a)) (snd kv) = true
            /\ distinctAnchors (snd kv) = true
            /\ In (fst kv) (List.map jsonPath facts))
         (fst (fold_left indexFact facts ([], []))).
Proof.
  apply fold_left_invariant_In with
    (I := fun state : JsMap.t (V := list Anchor) * JsMap.t (V := string) =>
            Forall (fun kv : string * list Anchor =>
                      nonEmpty (snd kv) = true
                      /\ forallb (fun a => isAnchorAllowed (a_path a)) (snd kv) = true
                      /\ distinctAnchors (snd kv) = true
                      /\ In (fst kv) (List.map jsonPath facts)) (fst state)).
  - constructor.
  - intros state fact Hfact Hstate. now apply indexFact_anchors.
Qed.

Lemma indexFact_reasons (facts : list Fact) (fact : Fact)
    (state : JsMap.t (V := list Anchor) * JsMap.t (V := string)) :
  In fact facts ->
  Forall (fun kv : string * string =>
            exists f, In f facts /\ jsonPath f = fst kv
                      /\ sourceKind f <> extracted
                      /\ snd kv = sourceKindString (sourceKind f)
                      /\ filter (fun a => isAnchorAllowed (a_path a)) (repoSources f) = [])
         (snd state) ->
  Forall (fun kv : string * string =>
            exists f, In f facts /\ jsonPath f = fst kv
                      /\ sourceKind f <> extracted
                      /\ snd kv = sourceKindString (sourceKind f)
                      /\ filter (fun a => isAnchorAllowed (a_path a)) (repoSources f) = [])
         (snd (indexFact state fact)).
Proof.
  intros Hfact Hstate. unfold indexFact.
  destruct (filter (fun anchor => isAnchorAllowed (a_path anchor)) (repoSources fact))
    as [|a r] eqn:Es; [|exact Hstate].
  destruct (sourceKind fact) eqn:Ek; [exact Hstate| |];
    cbn [snd]; (apply set_entries; [exact Hstate|]); exists fact; cbn [fst snd];
    rewrite Ek; repeat split; auto; discriminate.
Qed.

(** X26. The loop of [buildAnchorsIndex] records a reason only for a fact
    that is not of the kind [extracted] and has no anchor in an allowed
    file; the reason is the kind of the fact. *)
Theorem buildAnchorsIndex_explains_unanchored_facts (facts : list Fact) :
  Forall (fun kv : string * string =>
            exists f, In f facts /\ jsonPath f = fst kv
                      /\ sourceKind f <> extracted
                      /\ snd kv = sourceKindString (sourceKind f)
                      /\ filter (fun a => isAnchorAllowed (a_path a)) (repoSources f) = [])
         (snd (fold_left indexFact facts ([], []))).
Proof.
  apply fold_left_invariant_In with
    (I := fun state : JsMap.t (V := list Anchor) * JsMap.t (V := string) =>
            Forall (fun kv : string * string =>
                      exists f, In f facts /\ jsonPath f = fst kv
                                /\ sourceKind f <> extracted
                                /\ snd kv = sourceKindString (sourceKind f)
                                /\ filter (fun a => isAnchorAllowed (a_path a))
                                          (repoSources f) = [])
                   (snd state)).
  - constructor.
  - intros state fact Hfact Hstate. now apply indexFact_reasons.
Qed.

(* ===================================================================== *)
(** * The canonicalizer *)
(* ===================================================================== *)

Lemma fromEntries_keys (entries : list (string * value)) :
  NoDup (List.map fst entries) ->
  Permutation (List.map fst entries)
    (List.map fst
       (fold_left (fun props kv => setProperty props (fst kv) (snd kv)) entries []))
  /\ NoDup (List.map fst
              (fold_left (fun props kv => setProperty props (fst kv) (snd kv)) entries [])).
Proof.
  intros Hnd.
  assert (Hout : NoDup (List.map fst
                          (fold_left (fun props kv => setProperty props (fst kv) (snd kv))
                                     entries [])))
    by (apply fold_setProperty_NoDup; constructor).
  split; [|exact Hout].
  apply NoDup_Permutation; [exact Hnd | exact Hout |].
  intros k. split; intros H; apply in_map_iff in H; destruct H as [[k' w] [Hk H]];
    simpl in Hk; subst k'.
  - pose proof (fold_setProperty_lookup entries k w [] Hnd H) as L.
    apply lookup_prop_In in L. apply in_map_iff. now exists (k, w).
  - apply fold_setProperty_In in H. destruct H as [H|[]].
    apply in_map_iff. now exists (k, w).
Qed.

Lemma NoDup_distinct (keys : list string) : NoDup keys -> distinct keys = true.
Proof.
  induction 1 as [|k r Hnot Hr IH]; [reflexivity|].
  cbn [distinct]. rewrite IH, andb_true_r. apply negb_true_iff.
  destruct (includes_string r k) eqn:E; [|reflexivity].
  unfold includes_string in E. apply existsb_exists in E.
  destruct E as [x [Hx Ex]]. apply String.eqb_eq in Ex. now subst x.
Qed.

(** X27. The canonical form of an object has the keys of the object, and
    each of them once: [normalizeCard] of [scripts/src/card/deterministic.ts]
    drops no member and adds none. *)
Theorem normalizeCard_keeps_the_keys (h : Host) (ps ys : list (string * value))
    (path : list string) :
  distinct (List.map fst ps) = true ->
  ScriptsCard.normalizeCard h (VObj ps) path = Ok (VObj ys) ->
  Permutation (List.map fst ps) (List.map fst ys) /\ distinct (List.map fst ys) = true.
Proof.
  intros Hnd HN. apply distinct_NoDup in Hnd.
  cut (Permutation (List.map fst ps) (List.map fst ys) /\ NoDup (List.map fst ys)).
  { intros [P N]. split; [exact P | now apply NoDup_distinct]. }
  apply normalizeCard_object_inv in HN as (ps' & entries & Hps & He & Hys).
  injection Hps as <-.
  pose proof (map_entries_keys _ ps entries He) as Hk.
  assert (Hs : Permutation (List.map fst entries) (List.map fst (sortEntries h entries))).
  { apply Permutation_map. unfold sortEntries, js_sort. apply sort_stable_perm. }
  assert (Hsnd : NoDup (List.map fst (sortEntries h entries))).
  { eapply Permutation_NoDup; [exact Hs|]. now rewrite Hk. }
  unfold fromEntries in Hys. injection Hys as <-.
  destruct (fromEntries_keys (sortEntries h entries) Hsnd) as [P N].
  split; [|exact N].
  rewrite <- Hk. eapply Permutation_trans; [exact Hs | exact P].
Qed.

Lemma normalizeCard_keeps_the_keys_witness :
  distinct (List.map fst [("tags", VArr [VStr "zeta"; VStr "alpha"]); ("10", VNull);
                          ("lastUpdated", VStr "2025-11-09T15:32:15.456Z")]) = true
  /\ ScriptsCard.normalizeCard exampleHost
       (VObj [("tags", VArr [VStr "zeta"; VStr "alpha"]); ("10", VNull);
              ("lastUpdated", VStr "2025-11-09T15:32:15.456Z")]) []
     = Ok (VObj [("10", VNull); ("lastUpdated", VStr "2025-11-09T15:32:15.456Z");
                 ("tags", VArr [VStr "zeta"; VStr "alpha"])])
  /\ Permutation
       (List.map fst [("tags", VArr [VStr "zeta"; VStr "alpha"]); ("10", VNull);
                      ("lastUpdated", VStr "2025-11-09T15:32:15.456Z")])
       (List.map fst [("10", VNull); ("lastUpdated", VStr "2025-11-09T15:32:15.456Z");
                      ("tags", VArr [VStr "zeta"; VStr "alpha"])])
  /\ distinct (List.map fst [("10", VNull);
                             ("lastUpdated", VStr "2025-11-09T15:32:15.456Z");
                             ("tags", VArr [VStr "zeta"; VStr "alpha"])]) = true.
Proof.
  split; [reflexivity|]. split; [vm_compute; reflexivity|].
  apply (normalizeCard_keeps_the_keys exampleHost
           [("tags", VArr [VStr "zeta"; VStr "alpha"]); ("10", VNull);
            ("lastUpdated", VStr "2025-11-09T15:32:15.456Z")]
           [("10", VNull); ("lastUpdated", VStr "2025-11-09T15:32:15.456Z");
            ("tags", VArr [VStr "zeta"; VStr "alpha"])] []).
  - reflexivity.
  - vm_compute. reflexivity.
Defined.

(** X28. A member of the canonical form of an object is the canonical form
    of the member of that name, taken at the path of the member: the
    canonicalizer treats each member on its own. *)
Theorem normalizeCard_treats_each_member_on_its_own
    (h : Host) (ps ys : list (string * value)) (path : list string)
    (k : string) (cy : value) :
  distinct (List.map fst ps) = true ->
  ScriptsCard.normalizeCard h (VObj ps) path = Ok (VObj ys) ->
  (lookup_prop ys k = Some cy
   <-> exists x, lookup_prop ps k = Some x
                 /\ ScriptsCard.normalizeCard h x (path ++ [k])%list = Ok cy).
Proof.
  intros Hnd HN. apply distinct_NoDup in Hnd. split.
  - intros Hk. now apply (normalizeCard_member h ps ys path k cy).
  - intros [x [Hx Hc]].
    destruct (normalizeCard_lookup h ps ys path k x Hnd HN Hx) as [w [Hw Hy]].
    congruence.
Qed.

Lemma normalizeCard_treats_each_member_on_its_own_witness :
  distinct (List.map fst [("tags", VArr [VStr "zeta"; VStr "alpha"]); ("10", VNull);
                          ("lastUpdated", VStr "2025-11-09T15:32:15.456+01:00")]) = true
  /\ ScriptsCard.normalizeCard exampleHost
       (VObj [("tags", VArr [VStr "zeta"; VStr "alpha"]); ("10", VNull);
              ("lastUpdated", VStr "2025-11-09T15:32:15.456+01:00")]) []
     = Ok (VObj [("10", VNull); ("lastUpdated", VStr "2025-11-09T14:32:15.456Z");
                 ("tags", VArr [VStr "zeta"; VStr "alpha"])])
  /\ (lookup_prop [("10", VNull); ("lastUpdated", VStr "2025-11-09T14:32:15.456Z");
                   ("tags", VArr [VStr "zeta"; VStr "alpha"])] "lastUpdated"
      = Some (VStr "2025-11-09T14:32:15.456Z")
      <-> exists x,
            lookup_prop [("tags", VArr [VStr "zeta"; VStr "alpha"]); ("10", VNull);
                         ("lastUpdated", VStr "2025-11-09T15:32:15.456+01:00")]
                        "lastUpdated" = Some x
            /\ ScriptsCard.normalizeCard exampleHost x ([] ++ ["lastUpdated"])%list
               = Ok (VStr "2025-11-09T14:32:15.456Z")).
Proof.
  split; [reflexivity|]. split; [vm_compute; reflexivity|].
  apply (normalizeCard_treats_each_member_on_its_own exampleHost
           [("tags", VArr [VStr "zeta"; VStr "alpha"]); ("10", VNull);
            ("lastUpdated", VStr "2025-11-09T15:32:15.456+01:00")]
           [("10", VNull); ("lastUpdated", VStr "2025-11-09T14:32:15.456Z");
            ("tags", VArr [VStr "zeta"; VStr "alpha"])] [] "lastUpdated"
           (VStr "2025-11-09T14:32:15.456Z")).
  - reflexivity.
  - vm_compute. reflexivity.
Defined.

(** X29. At a path whose name is not one that objects inherit, the
    canonical form of an array holds the canonical forms of the elements of
    the array, each taken at its index, in the order of the array or
    reordered by the sorter of the path: no element is lost, added or
    changed by the sorting. *)
Theorem normalizeCard_only_reorders_an_array
    (h : Host) (items : list value) (path : list string) (out : value) :
  includes_string OBJECT_PROTOTYPE_KEYS (String.concat "." path) = false ->
  ScriptsCard.normalizeCard h (VArr items) path = Ok out ->
  exists normalized sorted,
    mapi_result
      (fun index item =>
         ScriptsCard.normalizeCard h item (path ++ [nat_to_string index])%list)
      O items = Ok normalized
    /\ out = VArr sorted
    /\ Permutation normalized sorted
    /\ (JsMap.get (Scripts.arraySorters h) (String.concat "." path) = None ->
        sorted = normalized).
Proof.
  intros Hown H. cbn [ScriptsCard.normalizeCard] in H.
  destruct (mapi_result _ O items) as [normalized|e]; [|discriminate].
  cbn [bind] in H. unfold lookupSorter in H. rewrite Hown in H.
  exists normalized.
  destruct (JsMap.get (Scripts.arraySorters h) (String.concat "." path)) as [c|];
    cbn [sortNormalized] in H.
  - destruct (sort_result c normalized) as [sorted|e] eqn:E; [|discriminate].
    injection H as <-. exists sorted. repeat split; try discriminate.
    now apply sort_result_perm with (comparefn := c).
  - injection H as <-. exists normalized. repeat split. apply Permutation_refl.
Qed.

Lemma normalizeCard_only_reorders_an_array_witness :
  includes_string OBJECT_PROTOTYPE_KEYS (String.concat "." ["governance"; "riskRegister"])
  = false
  /\ ScriptsCard.normalizeCard exampleHost (VArr someRisks) ["governance"; "riskRegister"]
     = Ok canonicalRisks
  /\ exists normalized sorted,
       mapi_result
         (fun index item =>
            ScriptsCard.normalizeCard exampleHost item
              (["governance"; "riskRegister"] ++ [nat_to_string index])%list)
         O someRisks = Ok normalized
       /\ canonicalRisks = VArr sorted
       /\ Permutation normalized sorted
       /\ (JsMap.get (Scripts.arraySorters exampleHost)
                     (String.concat "." ["governance"; "riskRegister"]) = None ->
           sorted = normalized).
Proof.
  split; [reflexivity|]. split; [vm_compute; reflexivity|].
  apply (normalizeCard_only_reorders_an_array exampleHost someRisks
           ["governance"; "riskRegister"] canonicalRisks).
  - reflexivity.
  - vm_compute. reflexivity.
Defined.

(** ** The line endings of the serialized card *)

Lemma endsWith_LF (r : string) :
  endsWith (r ++ String LF EmptyString) (String LF EmptyString) = true.
Proof.
  unfold endsWith.
  assert (L : String.length (r ++ String LF EmptyString) = S (String.length r)).
  { induction r as [|c t IH]; simpl; [reflexivity | now rewrite IH]. }
  rewrite L. cbn [String.length].
  replace (S (String.length r) - 1)%nat with (String.length r) by lia.
  assert (T : String.substring (String.length r) 1 (r ++ String LF EmptyString)
              = String LF EmptyString).
  { clear L. induction r as [|c t IH]; simpl; [reflexivity | exact IH]. }
  rewrite T, String.eqb_refl. reflexivity.
Qed.

Lemma ensureLf_cons (c d : ascii) (r : string) :
  ensureLf (String c (String d r))
  = if Ascii.eqb c CR && Ascii.eqb d LF then String LF (ensureLf r)
    else String c (ensureLf (String d r)).
Proof. reflexivity. Qed.

Lemma ensureLf_keeps_the_last_LF (r : string) :
  exists r', ensureLf (r ++ String LF EmptyString) = r' ++ String LF EmptyString.
Proof.
  assert (G : forall n r, (String.length r <= n)%nat ->
             exists r', ensureLf (r ++ String LF EmptyString) = r' ++ String LF EmptyString).
  { induction n as [|n IH]; intros s Hs.
    - destruct s; [|simpl in Hs; lia]. now exists "".
    - destruct s as [|c [|d t]].
      + now exists "".
      + change (String c "" ++ String LF EmptyString) with (String c (String LF "")).
        rewrite ensureLf_cons. destruct (Ascii.eqb c CR && Ascii.eqb LF LF).
        * now exists "".
        * now exists (String c "").
      + change ((String c (String d t)) ++ String LF EmptyString)
          with (String c (String d (t ++ String LF EmptyString))).
        rewrite ensureLf_cons. destruct (Ascii.eqb c CR && Ascii.eqb d LF).
        * destruct (IH t) as [r' Hr']; [simpl in Hs; lia|].
          exists (String LF r'). now rewrite Hr'.
        * destruct (IH (String d t)) as [r' Hr']; [simpl in Hs |- *; lia|].
          exists (String c r').
          change (String d (t ++ String LF EmptyString))
            with (String d t ++ String LF EmptyString).
          now rewrite Hr'. }
  apply (G (String.length r)). lia.
Qed.

Lemma endsWith_LF_inv (s : string) :
  endsWith s (String LF EmptyString) = true ->
  exists r, s = r ++ String LF EmptyString.
Proof.
  unfold endsWith. cbn [String.length]. intros H.
  apply andb_true_iff in H. destruct H as [Hl He].
  apply Nat.leb_le in Hl. apply String.eqb_eq in He.
  revert Hl He. induction s as [|c t IH]; simpl; intros Hl He; [lia|].
  destruct t as [|d t'].
  - simpl in He. exists "". now rewrite He.
  - replace (String.length (String d t') - 0)%nat with (S (String.length t' )) in He
      by (simpl; lia).
    destruct IH as [r Hr].
    + simpl. lia.
    + simpl. replace (String.length t' - 0)%nat with (String.length t') by lia.
      exact He.
    + exists (String c r). simpl. now rewrite <- Hr.
Qed.

(** X30. The text that [stringifyDeterministic] returns ends with a line
    feed, whatever the serializer produced: [ensureTrailingNewline] adds
    one where it is missing, and [ensureLf], which turns each carriage
    return with its line feed into a line feed, keeps it. *)
Theorem serialized_card_ends_with_a_line_feed (yaml : string) :
  endsWith (ensureLf (ensureTrailingNewline yaml)) (String LF EmptyString) = true.
Proof.
  unfold ensureTrailingNewline.
  destruct (endsWith yaml (String LF EmptyString)) eqn:E.
  - apply endsWith_LF_inv in E. destruct E as [r ->].
    destruct (ensureLf_keeps_the_last_LF r) as [r' ->]. apply endsWith_LF.
  - destruct (ensureLf_keeps_the_last_LF yaml) as [r' ->]. apply endsWith_LF.
Qed.
